(** * Resume analyzer: a shallow embedding of the analytical core

    The development follows the Python sources module by module:

    - [core/config.py]        : [Skill], [SkillTaxonomy], [CATEGORY_WEIGHTS]
    - [core/skills.py]        : the three matchers and [SkillExtractor]
    - [core/gap_analysis.py]  : [GapAnalyzer]
    - [core/preprocessing.py] : [TextPreprocessor.process]
    - [core/similarity.py]    : [SimilarityEngine.compute_similarity]

    Conventions.

    - A Python [str] is a list of code points.  The embedding covers the
      code points U+0000..U+00FF, carried by [ascii]; the character classes
      ([\w], [\s], [\d], [str.lower], [str.strip], NFKD) are the ones Python
      uses on that range.
    - A Python [float] is an IEEE 754 binary64 number, carried by the
      primitive type [float]; [*], [/], [+], [<], [<=] are the correctly
      rounded operations Python performs.
    - A raised exception is the [Raise] outcome of [result].
    - A [dict] is an association list in insertion order.  A [set] is a
      duplicate free list; the order in which a [set] is iterated is not
      fixed by Python, so it is a parameter of every function that iterates
      one. *)

From Stdlib Require Import String Ascii List Bool Arith Lia Permutation Sorted.
From Stdlib Require Import ZArith Uint63 Floats.
Import ListNotations.

Set Warnings "-inexact-float".
Set Implicit Arguments.

(* ================================================================== *)
(** * Exceptions *)

Inductive exn : Type :=
| NameError (name : string)
| ValueError (msg : string).

Inductive result (A : Type) : Type :=
| Ok (a : A)
| Raise (e : exn).

Arguments Ok {A} a.
Arguments Raise {A} e.

Definition bind {A B : Type} (r : result A) (k : A -> result B) : result B :=
  match r with
  | Ok a => k a
  | Raise e => Raise e
  end.

Notation "x <- r ;; k" := (bind r (fun x => k))
  (at level 61, r at next level, right associativity).
Notation "' p <- r ;; k" := (bind r (fun p => k))
  (at level 61, p pattern, r at next level, right associativity).

(* ================================================================== *)
(** * Python strings *)

Module Str.

Definition str : Type := list ascii.

(** A string literal of the source. *)
Definition txt (s : string) : str := list_ascii_of_string s.

Definition code (c : ascii) : nat := nat_of_ascii c.

Definition between (lo hi : nat) (c : ascii) : bool :=
  (lo <=? code c) && (code c <=? hi).

Definition is_code (n : nat) (c : ascii) : bool := code c =? n.

(** [c.isupper()] restricted to the characters [str.lower] changes:
    A-Z and U+00C0..U+00DE without the multiplication sign U+00D7. *)
Definition is_upper (c : ascii) : bool :=
  between 65 90 c || (between 192 222 c && negb (is_code 215 c)).

Definition lower_char (c : ascii) : ascii :=
  if is_upper c then ascii_of_nat (code c + 32) else c.

(** [s.lower()].  On U+0000..U+00FF every character lowers to one
    character; beyond that range [str.lower] can lengthen a string (U+0130
    lowers to two code points). *)
Definition lower (s : str) : str := map lower_char s.

(** [c.isspace()], which is also the class [\s] of [re] on [str]. *)
Definition is_space (c : ascii) : bool :=
  between 9 13 c || between 28 32 c || is_code 133 c || is_code 160 c.

(** The class [\d] of [re] on [str]. *)
Definition is_digit (c : ascii) : bool := between 48 57 c.

(** The class [\w] of [re] on [str]: [c.isalnum()] or the underscore. *)
Definition is_word (c : ascii) : bool :=
  between 48 57 c || between 65 90 c || between 97 122 c || is_code 95 c
  || is_code 170 c || is_code 178 c || is_code 179 c || is_code 181 c
  || is_code 185 c || is_code 186 c || between 188 190 c
  || (between 192 255 c && negb (is_code 215 c) && negb (is_code 247 c)).

Fixpoint eqb (s t : str) : bool :=
  match s, t with
  | [], [] => true
  | a :: s', b :: t' => Ascii.eqb a b && eqb s' t'
  | _, _ => false
  end.

(** [key in seen] for a set of strings. *)
Definition mem (k : str) (l : list str) : bool := existsb (eqb k) l.

(** [t.startswith(p)] *)
Fixpoint starts_with (p t : str) : bool :=
  match p, t with
  | [], _ => true
  | a :: p', b :: t' => Ascii.eqb a b && starts_with p' t'
  | _ :: _, [] => false
  end.

(** [p in t] *)
Fixpoint contains (p t : str) : bool :=
  starts_with p t ||
  match t with
  | [] => false
  | _ :: t' => contains p t'
  end.

(** [t.find(p)]: the index of the first occurrence, [None] for [-1]. *)
Fixpoint find (p t : str) : option nat :=
  if starts_with p t then Some 0
  else match t with
       | [] => None
       | _ :: t' => option_map S (find p t')
       end.

(** [t[start:stop]] for [0 <= start]. *)
Definition slice (t : str) (start stop : nat) : str :=
  firstn (stop - start) (skipn start t).

Fixpoint lstrip (t : str) : str :=
  match t with
  | [] => []
  | c :: t' => if is_space c then lstrip t' else t
  end.

Definition rstrip (t : str) : str := rev (lstrip (rev t)).

(** [t.strip()] *)
Definition strip (t : str) : str := rstrip (lstrip t).

(** [sep.join(parts)] *)
Fixpoint join (sep : str) (parts : list str) : str :=
  match parts with
  | [] => []
  | [p] => p
  | p :: rest => p ++ sep ++ join sep rest
  end.

(** Length of the longest prefix of [t] whose characters satisfy [P]. *)
Fixpoint run_len (P : ascii -> bool) (t : str) : nat :=
  match t with
  | [] => 0
  | c :: t' => if P c then S (run_len P t') else 0
  end.

End Str.

Import Str.

(* ================================================================== *)
(** * The fragment of [re] the sources use *)

Module Re.

(** A matcher tells, at one position of the subject, whether the pattern
    matches there and how many characters the match spans.  It sees the
    character before the position (for [\b]) and the rest of the subject. *)
Definition matcher : Type := option ascii -> str -> option nat.

Definition is_word_opt (o : option ascii) : bool :=
  match o with
  | Some c => is_word c
  | None => false
  end.

(** [\b] between two neighbouring positions; outside the subject counts
    as a non-word character. *)
Definition boundary (prev next : option ascii) : bool :=
  xorb (is_word_opt prev) (is_word_opt next).

(** The character before position [n] of [t], when [prev] precedes [t]. *)
Definition char_before (prev : option ascii) (t : str) (n : nat) : option ascii :=
  match n with
  | 0 => prev
  | S m => nth_error t m
  end.

(** [\b lit \b] with [lit] a literal (the result of [re.escape]). *)
Definition word_literal (lit : str) : matcher := fun prev t =>
  if boundary prev (hd_error t)
     && starts_with lit t
     && boundary (char_before prev t (length lit)) (nth_error t (length lit))
  then Some (length lit) else None.

(** The same under [re.IGNORECASE]. *)
Definition word_literal_ci (lit : str) : matcher := fun prev t =>
  if boundary prev (hd_error t)
     && starts_with (lower lit) (lower t)
     && boundary (char_before prev t (length lit)) (nth_error t (length lit))
  then Some (length lit) else None.

(** [re.search(p, t)] seen as a truth value. *)
Fixpoint search_from (m : matcher) (prev : option ascii) (t : str) : bool :=
  match m prev t with
  | Some _ => true
  | None =>
    match t with
    | [] => false
    | c :: t' => search_from m (Some c) t'
    end
  end.

Definition search (m : matcher) (t : str) : bool := search_from m None t.

(** [re.findall(p, t)] for a pattern without groups whose matches are
    never empty: the matched substrings, left to right, not overlapping.
    [skip] counts the characters of the current match still to pass. *)
Fixpoint findall_from (m : matcher) (prev : option ascii) (t : str) (skip : nat)
  : list str :=
  match t with
  | [] => []
  | c :: t' =>
    match skip with
    | S s => findall_from m (Some c) t' s
    | 0 =>
      match m prev t with
      | Some (S k) => firstn (S k) t :: findall_from m (Some c) t' k
      | _ => findall_from m (Some c) t' 0
      end
    end
  end.

Definition findall (m : matcher) (t : str) : list str := findall_from m None t 0.

(** [re.sub(p, repl, t)] for a pattern whose matches are never empty and a
    replacement without escapes. *)
Fixpoint sub_from (m : matcher) (repl : str) (prev : option ascii) (t : str)
         (skip : nat) : str :=
  match t with
  | [] => []
  | c :: t' =>
    match skip with
    | S s => sub_from m repl (Some c) t' s
    | 0 =>
      match m prev t with
      | Some (S k) => repl ++ sub_from m repl (Some c) t' k
      | _ => c :: sub_from m repl (Some c) t' 0
      end
    end
  end.

Definition sub (m : matcher) (repl : str) (t : str) : str :=
  sub_from m repl None t 0.

End Re.

(* ================================================================== *)
(** * Python floats and sorting *)

Module Py.

Local Open Scope float_scope.

(** [float(n)] for the length of a list. *)
Definition float_of_nat (n : nat) : float :=
  PrimFloat.of_uint63 (Uint63.of_Z (Z.of_nat n)).

(** [min(x, y)] on two floats: [y] when [y < x], otherwise [x]. *)
Definition min (x y : float) : float := if y <? x then y else x.

(** [x >= y] *)
Definition geb (x y : float) : bool := y <=? x.

(** [sum(xs)]: left to right from the integer [0]. *)
Definition sum (xs : list float) : float := fold_left PrimFloat.add xs 0.

Section Sorted.
Variable A : Type.
Variable key : A -> float.

  (** One step of a stable descending sort: [x] stood before every element
      of [l], so it stays before those whose key is not greater. *)
Fixpoint insert_desc (x : A) (l : list A) : list A :=
    match l with
    | [] => [x]
    | y :: l' => if key x <? key y then y :: insert_desc x l' else x :: l
    end.

  (** [sorted(l, key=key, reverse=True)]: descending by key, elements with
      equal keys in their original order.  Python compares keys with [<]
      only; on keys that [<] orders totally every stable sort returns this
      list. *)
Fixpoint sorted_desc (l : list A) : list A :=
    match l with
    | [] => []
    | x :: l' => insert_desc x (sorted_desc l')
    end.
End Sorted.

End Py.

(* ================================================================== *)
(** * Python dictionaries keyed by strings *)

Module Dict.

Section Dict.
Variable V : Type.

Definition t : Type := list (str * V).

  (** [d[k] = v]: an existing key keeps its place, a new key goes last. *)
Fixpoint set (k : str) (v : V) (d : t) : t :=
    match d with
    | [] => [(k, v)]
    | (k', v') :: d' =>
      if Str.eqb k' k then (k', v) :: d' else (k', v') :: set k v d'
    end.

  (** [d.get(k)] *)
Fixpoint get (k : str) (d : t) : option V :=
    match d with
    | [] => None
    | (k', v') :: d' => if Str.eqb k' k then Some v' else get k d'
    end.

Definition keys (d : t) : list str := map fst d.
Definition values (d : t) : list V := map snd d.
End Dict.

End Dict.

(* ================================================================== *)
(** * core/config.py *)

Module Config.

Local Open Scope float_scope.

Inductive SkillCategory : Type :=
| LANGUAGES | FRAMEWORKS | ML | DEVOPS | CLOUD | DATABASES | FUNDAMENTALS.

(** [category.value] *)
Definition value (c : SkillCategory) : str :=
  match c with
  | LANGUAGES => txt "languages"
  | FRAMEWORKS => txt "frameworks"
  | ML => txt "ml"
  | DEVOPS => txt "devops"
  | CLOUD => txt "cloud"
  | DATABASES => txt "databases"
  | FUNDAMENTALS => txt "fundamentals"
  end.

Definition category_eqb (a b : SkillCategory) : bool :=
  match a, b with
  | LANGUAGES, LANGUAGES | FRAMEWORKS, FRAMEWORKS | ML, ML
  | DEVOPS, DEVOPS | CLOUD, CLOUD | DATABASES, DATABASES
  | FUNDAMENTALS, FUNDAMENTALS => true
  | _, _ => false
  end.

Inductive Priority : Type := CRITICAL | HIGH | MEDIUM | LOW.

Definition priority_eqb (a b : Priority) : bool :=
  match a, b with
  | CRITICAL, CRITICAL | HIGH, HIGH | MEDIUM, MEDIUM | LOW, LOW => true
  | _, _ => false
  end.

Record Skill : Type := mkSkill {
  name : str;
  category : SkillCategory;
  weight : float;
  variants : list str;
  strict_match : bool
}.

(** [Skill(name, category, weight, variants, strict_match)]: the
    constructor followed by [__post_init__], which lowercases and strips
    every variant. *)
Definition new_Skill (name : string) (category : SkillCategory) (weight : float)
           (variants : list string) (strict_match : bool) : Skill :=
  mkSkill (txt name) category weight
          (map (fun v => strip (lower (txt v))) variants) strict_match.

Record SkillTaxonomy : Type := mkTaxonomy {
  _skills : Dict.t Skill;
  _variant_index : Dict.t Skill
}.

Definition _register (self : SkillTaxonomy) (skill : Skill) : SkillTaxonomy :=
  mkTaxonomy
    (Dict.set (lower (name skill)) skill (_skills self))
    (fold_left (fun index variant => Dict.set variant skill index)
               (variants skill) (_variant_index self)).

Definition skills_data : list Skill := [
  (* Languages *)
  new_Skill "Python" LANGUAGES 1.2 ["python"; "python3"; "py"] false;
  new_Skill "Java" LANGUAGES 1.2 ["java"; "java8"; "java11"] false;
  new_Skill "JavaScript" LANGUAGES 1.2 ["javascript"; "js"; "es6"] false;
  new_Skill "TypeScript" LANGUAGES 1.1 ["typescript"; "ts"] false;
  new_Skill "C++" LANGUAGES 1.1 ["c++"; "cpp"; "cplusplus"] false;
  new_Skill "C" LANGUAGES 1.0 ["c programming"] true;
  new_Skill "C#" LANGUAGES 1.1 ["c#"; "csharp"] false;
  new_Skill "Go" LANGUAGES 1.0 ["golang"] true;
  (* Frameworks *)
  new_Skill "React" FRAMEWORKS 1.0 ["react"; "reactjs"] false;
  new_Skill "Angular" FRAMEWORKS 0.9 ["angular"] false;
  new_Skill "Vue.js" FRAMEWORKS 0.9 ["vue"; "vuejs"] false;
  new_Skill "Node.js" FRAMEWORKS 1.0 ["nodejs"; "node"] false;
  new_Skill "Django" FRAMEWORKS 1.0 ["django"] false;
  new_Skill "Flask" FRAMEWORKS 0.9 ["flask"] false;
  new_Skill "Spring Boot" FRAMEWORKS 1.0 ["spring boot"; "spring"] false;
  new_Skill ".NET" FRAMEWORKS 1.0 ["dotnet"; ".net"] false;
  (* ML *)
  new_Skill "TensorFlow" ML 1.0 ["tensorflow"; "tf"] false;
  new_Skill "PyTorch" ML 1.0 ["pytorch"; "torch"] false;
  new_Skill "scikit-learn" ML 0.9 ["sklearn"] false;
  (* DevOps *)
  new_Skill "Docker" DEVOPS 1.0 ["docker"] false;
  new_Skill "Kubernetes" DEVOPS 0.9 ["kubernetes"; "k8s"] false;
  new_Skill "Git" DEVOPS 0.8 ["git"; "github"] false;
  (* Cloud *)
  new_Skill "AWS" CLOUD 1.0 ["aws"; "amazon web services"] false;
  new_Skill "Azure" CLOUD 0.9 ["azure"] false;
  new_Skill "GCP" CLOUD 0.9 ["gcp"; "google cloud"] false;
  (* Databases *)
  new_Skill "SQL" DATABASES 1.1 ["sql"] false;
  new_Skill "MySQL" DATABASES 0.9 ["mysql"] false;
  new_Skill "PostgreSQL" DATABASES 0.9 ["postgresql"; "postgres"] false;
  new_Skill "MongoDB" DATABASES 0.9 ["mongodb"; "mongo"] false;
  (* Fundamentals *)
  new_Skill "Algorithms" FUNDAMENTALS 1.3 ["algorithms"; "algo"; "dsa"] false;
  new_Skill "Data Structures" FUNDAMENTALS 1.3 ["data structures"; "dsa"] false;
  new_Skill "OOP" FUNDAMENTALS 1.1 ["oop"; "object oriented"] false;
  new_Skill "System Design" FUNDAMENTALS 1.2 ["system design"; "architecture"] false
]%string.

Definition _load_skills (self : SkillTaxonomy) : SkillTaxonomy :=
  fold_left _register skills_data self.

(** [SkillTaxonomy()] *)
Definition new_SkillTaxonomy : SkillTaxonomy :=
  _load_skills (mkTaxonomy [] []).

Definition get_all_skills (self : SkillTaxonomy) : list Skill :=
  Dict.values (_skills self).

Definition get_by_variant (self : SkillTaxonomy) (variant : str) : option Skill :=
  Dict.get (lower variant) (_variant_index self).

Definition CATEGORY_WEIGHTS : list (SkillCategory * float) := [
  (FUNDAMENTALS, 1.3);
  (LANGUAGES, 1.2);
  (FRAMEWORKS, 1.0);
  (ML, 1.0);
  (DEVOPS, 0.9);
  (CLOUD, 1.0);
  (DATABASES, 0.9)
].

(** [CATEGORY_WEIGHTS.get(c, default)] *)
Fixpoint weights_get (table : list (SkillCategory * float)) (c : SkillCategory)
         (default : float) : float :=
  match table with
  | [] => default
  | (c', w) :: table' =>
    if category_eqb c' c then w else weights_get table' c default
  end.

End Config.

Import Config.

(* ================================================================== *)
(** * core/skills.py *)

Record SkillMatch : Type := mkSkillMatch {
  skill : Skill;
  match_type : string;
  confidence : float;
  context : str
}.

(** The interface [SkillMatcher.find_matches(text, taxonomy, seen)].  The
    set [seen] is mutated by the call, so it is returned with the matches. *)
Definition SkillMatcher : Type :=
  str -> SkillTaxonomy -> list str -> result (list SkillMatch * list str).

Module ExactMatcher.

Definition _extract_context (text term : str) : str :=
  let window := 50 in
  match Str.find (lower term) (lower text) with
  | None => []
  | Some idx =>
    let start := idx - window in
    let stop := Nat.min (length text) (idx + length term + window) in
    let context := strip (slice text start stop) in
    let context := if 0 <? start then txt "..." ++ context else context in
    if stop <? length text then context ++ txt "..." else context
  end.

(** The test [found] of the loop body. *)
Definition found (text_lower : str) (skill : Skill) : bool :=
  let key := lower (name skill) in
  if strict_match skill
  then Re.search (Re.word_literal key) text_lower
  else contains key text_lower.

(** The loop [for skill in taxonomy], with [matches] and [seen] as they
    stand when the remaining skills are visited. *)
Fixpoint loop (text text_lower : str) (skills : list Skill)
         (matches : list SkillMatch) (seen : list str)
  : list SkillMatch * list str :=
  match skills with
  | [] => (matches, seen)
  | skill :: rest =>
    let key := lower (name skill) in
    if mem key seen then loop text text_lower rest matches seen
    else if found text_lower skill then
      let context := _extract_context text (name skill) in
      loop text text_lower rest
           (matches ++ [mkSkillMatch skill "exact" 1.0%float context])
           (key :: seen)
    else loop text text_lower rest matches seen
  end.

Definition find_matches : SkillMatcher := fun text taxonomy seen =>
  Ok (loop text (lower text) (get_all_skills taxonomy) [] seen).

End ExactMatcher.

Module VariantMatcher.

Definition found (text_lower : str) (skill : Skill) (variant : str) : bool :=
  if strict_match skill
  then Re.search (Re.word_literal variant) text_lower
  else contains variant text_lower.

(** The inner loop [for variant in skill.variants] up to its [break]: the
    first variant found in the text. *)
Definition first_found (text_lower : str) (skill : Skill) : option str :=
  List.find (found text_lower skill) (variants skill).

Fixpoint loop (text text_lower : str) (skills : list Skill)
         (matches : list SkillMatch) (seen : list str)
  : list SkillMatch * list str :=
  match skills with
  | [] => (matches, seen)
  | skill :: rest =>
    let key := lower (name skill) in
    if mem key seen then loop text text_lower rest matches seen
    else match first_found text_lower skill with
         | Some variant =>
           let context := ExactMatcher._extract_context text variant in
           loop text text_lower rest
                (matches ++ [mkSkillMatch skill "variant" 0.98%float context])
                (key :: seen)
         | None => loop text text_lower rest matches seen
         end
  end.

Definition find_matches : SkillMatcher := fun text taxonomy seen =>
  Ok (loop text (lower text) (get_all_skills taxonomy) [] seen).

End VariantMatcher.

Module FuzzyMatcher.

Section Globals.
  (** What evaluating [fuzz.ratio(token, candidate)] does in the namespace
      of the module. *)
Variable fuzz_ratio : str -> str -> result float.

  (** [self.threshold] *)
Variable threshold : float.

Definition is_token_char (c : ascii) : bool :=
    is_word c || is_code 43 c || is_code 35 c || is_code 46 c.

  (** The greedy [{4,}] gives characters back until [\b] holds: the
      largest [j <= k] with [4 <= j] and a word boundary after [j]
      characters. *)
Fixpoint longest_end (prev : option ascii) (t : str) (k : nat) : option nat :=
    match k with
    | 0 => None
    | S k' =>
      if (4 <=? k) && Re.boundary (Re.char_before prev t k) (nth_error t k)
      then Some k else longest_end prev t k'
    end.

  (** The pattern [\b[\w\+\#\.]{4,}\b] *)
Definition token : Re.matcher := fun prev t =>
    if Re.boundary prev (hd_error t)
    then longest_end prev t (run_len is_token_char t)
    else None.

  (** [for token in tokens] up to its [break]: the first token whose ratio
      to the candidate reaches the threshold, with that ratio. *)
Fixpoint first_token (candidate : str) (tokens : list str)
    : result (option (str * float)) :=
    match tokens with
    | [] => Ok None
    | token :: rest =>
      similarity <- fuzz_ratio token candidate ;;
      if Py.geb similarity threshold then Ok (Some (token, similarity))
      else first_token candidate rest
    end.

  (** [for candidate in candidates] up to its [break]. *)
Fixpoint first_candidate (candidates tokens : list str)
    : result (option (str * float)) :=
    match candidates with
    | [] => Ok None
    | candidate :: rest =>
      hit <- first_token candidate tokens ;;
      match hit with
      | Some _ => Ok hit
      | None => first_candidate rest tokens
      end
    end.

Fixpoint loop (text : str) (tokens : list str) (skills : list Skill)
           (matches : list SkillMatch) (seen : list str)
    : result (list SkillMatch * list str) :=
    match skills with
    | [] => Ok (matches, seen)
    | skill :: rest =>
      let key := lower (name skill) in
      if mem key seen || strict_match skill
      then loop text tokens rest matches seen
      else
        let candidates := lower (name skill) :: variants skill in
        hit <- first_candidate candidates tokens ;;
        match hit with
        | Some (token, similarity) =>
          let context := ExactMatcher._extract_context text token in
          loop text tokens rest
               (matches ++ [mkSkillMatch skill "fuzzy" (similarity / 100)%float context])
               (key :: seen)
        | None => loop text tokens rest matches seen
        end
    end.

Definition find_matches : SkillMatcher := fun text taxonomy seen =>
    let tokens := Re.findall token (lower text) in
    loop text tokens (get_all_skills taxonomy) [] seen.
End Globals.

End FuzzyMatcher.

Module SkillExtractor.

Section Globals.
Variable fuzz_ratio : str -> str -> result float.

  (** [self.matchers]; [FuzzyMatcher()] takes the default threshold 88. *)
Definition matchers : list SkillMatcher := [
    ExactMatcher.find_matches;
    VariantMatcher.find_matches;
    FuzzyMatcher.find_matches fuzz_ratio 88%float
  ].

  (** [for matcher in self.matchers: matches.extend(...)] *)
Fixpoint run (ms : list SkillMatcher) (text : str) (taxonomy : SkillTaxonomy)
           (matches : list SkillMatch) (seen : list str)
    : result (list SkillMatch) :=
    match ms with
    | [] => Ok matches
    | matcher :: rest =>
      '(found, seen') <- matcher text taxonomy seen ;;
      run rest text taxonomy (matches ++ found) seen'
    end.

Definition extract_skills_in (taxonomy : SkillTaxonomy) (text : str)
    : result (list SkillMatch) :=
    match text with
    | [] => Ok []
    | _ =>
      matches <- run matchers text taxonomy [] [] ;;
      Ok (Py.sorted_desc confidence matches)
    end.
End Globals.

(** [skills.py] imports [re], [ABC], [abstractmethod], [List], [Set],
    [dataclass], [SequenceMatcher], [Skill] and [SkillTaxonomy] and defines
    no [fuzz]: evaluating [fuzz.ratio(...)] raises [NameError]. *)
Definition fuzz_ratio : str -> str -> result float :=
  fun _ _ => Raise (NameError "fuzz").

(** [SkillExtractor().extract_skills(text)] *)
Definition extract_skills (text : str) : result (list SkillMatch) :=
  extract_skills_in fuzz_ratio new_SkillTaxonomy text.

End SkillExtractor.

(* ================================================================== *)
(** * core/gap_analysis.py *)

Module SkillGap.
Record t : Type := mk {
    skill_match : SkillMatch;
    priority : Priority;
    impact_score : float
  }.

Definition skill_name (self : t) : str := name (skill (skill_match self)).
Definition category (self : t) : SkillCategory :=
    Config.category (skill (skill_match self)).
End SkillGap.

Module CategoryAnalysis.
Record t : Type := mk {
    category : SkillCategory;
    coverage : float;
    matched_count : nat;
    weak_count : nat;
    missing_count : nat
  }.
End CategoryAnalysis.

Module Recommendation.
Record t : Type := mk {
    priority : str;
    title : str;
    description : str;
    action : str
  }.
End Recommendation.

Module GapAnalysisReport.
Record t : Type := mk {
    overall_score : float;
    confidence_score : float;
    matched_skills : list SkillMatch;
    missing_skills : list SkillGap.t;
    weak_matches : list SkillMatch;
    category_analysis : list (SkillCategory * CategoryAnalysis.t);
    recommendations : list Recommendation.t
  }.
End GapAnalysisReport.

Module GapAnalyzer.

Local Open Scope float_scope.

(** [{m.skill.name.lower(): m for m in skills}] *)
Definition index (skills : list SkillMatch) : Dict.t SkillMatch :=
  fold_left (fun d m => Dict.set (lower (name (skill m))) m d) skills [].

(** [a & b] and [a - b] on sets of keys. *)
Definition inter (a b : list str) : list str := filter (fun k => mem k b) a.
Definition diff (a b : list str) : list str := filter (fun k => negb (mem k b)) a.

(** The set built from a list of categories. *)
Fixpoint set_of (l : list SkillCategory) : list SkillCategory :=
  match l with
  | [] => []
  | c :: l' => if existsb (category_eqb c) l' then set_of l' else c :: set_of l'
  end.

Definition _compute_impact (m : SkillMatch) : float :=
  let skill_weight := weight (skill m) in
  let category_weight := weights_get CATEGORY_WEIGHTS (category (skill m)) 1.0 in
  Py.min ((skill_weight * category_weight) / 1.5) 1.0.

Definition _determine_priority (impact : float) : Priority :=
  if Py.geb impact 0.8 then CRITICAL
  else if Py.geb impact 0.6 then HIGH
  else if Py.geb impact 0.4 then MEDIUM
  else LOW.

Definition _compute_overall_score (matched weak : list SkillMatch)
           (jd_keys : list str) : float :=
  match jd_keys with
  | [] => 0.0
  | _ => (Py.float_of_nat (length matched) + 0.5 * Py.float_of_nat (length weak))
         / Py.float_of_nat (length jd_keys)
  end.

Section Runtime.
  (** The order in which Python iterates a set of keys, a set of
      categories; and the builtin [sum] on floats (left to right addition
      before Python 3.12, compensated summation since). *)
Variable iter_keys : list str -> list str.
Variable iter_categories : list SkillCategory -> list SkillCategory.
Variable sum : list float -> float.

Definition _classify_matched (keys : list str) (resume_map : Dict.t SkillMatch)
    : list SkillMatch * list SkillMatch :=
    fold_left
      (fun '(strong, weak) key =>
         match Dict.get key resume_map with
         | None => (strong, weak)
         | Some m =>
           if Py.geb (confidence m) 0.9 then (strong ++ [m], weak)
           else (strong, weak ++ [m])
         end)
      (iter_keys keys) ([], []).

Definition _analyze_missing (keys : list str) (jd_map : Dict.t SkillMatch)
    : list SkillGap.t :=
    let gaps :=
      fold_left
        (fun gaps key =>
           match Dict.get key jd_map with
           | None => gaps
           | Some m =>
             let impact := _compute_impact m in
             let priority := _determine_priority impact in
             gaps ++ [SkillGap.mk m priority impact]
           end)
        (iter_keys keys) [] in
    Py.sorted_desc SkillGap.impact_score gaps.

Definition _analyze_categories (matched weak : list SkillMatch)
             (missing : list SkillGap.t)
    : list (SkillCategory * CategoryAnalysis.t) :=
    let all_categories :=
      set_of (map (fun m => category (skill m)) (matched ++ weak)
              ++ map SkillGap.category missing) in
    map
      (fun cat =>
         let cat_matched :=
           filter (fun m => category_eqb (category (skill m)) cat) matched in
         let cat_weak :=
           filter (fun m => category_eqb (category (skill m)) cat) weak in
         let cat_missing :=
           filter (fun g => category_eqb (SkillGap.category g) cat) missing in
         let total :=
           (length cat_matched + length cat_weak + length cat_missing)%nat in
         let coverage :=
           if (0 <? total)%nat
           then (Py.float_of_nat (length cat_matched)
                 + 0.5 * Py.float_of_nat (length cat_weak))
                / Py.float_of_nat total
           else 0 in
         (cat, CategoryAnalysis.mk cat coverage (length cat_matched)
                                   (length cat_weak) (length cat_missing)))
      (iter_categories all_categories).

Definition _compute_confidence_score (matched weak : list SkillMatch) : float :=
    match matched, weak with
    | [], [] => 0.0
    | _, _ =>
      let total_weighted :=
        sum (map (fun m => confidence m * weight (skill m)) (matched ++ weak)) in
      let total_weights :=
        sum (map (fun m => weight (skill m)) (matched ++ weak)) in
      if total_weights =? 0 then 0.0 else total_weighted / total_weights
    end.

Definition _generate_recommendations (missing : list SkillGap.t)
             (weak : list SkillMatch)
             (categories : list (SkillCategory * CategoryAnalysis.t))
    : list Recommendation.t :=
    let recs := [] in
    let critical :=
      filter (fun g => priority_eqb (SkillGap.priority g) CRITICAL) missing in
    let recs :=
      match critical with
      | [] => recs
      | first :: _ =>
        let skills := join (txt ", ") (map SkillGap.skill_name (firstn 3 critical)) in
        recs ++ [Recommendation.mk
                   (txt "Critical")
                   (txt "Add Critical Skills")
                   (txt "Missing essential skills: " ++ skills)
                   (txt "Gain experience with " ++ SkillGap.skill_name first)]
      end in
    let high :=
      filter (fun g => priority_eqb (SkillGap.priority g) HIGH) missing in
    let recs :=
      match high with
      | [] => recs
      | first :: _ =>
        let skills := join (txt ", ") (map SkillGap.skill_name (firstn 3 high)) in
        recs ++ [Recommendation.mk
                   (txt "High")
                   (txt "Strengthen Core Skills")
                   (txt "Important skills missing: " ++ skills)
                   (txt "Build projects using " ++ SkillGap.skill_name first)]
      end in
    let recs :=
      match weak with
      | [] => recs
      | _ :: _ =>
        let skills :=
          join (txt ", ") (map (fun m => name (skill m)) (firstn 3 weak)) in
        recs ++ [Recommendation.mk
                   (txt "Medium")
                   (txt "Strengthen Weak Matches")
                   (txt "Low-confidence matches: " ++ skills)
                   (txt "Add concrete examples and metrics")]
      end in
    let low_coverage :=
      filter (fun c => CategoryAnalysis.coverage c <? 0.5)
             (map snd categories) in
    let recs :=
      match low_coverage with
      | [] => recs
      | first :: _ =>
        let cat := value (CategoryAnalysis.category first) in
        recs ++ [Recommendation.mk
                   (txt "Medium")
                   (txt "Improve Category Coverage")
                   (txt "Low coverage in " ++ cat)
                   (txt "Focus learning in " ++ cat ++ txt " technologies")]
      end in
    firstn 5 recs.

Definition analyze (resume_skills jd_skills : list SkillMatch)
    : GapAnalysisReport.t :=
    let resume_map := index resume_skills in
    let jd_map := index jd_skills in
    let resume_keys := Dict.keys resume_map in
    let jd_keys := Dict.keys jd_map in
    let matched_keys := inter resume_keys jd_keys in
    let missing_keys := diff jd_keys resume_keys in
    let '(matched, weak) := _classify_matched matched_keys resume_map in
    let missing := _analyze_missing missing_keys jd_map in
    let category_analysis := _analyze_categories matched weak missing in
    let recommendations :=
      _generate_recommendations missing weak category_analysis in
    let overall := _compute_overall_score matched weak jd_keys in
    let confidence := _compute_confidence_score matched weak in
    GapAnalysisReport.mk overall confidence matched missing weak
                         category_analysis recommendations.
End Runtime.

End GapAnalyzer.

(* ================================================================== *)
(** * core/preprocessing.py *)

Module TextPreprocessor.

(** [unicodedata.normalize("NFKD", c).encode("ascii", "ignore")] for one
    code point: the ASCII characters of its compatibility decomposition. *)
Definition nfkd_ascii (c : ascii) : str :=
  let n := code c in
  if n <? 128 then [c]
  else if (n =? 160) || (n =? 168) || (n =? 175) || (n =? 180) || (n =? 184)
  then txt " "
  else if n =? 170 then txt "a"
  else if n =? 178 then txt "2"
  else if n =? 179 then txt "3"
  else if n =? 185 then txt "1"
  else if n =? 186 then txt "o"
  else if n =? 188 then txt "14"
  else if n =? 189 then txt "12"
  else if n =? 190 then txt "34"
  else if between 192 197 c then txt "A"
  else if n =? 199 then txt "C"
  else if between 200 203 c then txt "E"
  else if between 204 207 c then txt "I"
  else if n =? 209 then txt "N"
  else if between 210 214 c then txt "O"
  else if between 217 220 c then txt "U"
  else if n =? 221 then txt "Y"
  else if between 224 229 c then txt "a"
  else if n =? 231 then txt "c"
  else if between 232 235 c then txt "e"
  else if between 236 239 c then txt "i"
  else if n =? 241 then txt "n"
  else if between 242 246 c then txt "o"
  else if between 249 252 c then txt "u"
  else if (n =? 253) || (n =? 255) then txt "y"
  else [].

Definition non_space (c : ascii) : bool := negb (is_space c).

(** [http\S+|www\.\S+] *)
Definition url : Re.matcher := fun _ t =>
  let rest := run_len non_space (skipn 4 t) in
  if (starts_with (txt "http") t || starts_with (txt "www.") t) && (0 <? rest)
  then Some (4 + rest) else None.

(** [\S+@\S+].  The first [\S+] takes the whole run of non-space
    characters and gives characters back until an [@] follows that is
    itself followed by a non-space character; the last [\S+] then runs to
    the end of the run.  So the match, when there is one, is the run, and
    there is one when an [@] stands at an index [j] of the run with
    [1 <= j] and [j + 2 <= n]. *)
Definition email : Re.matcher := fun _ t =>
  let n := run_len non_space t in
  if existsb (is_code 64) (slice t 1 (n - 1)) then Some n else None.

(** An optional single character of class [P]: how many characters it
    takes.  Each optional item of the phone pattern is followed by a digit
    and is not a digit itself, so taking it when it is there is the only
    way to match. *)
Definition optional (P : ascii -> bool) (t : str) : nat :=
  match t with
  | c :: _ => if P c then 1 else 0
  | [] => 0
  end.

(** [\d{k}] at the head of [t]. *)
Definition digits (k : nat) (t : str) : bool :=
  (k <=? length t) && forallb is_digit (firstn k t).

Definition is_separator (c : ascii) : bool :=
  is_code 45 c || is_code 46 c || is_space c.

(** [\(?\d{3}\)?[-.\s]?\d{3}[-.\s]?\d{4}] *)
Definition phone : Re.matcher := fun _ t =>
  let a := optional (is_code 40) t in
  let t1 := skipn a t in
  if digits 3 t1 then
    let t2 := skipn 3 t1 in
    let b := optional (is_code 41) t2 in
    let t3 := skipn b t2 in
    let c := optional is_separator t3 in
    let t4 := skipn c t3 in
    if digits 3 t4 then
      let t5 := skipn 3 t4 in
      let d := optional is_separator t5 in
      let t6 := skipn d t5 in
      if digits 4 t6 then Some (a + 3 + b + c + 3 + d + 4) else None
    else None
  else None.

Definition keep (c : ascii) : bool :=
  is_word c || is_space c
  || is_code 43 c || is_code 35 c || is_code 46 c || is_code 45 c.

(** [[^\w\s\+\#\.\-]] *)
Definition symbol : Re.matcher := fun _ t =>
  match t with
  | c :: _ => if keep c then None else Some 1
  | [] => None
  end.

(** [\s+] *)
Definition spaces : Re.matcher := fun _ t =>
  match run_len is_space t with
  | 0 => None
  | n => Some n
  end.

(** Each entry [p] stands for the pattern [\b p \b] with the literal [p]
    escaped, as the class attribute spells it. *)
Definition TECHNICAL_PATTERNS : list str := [
  txt "c++";
  txt "c#";
  txt ".net";
  txt "ios";
  txt "javascript";
  txt "typescript";
  txt "node.js"
].

(** The body of [for pattern in self.TECHNICAL_PATTERNS]. *)
Definition reinforce (text pattern : str) : str :=
  let matches := Re.findall (Re.word_literal_ci pattern) text in
  fold_left
    (fun text m =>
       let safe := lower m in
       Re.sub (Re.word_literal_ci safe) safe text)
    matches text.

Definition process (text : str) : str :=
  match text with
  | [] => []
  | _ =>
    let text := flat_map nfkd_ascii text in
    let text := Re.sub url (txt " ") text in
    let text := Re.sub email (txt " ") text in
    let text := Re.sub phone (txt " ") text in
    let text := lower text in
    let text := Re.sub symbol (txt " ") text in
    let text := strip (Re.sub spaces (txt " ") text) in
    fold_left reinforce TECHNICAL_PATTERNS text
  end.

End TextPreprocessor.

(* ================================================================== *)
(** * core/similarity.py *)

Module SimilarityResult.
Record t : Type := mk {
    overall_score : float;
    interpretation : str;
    top_matching_terms : list (str * float);
    resume_unique_terms : list str;
    jd_unique_terms : list str;
    jaccard_similarity : float;
    term_coverage : float
  }.
End SimilarityResult.

Module SimilarityEngine.

Local Open Scope float_scope.

(** What [TfidfVectorizer(...).fit_transform([resume_text, jd_text])] of
    scikit-learn yields: a [ValueError] when no term is left in the
    vocabulary, or else the two rows of the matrix (as dense vectors) with
    the feature names. *)
Inductive vectorized : Type :=
| NoTerms (msg : string)
| Rows (resume_vec jd_vec : list float) (feature_names : list str).

(** [vec.nnz]; a row of the matrix stores its nonzero weights only. *)
Definition nnz (vec : list float) : nat :=
  length (filter (fun x => negb (x =? 0)) vec).

(** [np.minimum] on two numbers. *)
Definition minimum (a b : float) : float :=
  if PrimFloat.is_nan a then a
  else if PrimFloat.is_nan b then b
  else if a <? b then a else b.

Fixpoint zip_with (f : float -> float -> float) (a b : list float) : list float :=
  match a, b with
  | x :: a', y :: b' => f x y :: zip_with f a' b'
  | _, _ => []
  end.

(** [a[-n:]] *)
Definition last_n (A : Type) (n : nat) (a : list A) : list A :=
  skipn (length a - n) a.

(** [np.where(mask)[0]] for the mask [test i x] over the entries of [v]. *)
Fixpoint where_from (test : nat -> float -> bool) (i : nat) (v : list float)
  : list nat :=
  match v with
  | [] => []
  | x :: v' =>
    if test i x then i :: where_from test (S i) v' else where_from test (S i) v'
  end.

Definition positive_indices (v : list float) : list nat :=
  where_from (fun _ x => 0 <? x) 0 v.

Definition _interpret (score : float) : str :=
  if Py.geb score 0.75 then txt "Strong match"
  else if Py.geb score 0.60 then txt "Good match"
  else if Py.geb score 0.45 then txt "Moderate match"
  else if Py.geb score 0.30 then txt "Weak match"
  else txt "Poor match".

Definition _jaccard_overlap (vec1 vec2 : list float) : float :=
  let s1 := positive_indices vec1 in
  let s2 := positive_indices vec2 in
  let both := filter (fun i => existsb (Nat.eqb i) s2) s1 in
  let union := s1 ++ filter (fun i => negb (existsb (Nat.eqb i) s1)) s2 in
  match union with
  | [] => 0.0
  | _ => Py.float_of_nat (length both) / Py.float_of_nat (length union)
  end.

Definition _jd_coverage (resume_vec jd_vec : list float) : float :=
  let resume_terms := positive_indices resume_vec in
  let jd_terms := positive_indices jd_vec in
  let both := filter (fun i => existsb (Nat.eqb i) jd_terms) resume_terms in
  Py.float_of_nat (length both) / Py.float_of_nat (Nat.max (length jd_terms) 1).

Section Libraries.
Variable fit_transform : str -> str -> vectorized.
  (** [cosine_similarity(u, v)[0][0]] of scikit-learn. *)
Variable cosine_similarity : list float -> list float -> float.
  (** [np.argsort]: the order among equal entries is not specified. *)
Variable argsort : list float -> list nat.

Definition _top_matching_terms (resume_vec jd_vec : list float)
             (features : list str) : list (str * float) :=
    let n := 10%nat in
    let overlap := zip_with minimum resume_vec jd_vec in
    let top_idx := rev (last_n n (argsort overlap)) in
    map (fun i => (nth i features [], nth i overlap 0))
        (filter (fun i => 0 <? nth i overlap 0) top_idx).

Definition _unique_terms (doc_vec other_vec : list float)
             (features : list str) : list str :=
    let n := 10%nat in
    let threshold := 0.1 in
    let idx :=
      where_from (fun i x => (threshold <? x) && (nth i other_vec 0 <? threshold / 2))
                 0 doc_vec in
    match idx with
    | [] => []
    | _ =>
      let picked := map (fun i => nth i doc_vec 0) idx in
      let sorted_idx :=
        firstn n (map (fun j => nth j idx 0%nat) (rev (argsort picked))) in
      map (fun i => nth i features []) sorted_idx
    end.

Definition compute_similarity (resume_text jd_text : str)
    : result SimilarityResult.t :=
    match resume_text, jd_text with
    | [], _ | _, [] =>
      Raise (ValueError "Both resume and job description text are required")
    | _, _ =>
      match fit_transform resume_text jd_text with
      | NoTerms msg => Raise (ValueError msg)
      | Rows resume_vec jd_vec feature_names =>
        if (nnz resume_vec =? 0)%nat || (nnz jd_vec =? 0)%nat
        then Raise (ValueError "Insufficient textual content for similarity analysis")
        else
          let score := cosine_similarity resume_vec jd_vec in
          Ok (SimilarityResult.mk
                score
                (_interpret score)
                (_top_matching_terms resume_vec jd_vec feature_names)
                (_unique_terms resume_vec jd_vec feature_names)
                (_unique_terms jd_vec resume_vec feature_names)
                (_jaccard_overlap resume_vec jd_vec)
                (_jd_coverage resume_vec jd_vec))
      end
    end.
End Libraries.

End SimilarityEngine.

(* ================================================================== *)
(** * Vocabulary of the statements *)

(** Invariant of the dictionary [_skills]: keys are distinct and every
    skill is stored under its lowercased name. *)
Definition skills_wf (d : Dict.t Skill) : Prop :=
  NoDup (Dict.keys d) /\ Forall (fun kv => fst kv = lower (name (snd kv))) d.

(** The key under which a match is recorded in [seen]. *)
Definition key_of (m : SkillMatch) : str := lower (name (skill m)).

(** The skeleton the three matchers share: visit the skills in order,
    pass over those whose key is in [seen], and record what the attempt on
    a skill yields. *)
Section Cascade.
Variable attempt : Skill -> result (option SkillMatch).

Fixpoint cascade (skills : list Skill) (matches : list SkillMatch)
         (seen : list str) : result (list SkillMatch * list str) :=
  match skills with
  | [] => Ok (matches, seen)
  | sk :: rest =>
    if mem (lower (name sk)) seen then cascade rest matches seen
    else
      hit <- attempt sk ;;
      match hit with
      | Some m => cascade rest (matches ++ [m]) (lower (name sk) :: seen)
      | None => cascade rest matches seen
      end
  end.
End Cascade.

(** What each matcher does with one skill it has not seen. *)
Definition exact_attempt (text : str) (sk : Skill) : result (option SkillMatch) :=
  Ok (if ExactMatcher.found (lower text) sk
      then Some (mkSkillMatch sk "exact" 1.0%float
                              (ExactMatcher._extract_context text (name sk)))
      else None).

Definition variant_attempt (text : str) (sk : Skill) : result (option SkillMatch) :=
  Ok (match VariantMatcher.first_found (lower text) sk with
      | Some v => Some (mkSkillMatch sk "variant" 0.98%float
                                     (ExactMatcher._extract_context text v))
      | None => None
      end).

Definition fuzzy_attempt (fuzz_ratio : str -> str -> result float)
           (threshold : float) (text : str) (tokens : list str) (sk : Skill)
  : result (option SkillMatch) :=
  if strict_match sk then Ok None
  else
    hit <- FuzzyMatcher.first_candidate fuzz_ratio threshold
             (lower (name sk) :: variants sk) tokens ;;
    Ok (match hit with
        | Some (token, similarity) =>
          Some (mkSkillMatch sk "fuzzy" (similarity / 100)%float
                             (ExactMatcher._extract_context text token))
        | None => None
        end).

(** The strategy that reports a match, read off the text alone: the first
    of exact, variant, fuzzy that applies to the skill. *)
Definition earliest (text : str) (m : SkillMatch) : Prop :=
  if ExactMatcher.found (lower text) (skill m)
  then match_type m = "exact"%string /\ confidence m = 1.0%float
  else match VariantMatcher.first_found (lower text) (skill m) with
       | Some _ => match_type m = "variant"%string /\ confidence m = 0.98%float
       | None => match_type m = "fuzzy"%string /\ strict_match (skill m) = false
       end.

(** A taxonomy skill that the exact or the variant strategy finds in the
    text. *)
Definition matchable (text : str) (sk : Skill) : bool :=
  ExactMatcher.found (lower text) sk
  || match VariantMatcher.first_found (lower text) sk with
     | Some _ => true
     | None => false
     end.

(** The set [seen] as the exact, then the variant matcher leave it. *)
Definition seen_after_exact (taxonomy : SkillTaxonomy) (text : str) : list str :=
  snd (ExactMatcher.loop text (lower text) (get_all_skills taxonomy) [] []).

Definition seen_after_variant (taxonomy : SkillTaxonomy) (text : str) : list str :=
  snd (VariantMatcher.loop text (lower text) (get_all_skills taxonomy) []
                           (seen_after_exact taxonomy text)).

(** A match for the skill called [n] of the given type and confidence. *)
Definition reports (ms : list SkillMatch) (n : string) (type : string)
           (conf : float) : Prop :=
  exists m, In m ms /\ name (skill m) = txt n
            /\ match_type m = type /\ confidence m = conf.

(** What one key adds to the strong matches, to the weak matches and to
    the gaps. *)
Definition strong_step (resume_map : Dict.t SkillMatch) (k : str)
  : list SkillMatch :=
  match Dict.get k resume_map with
  | Some m => if PrimFloat.leb 0.9 (confidence m) then [m] else []
  | None => []
  end.

Definition weak_step (resume_map : Dict.t SkillMatch) (k : str)
  : list SkillMatch :=
  match Dict.get k resume_map with
  | Some m => if PrimFloat.leb 0.9 (confidence m) then [] else [m]
  | None => []
  end.

Definition gap_step (jd_map : Dict.t SkillMatch) (k : str) : list SkillGap.t :=
  match Dict.get k jd_map with
  | Some m =>
    [SkillGap.mk m (GapAnalyzer._determine_priority (GapAnalyzer._compute_impact m))
                 (GapAnalyzer._compute_impact m)]
  | None => []
  end.

(** Strong and weak matches among a list of keys, read off the resume
    map: confidence at least 0.9, and confidence below 0.9. *)
Definition strong_of (resume_map : Dict.t SkillMatch) (keys : list str)
  : list SkillMatch :=
  flat_map (strong_step resume_map) keys.

Definition weak_of (resume_map : Dict.t SkillMatch) (keys : list str)
  : list SkillMatch :=
  flat_map (fun k => match Dict.get k resume_map with
                     | Some m => if PrimFloat.ltb (confidence m) 0.9 then [m] else []
                     | None => []
                     end) keys.

(** The fixed weight of each category. *)
Definition category_weight (c : SkillCategory) : float :=
  match c with
  | FUNDAMENTALS => 1.3
  | LANGUAGES => 1.2
  | FRAMEWORKS | ML | CLOUD => 1.0
  | DEVOPS | DATABASES => 0.9
  end%float.

(** Priority bands of an impact score. *)
Definition band (impact : float) : Priority :=
  if PrimFloat.leb 0.8 impact then CRITICAL
  else if PrimFloat.leb 0.6 impact then HIGH
  else if PrimFloat.leb 0.4 impact then MEDIUM
  else LOW.

(** Descending order of impact. *)
Definition by_impact_desc (a b : SkillGap.t) : Prop :=
  PrimFloat.leb (SkillGap.impact_score b) (SkillGap.impact_score a) = true.

(** A match, with the given confidence, for the taxonomy skill called [n]
    (no match when the taxonomy has no such skill). *)
Definition match_of (n : string) (conf : float) : list SkillMatch :=
  match List.find (fun s => Str.eqb (name s) (txt n))
                  (get_all_skills new_SkillTaxonomy) with
  | Some s => [mkSkillMatch s "exact" conf []]
  | None => []
  end.

(** The two texts leave no usable vocabulary: the vectorizer found no
    term at all, or one of the two rows is all zero. *)
Definition zero_vocabulary (v : SimilarityEngine.vectorized) : Prop :=
  match v with
  | SimilarityEngine.NoTerms _ => True
  | SimilarityEngine.Rows resume_vec jd_vec _ =>
    SimilarityEngine.nnz resume_vec = 0 \/ SimilarityEngine.nnz jd_vec = 0
  end.

(** [re.sub(r"\s+", " ", t)] seen from inside a run of whitespace
    ([in_run]) or from outside. *)
Fixpoint squeeze (in_run : bool) (t : str) : str :=
  match t with
  | [] => []
  | c :: t' =>
    if is_space c
    then if in_run then squeeze true t' else " "%char :: squeeze true t'
    else c :: squeeze false t'
  end.

(** The characters a normalized text is made of: ASCII, not upper case,
    kept by the symbol filter, and no whitespace except the space. *)
Definition clean_char (c : ascii) : bool :=
  (code c <? 128) && negb (is_upper c) && TextPreprocessor.keep c
  && (negb (is_space c) || is_code 32 c).

(** No two neighbouring whitespace characters. *)
Fixpoint no_double (t : str) : Prop :=
  match t with
  | c :: (d :: _) as t' => is_space c && is_space d = false /\ no_double t'
  | _ => True
  end.

(** The shape of every output of [process]. *)
Definition normalized (t : str) : Prop :=
  Forall (fun c => clean_char c = true) t /\ no_double t /\ strip t = t.

(** The last element of [l] that satisfies [p]. *)
Definition last_with (A : Type) (p : A -> bool) (l : list A) : option A :=
  List.find p (rev l).

(** What a matcher whose attempt on a skill is [f] reports on a list of
    skills, given the set [seen] it starts from. *)
Definition picks (f : Skill -> option SkillMatch) (seen : list str)
           (skills : list Skill) : list SkillMatch :=
  flat_map (fun sk => if mem (lower (name sk)) seen then []
                      else match f sk with
                           | Some m => [m]
                           | None => []
                           end) skills.

(** Descending order of confidence. *)
Definition by_confidence_desc (a b : SkillMatch) : Prop :=
  PrimFloat.leb (confidence b) (confidence a) = true.

(** The characters [process] lets through: lowercase ASCII letters,
    digits, the underscore, [+], [#], [.], [-] and the space. *)
Definition output_char (c : ascii) : bool :=
  between 97 122 c || between 48 57 c || is_code 95 c
  || is_code 43 c || is_code 35 c || is_code 46 c || is_code 45 c
  || is_code 32 c.

(* ================================================================== *)
(** * Facts about strings and dictionaries *)

Section StrFacts.

Lemma eqb_eq (s t : str) : Str.eqb s t = true <-> s = t.
Proof.
    revert t; induction s as [|a s IH]; intros [|b t]; simpl;
      try (split; congruence).
    rewrite andb_true_iff, Ascii.eqb_eq, IH.
    split; [intros [-> ->]; reflexivity | intros H; inversion H; auto].
Qed.

Lemma eqb_refl (s : str) : Str.eqb s s = true.
Proof. apply eqb_eq; reflexivity. Qed.

Lemma eqb_neq (s t : str) : Str.eqb s t = false <-> s <> t.
Proof.
    rewrite <- eqb_eq. destruct (Str.eqb s t); split; congruence.
Qed.

Lemma eqb_sym (s t : str) : Str.eqb s t = Str.eqb t s.
Proof.
    destruct (Str.eqb s t) eqn:E.
    - apply eqb_eq in E; subst; symmetry; apply eqb_refl.
    - symmetry; apply eqb_neq; apply eqb_neq in E; congruence.
Qed.

Lemma mem_In (k : str) (l : list str) : mem k l = true <-> In k l.
Proof.
    unfold mem. rewrite existsb_exists. split.
    - intros (x & Hx & E). apply eqb_eq in E. subst; assumption.
    - intros H. exists k. split; [assumption | apply eqb_refl].
Qed.

Lemma mem_not_In (k : str) (l : list str) : mem k l = false <-> ~ In k l.
Proof.
    rewrite <- mem_In. destruct (mem k l); split; congruence.
Qed.

Lemma str_eq_dec (s t : str) : {s = t} + {s <> t}.
Proof. apply list_eq_dec, ascii_dec. Qed.

End StrFacts.

Section DictFacts.
Variable V : Type.
Implicit Types (d : Dict.t V) (k : str) (v : V).

Lemma get_set_same d k v : Dict.get k (Dict.set k v d) = Some v.
Proof.
    induction d as [|[k' v'] d IH]; simpl.
    - rewrite eqb_refl; reflexivity.
    - destruct (Str.eqb k' k) eqn:E; simpl; rewrite E; auto.
Qed.

Lemma get_set_other d k k' v :
    k <> k' -> Dict.get k' (Dict.set k v d) = Dict.get k' d.
Proof.
    intros Hne. induction d as [|[k0 v0] d IH]; simpl.
    - replace (Str.eqb k k') with false; [reflexivity|].
      symmetry; apply eqb_neq; assumption.
    - destruct (Str.eqb k0 k) eqn:E; simpl.
      + apply eqb_eq in E; subst k0.
        replace (Str.eqb k k') with false; [reflexivity|].
        symmetry; apply eqb_neq; assumption.
      + destruct (Str.eqb k0 k'); auto.
Qed.

Lemma keys_set d k v :
    Dict.keys (Dict.set k v d)
    = if mem k (Dict.keys d) then Dict.keys d else Dict.keys d ++ [k].
Proof.
    induction d as [|[k0 v0] d IH]; simpl; [reflexivity|].
    rewrite (eqb_sym k k0).
    destruct (Str.eqb k0 k) eqn:E; simpl; [reflexivity|].
    fold (Dict.keys d) in *. fold (mem k (Dict.keys d)).
    unfold Dict.keys in *. rewrite IH.
    destruct (mem k (map fst d)); reflexivity.
Qed.

Lemma keys_set_NoDup d k v :
    NoDup (Dict.keys d) -> NoDup (Dict.keys (Dict.set k v d)).
Proof.
    intros H. rewrite keys_set.
    destruct (mem k (Dict.keys d)) eqn:E; [assumption|].
    apply mem_not_In in E.
    apply NoDup_rev in H. rewrite <- (rev_involutive (_ ++ _)).
    apply NoDup_rev. rewrite rev_app_distr; simpl.
    constructor; [rewrite <- in_rev; assumption | assumption].
Qed.

Lemma get_In d k v : Dict.get k d = Some v -> In (k, v) d.
Proof.
    induction d as [|[k0 v0] d IH]; simpl; [discriminate|].
    destruct (Str.eqb k0 k) eqn:E.
    - apply eqb_eq in E; subst. intros [= ->]; left; reflexivity.
    - intros H; right; auto.
Qed.

Lemma In_get d k v :
    NoDup (Dict.keys d) -> In (k, v) d -> Dict.get k d = Some v.
Proof.
    induction d as [|[k0 v0] d IH]; simpl; [tauto|].
    intros Hnd [[= -> ->]|Hin].
    - rewrite eqb_refl; reflexivity.
    - inversion Hnd as [|? ? Hnotin Hnd']; subst.
      destruct (Str.eqb k0 k) eqn:E.
      + apply eqb_eq in E; subst k0. exfalso; apply Hnotin.
        change k with (fst (k, v)). apply in_map; assumption.
      + auto.
Qed.

Lemma get_None d k : Dict.get k d = None <-> ~ In k (Dict.keys d).
Proof.
    induction d as [|[k0 v0] d IH]; simpl; [tauto|].
    destruct (Str.eqb k0 k) eqn:E.
    - apply eqb_eq in E. split; [discriminate | intros H; exfalso; auto].
    - apply eqb_neq in E. rewrite IH. fold (Dict.keys d). tauto.
Qed.

End DictFacts.

(* ================================================================== *)
(** * The taxonomy *)

Section TaxonomyFacts.

Lemma fold_set_get (skill : Skill) (vs : list str) (index : Dict.t Skill) (v : str) :
  Dict.get v (fold_left (fun index variant => Dict.set variant skill index) vs index)
  = if mem v vs then Some skill else Dict.get v index.
Proof.
  revert index. induction vs as [|x vs IH]; intros index; simpl; [reflexivity|].
  rewrite IH. destruct (mem v vs) eqn:Hm.
  - rewrite orb_true_r; reflexivity.
  - rewrite orb_false_r. destruct (Str.eqb v x) eqn:E.
    + apply eqb_eq in E; subst. apply get_set_same.
    + apply get_set_other. apply eqb_neq in E; congruence.
Qed.

Lemma set_keyed (d : Dict.t Skill) (skill : Skill) :
  Forall (fun kv => fst kv = lower (name (snd kv))) d ->
  Forall (fun kv => fst kv = lower (name (snd kv)))
         (Dict.set (lower (name skill)) skill d).
Proof.
  induction 1 as [|[k v] d Hkv Hd IH]; simpl.
  - constructor; [reflexivity | constructor].
  - destruct (Str.eqb k (lower (name skill))) eqn:E.
    + apply eqb_eq in E. constructor; [assumption | assumption].
    + constructor; assumption.
Qed.

Lemma register_wf (self : SkillTaxonomy) (skill : Skill) :
  skills_wf (_skills self) -> skills_wf (_skills (_register self skill)).
Proof.
  intros [Hnd Hk]. split; simpl.
  - apply keys_set_NoDup; assumption.
  - apply set_keyed; assumption.
Qed.

Lemma load_wf (l : list Skill) (self : SkillTaxonomy) :
  skills_wf (_skills self) -> skills_wf (_skills (fold_left _register l self)).
Proof.
  revert self. induction l as [|s l IH]; intros self H; simpl; [assumption|].
  apply IH, register_wf, H.
Qed.

Lemma taxonomy_wf : skills_wf (_skills new_SkillTaxonomy).
Proof.
  apply load_wf. split; constructor.
Qed.

Lemma wf_keys (d : Dict.t Skill) :
  skills_wf d -> map (fun s => lower (name s)) (Dict.values d) = Dict.keys d.
Proof.
  intros [_ H]. induction H as [|[k v] d Hkv Hd IH]; simpl; [reflexivity|].
  simpl in Hkv. rewrite Hkv. f_equal. assumption.
Qed.

Lemma taxonomy_keys_NoDup :
  NoDup (map (fun s => lower (name s)) (get_all_skills new_SkillTaxonomy)).
Proof.
  unfold get_all_skills. rewrite wf_keys by apply taxonomy_wf.
  apply taxonomy_wf.
Qed.

End TaxonomyFacts.

(** C2 (as the code has it): registration cannot fail.  [_register] stores
    the skill under its lowercased name and binds every one of its
    variants to it, replacing whatever the name or the variant was bound
    to before and leaving all other bindings alone.  In the built-in
    taxonomy the variant "dsa" is listed by both Algorithms and Data
    Structures, and the index resolves it to the one registered last. *)
Theorem register_overwrites (self : SkillTaxonomy) (skill : Skill) (v k : str) :
  Dict.get (lower (name skill)) (_skills (_register self skill)) = Some skill
  /\ (In v (variants skill) ->
      Dict.get v (_variant_index (_register self skill)) = Some skill)
  /\ (~ In v (variants skill) ->
      Dict.get v (_variant_index (_register self skill))
      = Dict.get v (_variant_index self))
  /\ (k <> lower (name skill) ->
      Dict.get k (_skills (_register self skill)) = Dict.get k (_skills self))
  /\ option_map name (get_by_variant new_SkillTaxonomy (txt "dsa"))
     = Some (txt "Data Structures")
  /\ option_map variants (Dict.get (txt "algorithms") (_skills new_SkillTaxonomy))
     = Some [txt "algorithms"; txt "algo"; txt "dsa"].
Proof.
  split; [|split; [|split; [|split; [|split]]]].
  - apply get_set_same.
  - intros Hin. unfold _register; cbn [_variant_index].
    rewrite fold_set_get.
    apply mem_In in Hin. rewrite Hin. reflexivity.
  - intros Hnin. unfold _register; cbn [_variant_index].
    rewrite fold_set_get.
    apply mem_not_In in Hnin. rewrite Hnin. reflexivity.
  - intros Hne. apply get_set_other. congruence.
  - vm_compute. reflexivity.
  - vm_compute. reflexivity.
Qed.

Lemma register_overwrites_witness :
  let java := new_Skill "Java" LANGUAGES 1.2%float ["java"; "dsa"]%string false in
  In (txt "dsa") (variants java)
  /\ Dict.get (txt "dsa") (_variant_index (_register new_SkillTaxonomy java))
     = Some java.
Proof.
  intros java. split.
  - right; left; reflexivity.
  - apply (register_overwrites new_SkillTaxonomy java (txt "dsa") (txt "java")).
    right; left; reflexivity.
Defined.

(** C2 (as stated) fails: the constructed taxonomy holds two distinct
    skills that share the variant "dsa", so registering the second one did
    not fail. *)
Lemma taxonomy_shares_variant :
  exists s1 s2 : Skill,
    In s1 (get_all_skills new_SkillTaxonomy)
    /\ In s2 (get_all_skills new_SkillTaxonomy)
    /\ name s1 <> name s2
    /\ In (txt "dsa") (variants s1)
    /\ In (txt "dsa") (variants s2).
Proof.
  exists (new_Skill "Algorithms" FUNDAMENTALS 1.3%float
                    ["algorithms"; "algo"; "dsa"]%string false).
  exists (new_Skill "Data Structures" FUNDAMENTALS 1.3%float
                    ["data structures"; "dsa"]%string false).
  repeat split.
  - vm_compute. do 29 right. left. reflexivity.
  - vm_compute. do 30 right. left. reflexivity.
  - vm_compute. discriminate.
  - vm_compute. right; right; left; reflexivity.
  - vm_compute. right; left; reflexivity.
Qed.

(* ================================================================== *)
(** * The matchers as instances of one cascade *)

Section CascadeFacts.

Lemma exact_loop_cascade (text : str) (skills : list Skill)
      (ms : list SkillMatch) (seen : list str) :
  Ok (ExactMatcher.loop text (lower text) skills ms seen)
  = cascade (exact_attempt text) skills ms seen.
Proof.
  revert ms seen. induction skills as [|sk rest IH]; intros ms seen; simpl.
  - reflexivity.
  - destruct (mem (lower (name sk)) seen); [apply IH|].
    destruct (ExactMatcher.found (lower text) sk); apply IH.
Qed.

Lemma variant_loop_cascade (text : str) (skills : list Skill)
      (ms : list SkillMatch) (seen : list str) :
  Ok (VariantMatcher.loop text (lower text) skills ms seen)
  = cascade (variant_attempt text) skills ms seen.
Proof.
  revert ms seen. induction skills as [|sk rest IH]; intros ms seen; simpl.
  - reflexivity.
  - destruct (mem (lower (name sk)) seen); [apply IH|].
    destruct (VariantMatcher.first_found (lower text) sk); apply IH.
Qed.

Lemma cascade_cons (attempt : Skill -> result (option SkillMatch))
      (sk : Skill) (rest : list Skill) (ms : list SkillMatch) (seen : list str) :
  cascade attempt (sk :: rest) ms seen
  = if mem (lower (name sk)) seen then cascade attempt rest ms seen
    else hit <- attempt sk ;;
         match hit with
         | Some m => cascade attempt rest (ms ++ [m]) (lower (name sk) :: seen)
         | None => cascade attempt rest ms seen
         end.
Proof. reflexivity. Qed.

Lemma fuzzy_loop_cons (fuzz : str -> str -> result float) (th : float)
      (text : str) (tokens : list str) (sk : Skill) (rest : list Skill)
      (ms : list SkillMatch) (seen : list str) :
  FuzzyMatcher.loop fuzz th text tokens (sk :: rest) ms seen
  = if mem (lower (name sk)) seen || strict_match sk
    then FuzzyMatcher.loop fuzz th text tokens rest ms seen
    else
      hit <- FuzzyMatcher.first_candidate fuzz th
               (lower (name sk) :: variants sk) tokens ;;
      match hit with
      | Some (token, similarity) =>
        FuzzyMatcher.loop fuzz th text tokens rest
          (ms ++ [mkSkillMatch sk "fuzzy" (similarity / 100)%float
                               (ExactMatcher._extract_context text token)])
          (lower (name sk) :: seen)
      | None => FuzzyMatcher.loop fuzz th text tokens rest ms seen
      end.
Proof. reflexivity. Qed.

Lemma fuzzy_loop_cascade (fuzz : str -> str -> result float) (th : float)
      (text : str) (tokens : list str) (skills : list Skill)
      (ms : list SkillMatch) (seen : list str) :
  FuzzyMatcher.loop fuzz th text tokens skills ms seen
  = cascade (fuzzy_attempt fuzz th text tokens) skills ms seen.
Proof.
  revert ms seen. induction skills as [|sk rest IH]; intros ms seen.
  - reflexivity.
  - rewrite fuzzy_loop_cons, cascade_cons. unfold fuzzy_attempt at 2.
    destruct (mem (lower (name sk)) seen); cbn [orb]; [apply IH|].
    destruct (strict_match sk); [apply IH|].
    destruct (FuzzyMatcher.first_candidate fuzz th
                (lower (name sk) :: variants sk) tokens) as [[[tok sim]|]|e];
      cbn [bind]; auto.
Qed.

Variable attempt : Skill -> result (option SkillMatch).
Hypothesis attempt_skill :
  forall sk m, attempt sk = Ok (Some m) -> skill m = sk.

Lemma cascade_spec (skills : list Skill) :
  NoDup (map (fun s => lower (name s)) skills) ->
  forall ms seen ms' seen',
    cascade attempt skills ms seen = Ok (ms', seen') ->
    exists new,
      ms' = ms ++ new
      /\ (forall k, In k seen' <-> In k seen \/ In k (map key_of new))
      /\ NoDup (map key_of new)
      /\ (forall m, In m new ->
                    In (skill m) skills /\ ~ In (key_of m) seen
                    /\ attempt (skill m) = Ok (Some m))
      /\ (forall sk m, In sk skills -> ~ In (lower (name sk)) seen ->
                       attempt sk = Ok (Some m) -> In m new).
Proof.
  induction skills as [|sk rest IH]; intros Hnd ms seen ms' seen' H; simpl in H.
  - injection H as <- <-. exists []. rewrite app_nil_r. simpl.
    repeat split; try tauto; try constructor.
  - inversion Hnd as [|? ? Hfresh Hnd']; subst.
    destruct (mem (lower (name sk)) seen) eqn:Hseen.
    + destruct (IH Hnd' _ _ _ _ H) as (new & E & Hs & Hn & Hsound & Hcompl).
      exists new. repeat split; auto.
      * apply Hs. * apply Hs.
      * right; apply (Hsound m); assumption.
      * apply (Hsound m); assumption.
      * apply (Hsound m); assumption.
      * intros sk' m [<-|Hin] Hns Ha.
        -- apply mem_In in Hseen. contradiction.
        -- eapply Hcompl; eauto.
    + apply mem_not_In in Hseen.
      destruct (attempt sk) as [[m0|]|e] eqn:Ha; simpl in H; [| |discriminate].
      * destruct (IH Hnd' _ _ _ _ H) as (new & E & Hs & Hn & Hsound & Hcompl).
        pose proof (attempt_skill Ha) as Hm0.
        assert (Hk0 : key_of m0 = lower (name sk))
          by (unfold key_of; rewrite Hm0; reflexivity).
        exists (m0 :: new). repeat split.
        -- rewrite E, <- app_assoc. reflexivity.
        -- intros Hk. apply Hs in Hk. simpl in *. rewrite Hk0. tauto.
        -- intros Hk. apply Hs. simpl in *. rewrite Hk0 in Hk. tauto.
        -- simpl. constructor; [|assumption].
           rewrite Hk0. intros Hin. apply in_map_iff in Hin.
           destruct Hin as (m & Em & Hin).
           destruct (Hsound m Hin) as (_ & Hns & _).
           apply Hns. left. symmetry; assumption.
        -- destruct H0 as [<-|Hin]; [left; congruence|].
           right; apply (Hsound m Hin).
        -- destruct H0 as [<-|Hin]; [rewrite Hk0; assumption|].
           destruct (Hsound m Hin) as (_ & Hns & _).
           intros Hc; apply Hns; right; assumption.
        -- destruct H0 as [<-|Hin]; [congruence|]. apply (Hsound m Hin).
        -- intros sk' m [<-|Hin] Hns Ha'.
           ++ left. congruence.
           ++ right. eapply Hcompl; eauto.
              intros [Hc|Hc]; [|contradiction].
              apply Hfresh. rewrite Hc.
              apply (in_map (fun s => lower (name s))); assumption.
      * destruct (IH Hnd' _ _ _ _ H) as (new & E & Hs & Hn & Hsound & Hcompl).
        exists new. repeat split; auto.
        -- apply Hs. -- apply Hs.
        -- right; apply (Hsound m); assumption.
        -- apply (Hsound m); assumption.
        -- apply (Hsound m); assumption.
        -- intros sk' m [<-|Hin] Hns Ha'; [congruence|].
           eapply Hcompl; eauto.
Qed.

End CascadeFacts.

(* ================================================================== *)
(** * Sorting *)

Section SortFacts.
Variable A : Type.
Variable key : A -> float.

Lemma insert_desc_perm (x : A) (l : list A) :
  Permutation (Py.insert_desc key x l) (x :: l).
Proof.
  induction l as [|y l IH]; simpl; [reflexivity|].
  destruct (PrimFloat.ltb (key x) (key y)); [|reflexivity].
  rewrite IH. apply perm_swap.
Qed.

Lemma sorted_desc_perm (l : list A) : Permutation (Py.sorted_desc key l) l.
Proof.
  induction l as [|x l IH]; simpl; [reflexivity|].
  rewrite insert_desc_perm. constructor. assumption.
Qed.

Lemma sorted_desc_In (l : list A) (x : A) :
  In x (Py.sorted_desc key l) <-> In x l.
Proof.
  split; apply Permutation_in;
    [apply sorted_desc_perm | symmetry; apply sorted_desc_perm].
Qed.

End SortFacts.

(* ================================================================== *)
(** * The extractor *)

Section ExtractorFacts.

Variable fuzz : str -> str -> result float.

Let skills : list Skill := get_all_skills new_SkillTaxonomy.

Lemma exact_attempt_inv (text : str) (sk : Skill) (m : SkillMatch) :
  exact_attempt text sk = Ok (Some m) ->
  skill m = sk /\ ExactMatcher.found (lower text) sk = true
  /\ match_type m = "exact"%string /\ confidence m = 1.0%float.
Proof.
  unfold exact_attempt.
  destruct (ExactMatcher.found (lower text) sk); [|discriminate].
  intros [= <-]. auto.
Qed.

Lemma variant_attempt_inv (text : str) (sk : Skill) (m : SkillMatch) :
  variant_attempt text sk = Ok (Some m) ->
  skill m = sk
  /\ (exists v, VariantMatcher.first_found (lower text) sk = Some v)
  /\ match_type m = "variant"%string /\ confidence m = 0.98%float.
Proof.
  unfold variant_attempt.
  destruct (VariantMatcher.first_found (lower text) sk) as [v|]; [|discriminate].
  intros [= <-]. eauto.
Qed.

Lemma fuzzy_attempt_inv (th : float) (text : str) (tokens : list str)
      (sk : Skill) (m : SkillMatch) :
  fuzzy_attempt fuzz th text tokens sk = Ok (Some m) ->
  skill m = sk /\ strict_match sk = false /\ match_type m = "fuzzy"%string.
Proof.
  unfold fuzzy_attempt.
  destruct (strict_match sk); [discriminate|].
  destruct (FuzzyMatcher.first_candidate fuzz th _ tokens) as [[[tok sim]|]|e];
    cbn [bind]; try discriminate.
  intros [= <-]. auto.
Qed.

Lemma key_inj (l : list Skill) (a b : Skill) :
  NoDup (map (fun s => lower (name s)) l) ->
  In a l -> In b l -> lower (name a) = lower (name b) -> a = b.
Proof.
  induction l as [|x l IH]; simpl; [tauto|].
  intros Hnd Ha Hb E. inversion Hnd as [|? ? Hx Hnd']; subst.
  destruct Ha as [<-|Ha], Hb as [<-|Hb]; auto.
  - exfalso; apply Hx. rewrite E.
    apply (in_map (fun s => lower (name s))); assumption.
  - exfalso; apply Hx. rewrite <- E.
    apply (in_map (fun s => lower (name s))); assumption.
Qed.

(** The three stages behind a successful extraction. *)
Lemma extract_stages (text : str) (ms : list SkillMatch) :
  text <> [] ->
  SkillExtractor.extract_skills_in fuzz new_SkillTaxonomy text = Ok ms ->
  exists f1 s1 f2 s2 f3 s3,
    cascade (exact_attempt text) skills [] [] = Ok (f1, s1)
    /\ cascade (variant_attempt text) skills [] s1 = Ok (f2, s2)
    /\ cascade (fuzzy_attempt fuzz 88%float text
                  (Re.findall (FuzzyMatcher.token) (lower text)))
               skills [] s2 = Ok (f3, s3)
    /\ ms = Py.sorted_desc confidence (f1 ++ f2 ++ f3).
Proof.
  intros Hne H. unfold SkillExtractor.extract_skills_in in H.
  destruct text as [|c text]; [congruence|].
  set (t := c :: text) in *.
  cbn [SkillExtractor.run SkillExtractor.matchers] in H.
  unfold ExactMatcher.find_matches, VariantMatcher.find_matches,
    FuzzyMatcher.find_matches in H.
  cbn [bind] in H. fold skills in H.
  pose proof (exact_loop_cascade t skills [] []) as E1.
  destruct (ExactMatcher.loop t (lower t) skills [] []) as [f1 s1].
  pose proof (variant_loop_cascade t skills [] s1) as E2.
  destruct (VariantMatcher.loop t (lower t) skills [] s1) as [f2 s2].
  rewrite fuzzy_loop_cascade in H.
  destruct (cascade (fuzzy_attempt fuzz 88%float t _) skills [] s2)
    as [[f3 s3]|e] eqn:E3; cbn [bind] in H; [|discriminate].
  injection H as <-.
  exists f1, s1, f2, s2, f3, s3. repeat split; auto.
  simpl. rewrite <- app_assoc. reflexivity.
Qed.

Lemma nothing_in_empty_text :
  forallb (fun sk => negb (matchable [] sk)) skills = true.
Proof. vm_compute. reflexivity. Qed.

Lemma extract_spec (text : str) (ms : list SkillMatch) :
  SkillExtractor.extract_skills_in fuzz new_SkillTaxonomy text = Ok ms ->
  NoDup (map key_of ms)
  /\ (forall m, In m ms -> In (skill m) skills /\ earliest text m)
  /\ (forall sk, In sk skills -> matchable text sk = true ->
                 exists m, In m ms /\ skill m = sk).
Proof.
  intros H. destruct text as [|c text].
  { injection H as <-. split; [constructor|]. split; [intros m []|].
    intros sk Hin Hm. pose proof nothing_in_empty_text as Hall.
    rewrite forallb_forall in Hall. specialize (Hall sk Hin).
    change (@nil ascii) with (@nil ascii) in Hall.
    rewrite Hm in Hall. discriminate. }
  set (t := c :: text) in *.
  assert (Hne : t <> []) by discriminate.
  destruct (extract_stages Hne H) as (f1 & s1 & f2 & s2 & f3 & s3 & E1 & E2 & E3 & ->).
  pose proof taxonomy_keys_NoDup as Hnd. fold skills in Hnd.
  destruct (@cascade_spec (exact_attempt t)
              (fun sk m Ha => proj1 (exact_attempt_inv Ha))
              skills Hnd _ _ _ _ E1)
    as (n1 & N1 & S1 & D1 & Sound1 & Compl1).
  destruct (@cascade_spec (variant_attempt t)
              (fun sk m Ha => proj1 (variant_attempt_inv Ha))
              skills Hnd _ _ _ _ E2)
    as (n2 & N2 & S2 & D2 & Sound2 & Compl2).
  destruct (@cascade_spec
              (fuzzy_attempt fuzz 88%float t
                 (Re.findall FuzzyMatcher.token (lower t)))
              (fun sk m Ha => proj1 (@fuzzy_attempt_inv _ _ _ sk m Ha))
              skills Hnd _ _ _ _ E3)
    as (n3 & N3 & S3 & D3 & Sound3 & Compl3).
  cbn [app] in N1, N2, N3. subst n1 n2 n3.
  (* a skill found by the exact strategy is recorded in [s1] *)
  assert (X1 : forall sk, In sk skills ->
                 ExactMatcher.found (lower t) sk = true ->
                 exists m, In m f1 /\ skill m = sk).
  { intros sk Hin Hf.
    eexists. split.
    - apply (Compl1 sk _ Hin); [intros []|].
      unfold exact_attempt. rewrite Hf. reflexivity.
    - reflexivity. }
  assert (K1 : forall sk, In sk skills -> In (lower (name sk)) s1 ->
                 ExactMatcher.found (lower t) sk = true).
  { intros sk Hin Hk. apply S1 in Hk. destruct Hk as [[]|Hk].
    apply in_map_iff in Hk. destruct Hk as (m & Em & Hm).
    destruct (Sound1 m Hm) as (Hsk & _ & Ha).
    apply exact_attempt_inv in Ha.
    assert (skill m = sk) by (apply (@key_inj skills (skill m) sk Hnd Hsk Hin Em)).
    subst sk. tauto. }
  assert (K2 : forall sk, In sk skills -> In (lower (name sk)) s2 ->
                 matchable t sk = true).
  { intros sk Hin Hk. unfold matchable. apply S2 in Hk. destruct Hk as [Hk|Hk].
    - rewrite (K1 sk Hin Hk). reflexivity.
    - apply in_map_iff in Hk. destruct Hk as (m & Em & Hm).
      destruct (Sound2 m Hm) as (Hsk & _ & Ha).
      apply variant_attempt_inv in Ha. destruct Ha as (_ & [v Hv] & _).
      assert (skill m = sk) by (apply (@key_inj skills (skill m) sk Hnd Hsk Hin Em)).
      subst sk. rewrite Hv. apply orb_true_r. }
  split; [|split].
  - eapply Permutation_NoDup.
    + apply Permutation_map. symmetry. apply sorted_desc_perm.
    + rewrite !map_app. apply NoDup_app; [assumption| |].
      * apply NoDup_app; [assumption|assumption|].
        intros k Hk2 Hk3. apply in_map_iff in Hk3.
        destruct Hk3 as (m & <- & Hm).
        destruct (Sound3 m Hm) as (_ & Hns & _).
        apply Hns, S2. right; assumption.
      * intros k Hk1 Hk. apply in_app_or in Hk. destruct Hk as [Hk|Hk];
          apply in_map_iff in Hk; destruct Hk as (m & <- & Hm).
        -- destruct (Sound2 m Hm) as (_ & Hns & _).
           apply Hns, S1. right; assumption.
        -- destruct (Sound3 m Hm) as (_ & Hns & _).
           apply Hns, S2. left. apply S1. right; assumption.
  - intros m Hm. apply sorted_desc_In in Hm.
    apply in_app_or in Hm. destruct Hm as [Hm|Hm]; [|apply in_app_or in Hm;
                                                     destruct Hm as [Hm|Hm]].
    + destruct (Sound1 m Hm) as (Hsk & _ & Ha). split; [assumption|].
      apply exact_attempt_inv in Ha. unfold earliest.
      destruct Ha as (_ & -> & ? & ?). auto.
    + destruct (Sound2 m Hm) as (Hsk & Hns & Ha). split; [assumption|].
      apply variant_attempt_inv in Ha. destruct Ha as (_ & [v Hv] & ? & ?).
      unfold earliest.
      destruct (ExactMatcher.found (lower t) (skill m)) eqn:Hf.
      * exfalso. destruct (X1 _ Hsk Hf) as (m' & Hm' & Es).
        apply Hns, S1. right. apply in_map_iff. exists m'.
        split; [unfold key_of; congruence | assumption].
      * rewrite Hv. auto.
    + destruct (Sound3 m Hm) as (Hsk & Hns & Ha). split; [assumption|].
      apply fuzzy_attempt_inv in Ha. destruct Ha as (_ & ? & ?).
      unfold earliest.
      destruct (ExactMatcher.found (lower t) (skill m)) eqn:Hf.
      * exfalso. destruct (X1 _ Hsk Hf) as (m' & Hm' & Es).
        apply Hns, S2. left. apply S1. right. apply in_map_iff. exists m'.
        split; [unfold key_of; congruence | assumption].
      * destruct (VariantMatcher.first_found (lower t) (skill m)) as [v|] eqn:Hv;
          [|auto].
        exfalso. apply Hns, S2.
        destruct (in_dec str_eq_dec (key_of m) s1) as [Hs1|Hs1]; [left; assumption|].
        right. apply in_map_iff.
        eexists. split; [|apply (Compl2 (skill m) _ Hsk Hs1);
                          unfold variant_attempt; rewrite Hv; reflexivity].
        reflexivity.
  - intros sk Hin Hmt. unfold matchable in Hmt.
    destruct (ExactMatcher.found (lower t) sk) eqn:Hf.
    + destruct (X1 sk Hin Hf) as (m & Hm & Es). exists m. split; [|assumption].
      apply sorted_desc_In, in_or_app. left; assumption.
    + cbn [orb] in Hmt.
      destruct (VariantMatcher.first_found (lower t) sk) as [v|] eqn:Hv;
        [|discriminate Hmt].
      eexists. split.
      * apply sorted_desc_In, in_or_app. right. apply in_or_app. left.
        apply (Compl2 sk _ Hin).
        -- intros Hk. rewrite (K1 sk Hin Hk) in Hf. discriminate.
        -- unfold variant_attempt. rewrite Hv. reflexivity.
      * reflexivity.
Qed.

End ExtractorFacts.

Section FuzzyTotal.

Variable fuzz : str -> str -> result float.
Hypothesis fuzz_returns : forall a b, exists x, fuzz a b = Ok x.

Lemma first_token_returns (th : float) (candidate : str) (tokens : list str) :
  exists hit, FuzzyMatcher.first_token fuzz th candidate tokens = Ok hit.
Proof.
  induction tokens as [|tok rest IH]; simpl; [eauto|].
  destruct (fuzz_returns tok candidate) as [x ->]. cbn [bind].
  destruct (Py.geb x th); eauto.
Qed.

Lemma first_candidate_returns (th : float) (candidates tokens : list str) :
  exists hit, FuzzyMatcher.first_candidate fuzz th candidates tokens = Ok hit.
Proof.
  induction candidates as [|c rest IH]; [simpl; eauto|].
  cbn [FuzzyMatcher.first_candidate].
  destruct (first_token_returns th c tokens) as [[hit|] ->]; cbn [bind]; eauto.
Qed.

Lemma fuzzy_loop_returns (th : float) (text : str) (tokens : list str)
      (skills : list Skill) (ms : list SkillMatch) (seen : list str) :
  exists r, FuzzyMatcher.loop fuzz th text tokens skills ms seen = Ok r.
Proof.
  revert ms seen. induction skills as [|sk rest IH]; intros ms seen.
  - simpl; eauto.
  - rewrite fuzzy_loop_cons.
    destruct (mem (lower (name sk)) seen || strict_match sk); [apply IH|].
    destruct (first_candidate_returns th (lower (name sk) :: variants sk) tokens)
      as [[[tok sim]|] ->]; cbn [bind]; apply IH.
Qed.

End FuzzyTotal.

(** How [extract_skills] ends, in terms of what the fuzzy matcher does on
    the set the first two matchers leave. *)
Lemma extract_skills_outcome (fuzz : str -> str -> result float)
      (taxonomy : SkillTaxonomy) (text : str) :
  text <> [] ->
  match FuzzyMatcher.find_matches fuzz 88%float text taxonomy
          (seen_after_variant taxonomy text) with
  | Raise e => SkillExtractor.extract_skills_in fuzz taxonomy text = Raise e
  | Ok _ => exists ms, SkillExtractor.extract_skills_in fuzz taxonomy text = Ok ms
  end.
Proof.
  intros Hne. destruct text as [|c text]; [congruence|].
  set (t := c :: text) in *.
  unfold SkillExtractor.extract_skills_in, seen_after_variant, seen_after_exact.
  fold t.
  cbn [SkillExtractor.run SkillExtractor.matchers].
  unfold ExactMatcher.find_matches, VariantMatcher.find_matches.
  cbn [bind].
  destruct (ExactMatcher.loop t (lower t) (get_all_skills taxonomy) [] [])
    as [f1 s1]. cbn [snd].
  destruct (VariantMatcher.loop t (lower t) (get_all_skills taxonomy) [] s1)
    as [f2 s2]. cbn [snd].
  destruct (FuzzyMatcher.find_matches fuzz 88%float t taxonomy s2)
    as [[f3 s3]|e]; cbn [bind]; subst t; [eexists|]; reflexivity.
Qed.

(** C6: the list [extract_skills] returns holds at most one entry per
    canonical skill name (and per lowercased name); every entry is the
    report of the earliest strategy of exact, variant, fuzzy that applies
    to its skill; and every taxonomy skill the exact or the variant
    strategy finds in the text has an entry.  This holds whatever
    [fuzz.ratio] computes. *)
Theorem extract_skills_reports_once (fuzz : str -> str -> result float)
        (text : str) (ms : list SkillMatch) :
  SkillExtractor.extract_skills_in fuzz new_SkillTaxonomy text = Ok ms ->
  NoDup (map (fun m => name (skill m)) ms)
  /\ NoDup (map key_of ms)
  /\ (forall m, In m ms -> earliest text m)
  /\ (forall sk, In sk (get_all_skills new_SkillTaxonomy) ->
                 matchable text sk = true ->
                 exists m, In m ms /\ skill m = sk).
Proof.
  intros H. destruct (extract_spec _ _ H) as (Hnd & Hsound & Hcompl).
  repeat split.
  - apply (NoDup_map_inv lower). rewrite map_map. exact Hnd.
  - exact Hnd.
  - intros m Hm. apply (Hsound m Hm).
  - exact Hcompl.
Qed.

Lemma extract_skills_reports_once_witness :
  exists ms,
    SkillExtractor.extract_skills (txt "go py") = Ok ms
    /\ length ms = 2
    /\ NoDup (map key_of ms).
Proof.
  eexists. split; [vm_compute; reflexivity|]. split; [reflexivity|].
  apply (extract_skills_reports_once SkillExtractor.fuzz_ratio (txt "go py")).
  vm_compute; reflexivity.
Defined.

(** C1: on the string "hello" the code raises [NameError] instead of
    returning a list: the fuzzy matcher evaluates [fuzz.ratio], a name
    [skills.py] never binds, and no handler surrounds a matcher, so what
    the fuzzy matcher raises on the set the first two leave is what
    [extract_skills] raises.  The rest of the claim is what the code does:
    [extract_skills] returns the empty list for the empty string, the exact
    and the variant matcher return on every string, and once [fuzz.ratio]
    is bound to a function that returns, [extract_skills] returns a list
    for every string and every taxonomy. *)
Theorem extract_skills_unbound_fuzz :
  (SkillExtractor.extract_skills (txt "hello") = Raise (NameError "fuzz")
   /\ ~ exists ms, SkillExtractor.extract_skills (txt "hello") = Ok ms)
  /\ forall (fuzz : str -> str -> result float) (taxonomy : SkillTaxonomy)
            (text : str),
      SkillExtractor.extract_skills_in fuzz taxonomy [] = Ok []
      /\ (forall seen,
             exists r, ExactMatcher.find_matches text taxonomy seen = Ok r)
      /\ (forall seen,
             exists r, VariantMatcher.find_matches text taxonomy seen = Ok r)
      /\ (forall e, text <> [] ->
            (FuzzyMatcher.find_matches fuzz 88%float text taxonomy
               (seen_after_variant taxonomy text) = Raise e
             <-> SkillExtractor.extract_skills_in fuzz taxonomy text = Raise e))
      /\ ((forall a b, exists x, fuzz a b = Ok x) ->
          exists ms, SkillExtractor.extract_skills_in fuzz taxonomy text = Ok ms).
Proof.
  split.
  { assert (E : SkillExtractor.extract_skills (txt "hello")
                = Raise (NameError "fuzz")) by (vm_compute; reflexivity).
    split; [exact E|]. intros [ms H]. rewrite E in H. discriminate. }
  intros fuzz taxonomy text.
  split; [reflexivity|]. split; [intros seen; eexists; reflexivity|].
  split; [intros seen; eexists; reflexivity|]. split.
  - intros e Hne. pose proof (extract_skills_outcome fuzz taxonomy Hne) as H.
    destruct (FuzzyMatcher.find_matches fuzz 88%float text taxonomy
                (seen_after_variant taxonomy text)) as [r|e'].
    + destruct H as [ms ->]. split; discriminate.
    + rewrite H. split; intros [= ->]; reflexivity.
  - intros Hret. destruct text as [|c text]; [exists []; reflexivity|].
    assert (Hne : c :: text <> []) by discriminate.
    pose proof (extract_skills_outcome fuzz taxonomy Hne) as H.
    unfold FuzzyMatcher.find_matches in H.
    destruct (@fuzzy_loop_returns fuzz Hret 88%float (c :: text)
                (Re.findall (FuzzyMatcher.token) (lower (c :: text)))
                (get_all_skills taxonomy) []
                (seen_after_variant taxonomy (c :: text))) as [r Hr].
    rewrite Hr in H. exact H.
Qed.

Lemma extract_skills_unbound_fuzz_witness :
  FuzzyMatcher.find_matches SkillExtractor.fuzz_ratio 88%float (txt "hi there")
    new_SkillTaxonomy (seen_after_variant new_SkillTaxonomy (txt "hi there"))
  = Raise (NameError "fuzz")
  /\ SkillExtractor.extract_skills (txt "hi there") = Raise (NameError "fuzz")
  /\ exists ms,
      SkillExtractor.extract_skills_in (fun _ _ => Ok 0%float)
        new_SkillTaxonomy (txt "hi there") = Ok ms.
Proof.
  assert (F : FuzzyMatcher.find_matches SkillExtractor.fuzz_ratio 88%float
                (txt "hi there") new_SkillTaxonomy
                (seen_after_variant new_SkillTaxonomy (txt "hi there"))
              = Raise (NameError "fuzz")) by (vm_compute; reflexivity).
  split; [exact F|]. split.
  - apply (proj2 extract_skills_unbound_fuzz SkillExtractor.fuzz_ratio
             new_SkillTaxonomy (txt "hi there")).
    + vm_compute; discriminate.
    + exact F.
  - apply (proj2 extract_skills_unbound_fuzz (fun _ _ => Ok 0%float)
             new_SkillTaxonomy (txt "hi there")).
    intros a b. exists 0%float. reflexivity.
Defined.

Section Reports.

Variable fuzz : str -> str -> result float.
Variable text : str.
Variable ms : list SkillMatch.
Hypothesis extracted :
  SkillExtractor.extract_skills_in fuzz new_SkillTaxonomy text = Ok ms.

Lemma reports_exact (sk : Skill) (n : string) :
  In sk (get_all_skills new_SkillTaxonomy) -> name sk = txt n ->
  ExactMatcher.found (lower text) sk = true ->
  reports ms n "exact" 1.0%float.
Proof.
  intros Hin Hn Hf.
  destruct (extract_spec _ _ extracted) as (_ & Hsound & Hcompl).
  destruct (Hcompl sk Hin) as (m & Hm & Es).
  { unfold matchable. rewrite Hf. reflexivity. }
  exists m. destruct (Hsound m Hm) as (_ & He). unfold earliest in He.
  rewrite Es, Hf in He. rewrite Es. tauto.
Qed.

Lemma reports_variant (sk : Skill) (n : string) (v : str) :
  In sk (get_all_skills new_SkillTaxonomy) -> name sk = txt n ->
  ExactMatcher.found (lower text) sk = false ->
  VariantMatcher.first_found (lower text) sk = Some v ->
  reports ms n "variant" 0.98%float.
Proof.
  intros Hin Hn Hf Hv.
  destruct (extract_spec _ _ extracted) as (_ & Hsound & Hcompl).
  destruct (Hcompl sk Hin) as (m & Hm & Es).
  { unfold matchable. rewrite Hf, Hv. reflexivity. }
  exists m. destruct (Hsound m Hm) as (_ & He). unfold earliest in He.
  rewrite Es, Hf, Hv in He. rewrite Es. tauto.
Qed.

Lemma matchable_not_fuzzy (m : SkillMatch) :
  In m ms -> matchable text (skill m) = true ->
  match_type m <> "fuzzy"%string.
Proof.
  intros Hm Hmt.
  destruct (extract_spec _ _ extracted) as (_ & Hsound & _).
  destruct (Hsound m Hm) as (_ & He). unfold earliest in He.
  unfold matchable in Hmt.
  destruct (ExactMatcher.found (lower text) (skill m)).
  - destruct He as [-> _]. discriminate.
  - destruct (VariantMatcher.first_found (lower text) (skill m)).
    + destruct He as [-> _]. discriminate.
    + discriminate Hmt.
Qed.

Lemma strict_not_fuzzy (m : SkillMatch) :
  In m ms -> strict_match (skill m) = true ->
  match_type m <> "fuzzy"%string.
Proof.
  intros Hm Hst.
  destruct (extract_spec _ _ extracted) as (_ & Hsound & _).
  destruct (Hsound m Hm) as (_ & He). unfold earliest in He.
  destruct (ExactMatcher.found (lower text) (skill m)).
  - destruct He as [-> _]. discriminate.
  - destruct (VariantMatcher.first_found (lower text) (skill m)).
    + destruct He as [-> _]. discriminate.
    + destruct He as [_ He]. congruence.
Qed.

Lemma reported_in_taxonomy (m : SkillMatch) :
  In m ms -> In (skill m) (get_all_skills new_SkillTaxonomy).
Proof.
  intros Hm. destruct (extract_spec _ _ extracted) as (_ & Hsound & _).
  apply (Hsound m Hm).
Qed.

End Reports.

Lemma starts_with_app_l (p q t : str) :
  starts_with (p ++ q) t = true -> starts_with p t = true.
Proof.
  revert t. induction p as [|a p IH]; intros [|b t]; simpl; auto.
  rewrite !andb_true_iff. intros [-> H]. auto.
Qed.

Lemma contains_app_l (p q t : str) :
  contains (p ++ q) t = true -> contains p t = true.
Proof.
  induction t as [|b t IH]; simpl.
  - rewrite !orb_false_r. apply starts_with_app_l.
  - rewrite !orb_true_iff. intros [H|H];
      [left; eapply starts_with_app_l; eassumption | right; auto].
Qed.

(** C3: on the normalized text of "Experienced in Python and Golang" the
    code raises [NameError] in the fuzzy matcher, so no list is returned.
    Whatever [fuzz.ratio] computes, a list that is returned for this text
    holds Python as an exact match with confidence 1.0 and Go as a variant
    match with confidence 0.98, and none of its entries for a strict skill
    (Go among them) is a fuzzy match. *)
Theorem python_golang_extraction :
  let text := txt "experienced in python and golang" in
  TextPreprocessor.process (txt "Experienced in Python and Golang") = text
  /\ SkillExtractor.extract_skills text = Raise (NameError "fuzz")
  /\ forall fuzz ms,
      SkillExtractor.extract_skills_in fuzz new_SkillTaxonomy text = Ok ms ->
      reports ms "Python" "exact" 1.0%float
      /\ reports ms "Go" "variant" 0.98%float
      /\ forall m, In m ms -> name (skill m) = txt "Go" ->
                   match_type m <> "fuzzy"%string.
Proof.
  intros text. split; [vm_compute; reflexivity|].
  split; [vm_compute; reflexivity|].
  intros fuzz ms H. split; [|split].
  - assert (E : existsb (fun sk => Str.eqb (name sk) (txt "Python")
                                   && ExactMatcher.found (lower text) sk)
                        (get_all_skills new_SkillTaxonomy) = true)
      by (vm_compute; reflexivity).
    apply existsb_exists in E. destruct E as (sk & Hin & E).
    apply andb_true_iff in E. destruct E as [En Ef]. apply eqb_eq in En.
    apply (@reports_exact fuzz text ms H sk "Python"); assumption.
  - assert (E : existsb (fun sk => Str.eqb (name sk) (txt "Go")
                                   && negb (ExactMatcher.found (lower text) sk)
                                   && match VariantMatcher.first_found
                                              (lower text) sk with
                                      | Some v => Str.eqb v (txt "golang")
                                      | None => false
                                      end)
                        (get_all_skills new_SkillTaxonomy) = true)
      by (vm_compute; reflexivity).
    apply existsb_exists in E. destruct E as (sk & Hin & E).
    rewrite !andb_true_iff in E. destruct E as [[En Ef] Ev].
    apply eqb_eq in En. apply negb_true_iff in Ef.
    destruct (VariantMatcher.first_found (lower text) sk) as [v|] eqn:Hv;
      [|discriminate].
    apply (@reports_variant fuzz text ms H sk "Go" v); assumption.
  - intros m Hm Hn.
    assert (E : forallb (fun sk => negb (Str.eqb (name sk) (txt "Go"))
                                   || strict_match sk)
                        (get_all_skills new_SkillTaxonomy) = true)
      by (vm_compute; reflexivity).
    rewrite forallb_forall in E.
    specialize (E _ (@reported_in_taxonomy _ _ _ H m Hm)).
    rewrite Hn, eqb_refl in E. cbn [negb orb] in E.
    apply (@strict_not_fuzzy fuzz text ms H m Hm E).
Qed.

Lemma python_golang_extraction_witness :
  exists ms,
    SkillExtractor.extract_skills_in (fun _ _ => Ok 0%float) new_SkillTaxonomy
      (txt "experienced in python and golang") = Ok ms
    /\ reports ms "Go" "variant" 0.98%float.
Proof.
  eexists. split; [vm_compute; reflexivity|].
  apply (proj2 (proj2 python_golang_extraction) (fun _ _ => Ok 0%float)).
  vm_compute; reflexivity.
Defined.

(** C10: whatever [fuzz.ratio] computes, a list that [extract_skills]
    returns for a text whose lowercase form contains "javascript" holds
    exact matches with confidence 1.0 for both Java and JavaScript, and
    the exact matcher itself finds both; but on the text "javascript" the
    code raises [NameError] in the fuzzy matcher and returns no list. *)
Theorem javascript_reports_java (text : str) :
  contains (txt "javascript") (lower text) = true ->
  (forall fuzz ms,
      SkillExtractor.extract_skills_in fuzz new_SkillTaxonomy text = Ok ms ->
      reports ms "Java" "exact" 1.0%float
      /\ reports ms "JavaScript" "exact" 1.0%float)
  /\ (exists java js,
         In java (get_all_skills new_SkillTaxonomy) /\ name java = txt "Java"
         /\ In js (get_all_skills new_SkillTaxonomy) /\ name js = txt "JavaScript"
         /\ ExactMatcher.found (lower text) java = true
         /\ ExactMatcher.found (lower text) js = true)
  /\ SkillExtractor.extract_skills (txt "javascript") = Raise (NameError "fuzz").
Proof.
  intros Hc.
  assert (Hjava : contains (txt "java") (lower text) = true).
  { apply (contains_app_l (txt "java") (txt "script")). exact Hc. }
  assert (E1 : existsb (fun sk => Str.eqb (name sk) (txt "Java")
                                  && negb (strict_match sk)
                                  && Str.eqb (lower (name sk)) (txt "java"))
                       (get_all_skills new_SkillTaxonomy) = true)
    by (vm_compute; reflexivity).
  assert (E2 : existsb (fun sk => Str.eqb (name sk) (txt "JavaScript")
                                  && negb (strict_match sk)
                                  && Str.eqb (lower (name sk)) (txt "javascript"))
                       (get_all_skills new_SkillTaxonomy) = true)
    by (vm_compute; reflexivity).
  apply existsb_exists in E1. destruct E1 as (java & Hin1 & E1).
  apply existsb_exists in E2. destruct E2 as (js & Hin2 & E2).
  rewrite !andb_true_iff in E1, E2.
  destruct E1 as [[N1 S1] K1], E2 as [[N2 S2] K2].
  apply eqb_eq in N1, N2, K1, K2. apply negb_true_iff in S1, S2.
  assert (F1 : ExactMatcher.found (lower text) java = true)
    by (unfold ExactMatcher.found; rewrite S1, K1; exact Hjava).
  assert (F2 : ExactMatcher.found (lower text) js = true)
    by (unfold ExactMatcher.found; rewrite S2, K2; exact Hc).
  split; [|split].
  - intros fuzz ms H. split.
    + apply (@reports_exact fuzz text ms H java "Java"); assumption.
    + apply (@reports_exact fuzz text ms H js "JavaScript"); assumption.
  - exists java, js. repeat split; assumption.
  - vm_compute; reflexivity.
Qed.

Lemma javascript_reports_java_witness :
  contains (txt "javascript") (lower (txt "JavaScript")) = true
  /\ exists ms,
      SkillExtractor.extract_skills_in (fun _ _ => Ok 0%float) new_SkillTaxonomy
        (txt "JavaScript") = Ok ms
      /\ reports ms "Java" "exact" 1.0%float.
Proof.
  split; [vm_compute; reflexivity|].
  eexists. split; [vm_compute; reflexivity|].
  apply (proj1 (javascript_reports_java (txt "JavaScript") eq_refl)
               (fun _ _ => Ok 0%float)).
  vm_compute; reflexivity.
Defined.

(* ================================================================== *)
(** * Comparing floats *)

Section FloatFacts.

Local Open Scope float_scope.

Lemma SFcompare_antisym (a b : SpecFloat.spec_float) :
  SpecFloat.SFcompare b a = option_map CompOpp (SpecFloat.SFcompare a b).
Proof.
  destruct a as [sa|sa| |sa ma ea], b as [sb|sb| |sb mb eb]; simpl;
    try reflexivity;
    try (destruct sa; reflexivity); try (destruct sb; reflexivity);
    try (destruct sa, sb; reflexivity).
  destruct sa, sb; try reflexivity.
  - rewrite (Z.compare_antisym ea eb).
    destruct (Z.compare ea eb); simpl; try reflexivity.
    pose proof (Pos.compare_antisym ma mb) as Hp.
    unfold Pos.compare in Hp. rewrite Hp.
    destruct (Pos.compare_cont Eq ma mb); reflexivity.
  - rewrite (Z.compare_antisym ea eb).
    destruct (Z.compare ea eb); simpl; try reflexivity.
    pose proof (Pos.compare_antisym ma mb) as Hp.
    unfold Pos.compare in Hp. rewrite Hp.
    destruct (Pos.compare_cont Eq ma mb); reflexivity.
Qed.

Lemma SFcompare_None (a b : SpecFloat.spec_float) :
  SpecFloat.SFcompare a b = None ->
  SpecFloat.SFcompare a a = None \/ SpecFloat.SFcompare b b = None.
Proof.
  destruct a as [sa|sa| |sa ma ea], b as [sb|sb| |sb mb eb]; simpl;
    try discriminate; auto.
Qed.

Lemma not_nan_compare (x : float) :
  PrimFloat.is_nan x = false ->
  SpecFloat.SFcompare (Prim2SF x) (Prim2SF x) <> None.
Proof.
  unfold PrimFloat.is_nan. rewrite FloatAxioms.eqb_spec. unfold SpecFloat.SFeqb.
  destruct (SpecFloat.SFcompare (Prim2SF x) (Prim2SF x)); [discriminate|].
  simpl. discriminate.
Qed.

Lemma ltb_leb (x y : float) : (x <? y) = true -> (x <=? y) = true.
Proof.
  rewrite FloatAxioms.ltb_spec, FloatAxioms.leb_spec.
  unfold SpecFloat.SFltb, SpecFloat.SFleb.
  destruct (SpecFloat.SFcompare (Prim2SF x) (Prim2SF y)) as [[]|];
    congruence.
Qed.

Lemma not_ltb_leb (x y : float) :
  PrimFloat.is_nan x = false -> PrimFloat.is_nan y = false ->
  (x <? y) = false -> (y <=? x) = true.
Proof.
  intros Hx Hy. apply not_nan_compare in Hx, Hy.
  rewrite FloatAxioms.ltb_spec, FloatAxioms.leb_spec.
  unfold SpecFloat.SFltb, SpecFloat.SFleb.
  rewrite (SFcompare_antisym (Prim2SF x) (Prim2SF y)).
  destruct (SpecFloat.SFcompare (Prim2SF x) (Prim2SF y)) as [[]|] eqn:E;
    simpl; try congruence.
  apply SFcompare_None in E. tauto.
Qed.

Lemma not_leb_ltb (x y : float) :
  PrimFloat.is_nan x = false -> PrimFloat.is_nan y = false ->
  (x <=? y) = false -> (y <? x) = true.
Proof.
  intros Hx Hy. apply not_nan_compare in Hx, Hy.
  rewrite FloatAxioms.ltb_spec, FloatAxioms.leb_spec.
  unfold SpecFloat.SFltb, SpecFloat.SFleb.
  rewrite (SFcompare_antisym (Prim2SF x) (Prim2SF y)).
  destruct (SpecFloat.SFcompare (Prim2SF x) (Prim2SF y)) as [[]|] eqn:E;
    simpl; try congruence.
  apply SFcompare_None in E. tauto.
Qed.

Lemma ltb_not_leb (x y : float) : (y <? x) = true -> (x <=? y) = false.
Proof.
  rewrite FloatAxioms.ltb_spec, FloatAxioms.leb_spec.
  unfold SpecFloat.SFltb, SpecFloat.SFleb.
  rewrite (SFcompare_antisym (Prim2SF x) (Prim2SF y)).
  destruct (SpecFloat.SFcompare (Prim2SF x) (Prim2SF y)) as [[]|];
    simpl; congruence.
Qed.

End FloatFacts.

Section SortedFacts.
Variable A : Type.
Variable key : A -> float.

(** Descending by key: no element is followed by one with a larger key. *)
Let desc (a b : A) : Prop := PrimFloat.leb (key b) (key a) = true.

Lemma insert_desc_HdRel (a x : A) (l : list A) :
  desc a x -> HdRel desc a l -> HdRel desc a (Py.insert_desc key x l).
Proof.
  intros Hax Hl. destruct l as [|y l]; simpl.
  - constructor; assumption.
  - destruct (PrimFloat.ltb (key x) (key y)); constructor.
    + inversion Hl; assumption.
    + assumption.
Qed.

Lemma insert_desc_Sorted (x : A) (l : list A) :
  PrimFloat.is_nan (key x) = false ->
  Forall (fun y => PrimFloat.is_nan (key y) = false) l ->
  Sorted desc l -> Sorted desc (Py.insert_desc key x l).
Proof.
  intros Hx Hall Hs. induction l as [|y l IH]; simpl.
  - repeat constructor.
  - inversion Hall as [|? ? Hy Hall']; subst.
    inversion Hs as [|? ? Hs' Hhd]; subst.
    destruct (PrimFloat.ltb (key x) (key y)) eqn:E.
    + constructor; [apply IH; assumption|].
      apply insert_desc_HdRel; [|assumption].
      unfold desc. apply ltb_leb. assumption.
    + constructor; [assumption|]. constructor.
      unfold desc. apply not_ltb_leb; assumption.
Qed.

Lemma sorted_desc_Sorted (l : list A) :
  Forall (fun y => PrimFloat.is_nan (key y) = false) l ->
  Sorted desc (Py.sorted_desc key l).
Proof.
  induction 1 as [|x l Hx Hall IH]; simpl; [constructor|].
  apply insert_desc_Sorted; try assumption.
  rewrite Forall_forall in *. intros y Hy. apply Hall.
  apply sorted_desc_In in Hy. assumption.
Qed.

End SortedFacts.

(* ================================================================== *)
(** * The gap analyzer *)

Section IndexFacts.

Lemma set_In (V : Type) (d : Dict.t V) (k k' : str) (v v' : V) :
  In (k', v') (Dict.set k v d) -> v' = v \/ In (k', v') d.
Proof.
  induction d as [|[k0 v0] d IH]; simpl.
  - intros [[= <- <-]|[]]. left; reflexivity.
  - destruct (Str.eqb k0 k); simpl.
    + intros [[= <- <-]|H]; auto.
    + intros [H|H]; auto. destruct (IH H); auto.
Qed.

Lemma set_keyed_match (d : Dict.t SkillMatch) (m : SkillMatch) :
  Forall (fun kv => fst kv = key_of (snd kv)) d ->
  Forall (fun kv => fst kv = key_of (snd kv)) (Dict.set (key_of m) m d).
Proof.
  induction 1 as [|[k v] d Hkv Hd IH]; simpl.
  - constructor; [reflexivity | constructor].
  - destruct (Str.eqb k (key_of m)) eqn:E.
    + apply eqb_eq in E. constructor; assumption.
    + constructor; assumption.
Qed.

Lemma index_fold_wf (l : list SkillMatch) (d : Dict.t SkillMatch) :
  NoDup (Dict.keys d) -> Forall (fun kv => fst kv = key_of (snd kv)) d ->
  let d' := fold_left (fun d m => Dict.set (lower (name (skill m))) m d) l d in
  NoDup (Dict.keys d') /\ Forall (fun kv => fst kv = key_of (snd kv)) d'
  /\ forall k m, In (k, m) d' -> In (k, m) d \/ In m l.
Proof.
  revert d. induction l as [|x l IH]; intros d Hnd Hk; simpl.
  - auto.
  - destruct (IH (Dict.set (lower (name (skill x))) x d)) as (H1 & H2 & H3).
    + apply keys_set_NoDup; assumption.
    + apply set_keyed_match; assumption.
    + repeat split; try assumption.
      intros k m Hin. destruct (H3 k m Hin) as [H|H]; [|auto].
      apply set_In in H. destruct H as [->|H]; auto.
Qed.

Lemma index_wf (l : list SkillMatch) :
  NoDup (Dict.keys (GapAnalyzer.index l))
  /\ Forall (fun kv => fst kv = key_of (snd kv)) (GapAnalyzer.index l)
  /\ forall k m, In (k, m) (GapAnalyzer.index l) -> In m l.
Proof.
  destruct (@index_fold_wf l []) as (H1 & H2 & H3);
    [constructor | constructor |].
  repeat split; try assumption.
  intros k m H. destruct (H3 k m H) as [[]|]; assumption.
Qed.

Lemma index_get (l : list SkillMatch) (k : str) (m : SkillMatch) :
  Dict.get k (GapAnalyzer.index l) = Some m -> k = key_of m /\ In m l.
Proof.
  intros H. apply get_In in H. destruct (index_wf l) as (_ & Hk & Hin).
  rewrite Forall_forall in Hk. split; [apply (Hk _ H) | apply (Hin _ _ H)].
Qed.

Lemma get_keys (V : Type) (d : Dict.t V) (k : str) :
  In k (Dict.keys d) -> exists v, Dict.get k d = Some v.
Proof.
  intros H. destruct (Dict.get k d) eqn:E; [eauto|].
  apply get_None in E. contradiction.
Qed.

End IndexFacts.

Section AnalyzerFacts.

Local Open Scope float_scope.

Variable iter_keys : list str -> list str.
Variable iter_categories : list SkillCategory -> list SkillCategory.
Variable sum : list float -> float.

Lemma classify_fold (resume_map : Dict.t SkillMatch) (l : list str)
      (s w : list SkillMatch) :
  fold_left
    (fun '(strong, weak) key =>
       match Dict.get key resume_map with
       | None => (strong, weak)
       | Some m =>
         if Py.geb (confidence m) 0.9 then (strong ++ [m], weak)
         else (strong, weak ++ [m])
       end) l (s, w)
  = (s ++ flat_map (strong_step resume_map) l,
     w ++ flat_map (weak_step resume_map) l).
Proof.
  revert s w. induction l as [|k l IH]; intros s w; cbn [fold_left flat_map].
  - rewrite !app_nil_r. reflexivity.
  - unfold strong_step at 1, weak_step at 1, Py.geb.
    destruct (Dict.get k resume_map) as [m|].
    + destruct (0.9 <=? confidence m); rewrite IH; cbn [app];
        rewrite <- ?app_assoc; reflexivity.
    + rewrite IH. reflexivity.
Qed.

Lemma classify_eq (keys : list str) (resume_map : Dict.t SkillMatch) :
  GapAnalyzer._classify_matched iter_keys keys resume_map
  = (flat_map (strong_step resume_map) (iter_keys keys),
     flat_map (weak_step resume_map) (iter_keys keys)).
Proof. apply classify_fold. Qed.

Lemma missing_fold (jd_map : Dict.t SkillMatch) (l : list str)
      (g : list SkillGap.t) :
  fold_left
    (fun gaps key =>
       match Dict.get key jd_map with
       | None => gaps
       | Some m =>
         let impact := GapAnalyzer._compute_impact m in
         let priority := GapAnalyzer._determine_priority impact in
         gaps ++ [SkillGap.mk m priority impact]
       end) l g
  = g ++ flat_map (gap_step jd_map) l.
Proof.
  revert g. induction l as [|k l IH]; intros g; cbn [fold_left flat_map].
  - rewrite app_nil_r. reflexivity.
  - unfold gap_step at 1.
    destruct (Dict.get k jd_map) as [m|].
    + rewrite IH. cbn [app]. rewrite <- app_assoc. reflexivity.
    + rewrite IH. reflexivity.
Qed.

Lemma missing_eq (keys : list str) (jd_map : Dict.t SkillMatch) :
  GapAnalyzer._analyze_missing iter_keys keys jd_map
  = Py.sorted_desc SkillGap.impact_score
                   (flat_map (gap_step jd_map) (iter_keys keys)).
Proof.
  unfold GapAnalyzer._analyze_missing. f_equal. apply missing_fold.
Qed.

Lemma weights_table (c : SkillCategory) :
  weights_get CATEGORY_WEIGHTS c 1.0 = category_weight c.
Proof. destruct c; reflexivity. Qed.

Lemma priority_band (impact : float) :
  GapAnalyzer._determine_priority impact = band impact.
Proof. reflexivity. Qed.

End AnalyzerFacts.

Section AnalyzeFacts.

Local Open Scope float_scope.

Variable iter_keys : list str -> list str.
Variable iter_categories : list SkillCategory -> list SkillCategory.
Variable sum : list float -> float.
Hypothesis iter_keys_perm : forall l, Permutation (iter_keys l) l.

Variables resume_skills jd_skills : list SkillMatch.

Let report : GapAnalysisReport.t :=
  GapAnalyzer.analyze iter_keys iter_categories sum resume_skills jd_skills.
Let resume_map := GapAnalyzer.index resume_skills.
Let jd_map := GapAnalyzer.index jd_skills.
Let matched_keys := GapAnalyzer.inter (Dict.keys resume_map) (Dict.keys jd_map).
Let missing_keys := GapAnalyzer.diff (Dict.keys jd_map) (Dict.keys resume_map).

Lemma analyze_matched :
  GapAnalysisReport.matched_skills report
  = flat_map (strong_step resume_map) (iter_keys matched_keys).
Proof.
  unfold report, GapAnalyzer.analyze. rewrite classify_eq. reflexivity.
Qed.

Lemma analyze_weak :
  GapAnalysisReport.weak_matches report
  = flat_map (weak_step resume_map) (iter_keys matched_keys).
Proof.
  unfold report, GapAnalyzer.analyze. rewrite classify_eq. reflexivity.
Qed.

Lemma analyze_missing :
  GapAnalysisReport.missing_skills report
  = Py.sorted_desc SkillGap.impact_score
                   (flat_map (gap_step jd_map) (iter_keys missing_keys)).
Proof.
  unfold report, GapAnalyzer.analyze. rewrite classify_eq, missing_eq.
  reflexivity.
Qed.

Lemma analyze_overall :
  GapAnalysisReport.overall_score report
  = GapAnalyzer._compute_overall_score
      (GapAnalysisReport.matched_skills report)
      (GapAnalysisReport.weak_matches report) (Dict.keys jd_map).
Proof.
  unfold report, GapAnalyzer.analyze. rewrite classify_eq. reflexivity.
Qed.

Lemma missing_In (g : SkillGap.t) :
  In g (GapAnalysisReport.missing_skills report) <->
  exists k m, In k missing_keys /\ Dict.get k jd_map = Some m
              /\ g = SkillGap.mk m (band (GapAnalyzer._compute_impact m))
                                 (GapAnalyzer._compute_impact m).
Proof.
  rewrite analyze_missing, sorted_desc_In, in_flat_map. split.
  - intros (k & Hk & Hg). apply (Permutation_in _ (iter_keys_perm _)) in Hk.
    unfold gap_step in Hg. destruct (Dict.get k jd_map) as [m|] eqn:E;
      [|destruct Hg].
    destruct Hg as [<-|[]]. exists k, m. auto.
  - intros (k & m & Hk & E & ->). exists k. split.
    + apply (Permutation_in _ (Permutation_sym (iter_keys_perm _))). exact Hk.
    + unfold gap_step. rewrite E. left. reflexivity.
Qed.

Lemma missing_keys_In (k : str) :
  In k missing_keys <->
  In k (Dict.keys jd_map) /\ Dict.get k resume_map = None.
Proof.
  unfold missing_keys, GapAnalyzer.diff. rewrite filter_In, negb_true_iff.
  rewrite mem_not_In, get_None. tauto.
Qed.

End AnalyzeFacts.

Lemma inter_nil (a : list str) : GapAnalyzer.inter a [] = [].
Proof. induction a as [|k a IH]; [reflexivity | exact IH]. Qed.

Lemma index_keys_length (l : list SkillMatch) :
  Dict.keys (GapAnalyzer.index l) = [] -> l = [].
Proof.
  destruct l as [|m l]; [reflexivity|]. intros H. exfalso.
  assert (Hin : In (key_of m) (Dict.keys (GapAnalyzer.index (m :: l)))).
  { unfold GapAnalyzer.index. simpl.
    assert (G : forall l d, In (key_of m) (Dict.keys d) ->
                  In (key_of m)
                     (Dict.keys (fold_left
                        (fun d m0 => Dict.set (lower (name (skill m0))) m0 d)
                        l d))).
    { clear. induction l as [|x l IH]; intros d Hd; simpl; [assumption|].
      apply IH. rewrite keys_set.
      destruct (mem (lower (name (skill x))) (Dict.keys d));
        [assumption | apply in_or_app; left; assumption]. }
    apply G. left. reflexivity. }
  rewrite H in Hin. destruct Hin.
Qed.

(** C4: every gap of the report carries the impact
    [min((weight * category weight) / 1.5, 1.0)] of its skill, with the
    category weights of the fixed table, and the priority band of that
    impact (Critical from 0.8, High from 0.6, Medium from 0.4, else Low);
    the gaps are the job description's matches whose key the resume lacks;
    they are sorted by impact, descending, when no impact is NaN; and for
    resume [Python] against job description [Python, Docker] the only gap
    is Docker with impact 0.6 and priority High, with overall score 0.5. *)
Theorem missing_skills_scored
        (iter_keys : list str -> list str)
        (iter_categories : list SkillCategory -> list SkillCategory)
        (sum : list float -> float)
        (resume_skills jd_skills : list SkillMatch) :
  (forall l, Permutation (iter_keys l) l) ->
  let analyze := GapAnalyzer.analyze iter_keys iter_categories sum in
  let report := analyze resume_skills jd_skills in
  let missing := GapAnalysisReport.missing_skills report in
  (forall g, In g missing ->
     let sk := skill (SkillGap.skill_match g) in
     SkillGap.impact_score g
     = Py.min ((weight sk * category_weight (category sk)) / 1.5)%float 1.0%float
     /\ SkillGap.priority g = band (SkillGap.impact_score g)
     /\ Dict.get (key_of (SkillGap.skill_match g)) (GapAnalyzer.index jd_skills)
        = Some (SkillGap.skill_match g)
     /\ Dict.get (key_of (SkillGap.skill_match g)) (GapAnalyzer.index resume_skills)
        = None)
  /\ (forall k m,
        Dict.get k (GapAnalyzer.index jd_skills) = Some m ->
        Dict.get k (GapAnalyzer.index resume_skills) = None ->
        exists g, In g missing /\ SkillGap.skill_match g = m)
  /\ ((forall m, In m jd_skills ->
                 PrimFloat.is_nan (GapAnalyzer._compute_impact m) = false) ->
      Sorted by_impact_desc missing)
  /\ (let example :=
        analyze (match_of "Python" 1.0%float)
                (match_of "Python" 1.0%float ++ match_of "Docker" 1.0%float) in
      map (fun g => (SkillGap.skill_name g, SkillGap.priority g,
                     SkillGap.impact_score g))
          (GapAnalysisReport.missing_skills example)
      = [(txt "Docker", HIGH, 0.6%float)]
      /\ map (fun m => name (skill m)) (GapAnalysisReport.matched_skills example)
         = [txt "Python"]
      /\ GapAnalysisReport.overall_score example = 0.5%float).
Proof.
  intros Hperm analyze report missing.
  split; [|split; [|split]].
  - intros g Hg sk.
    apply (@missing_In iter_keys iter_categories sum Hperm
                       resume_skills jd_skills) in Hg.
    destruct Hg as (k & m & Hk & E & ->). cbn [SkillGap.impact_score
      SkillGap.priority SkillGap.skill_match] in *.
    apply missing_keys_In in Hk. destruct Hk as [_ Hnone].
    destruct (index_get _ _ E) as [-> _].
    repeat split; try assumption.
    unfold GapAnalyzer._compute_impact. rewrite weights_table. reflexivity.
  - intros k m E Hnone.
    exists (SkillGap.mk m (band (GapAnalyzer._compute_impact m))
                        (GapAnalyzer._compute_impact m)).
    split; [|reflexivity].
    apply (@missing_In iter_keys iter_categories sum Hperm
                       resume_skills jd_skills). exists k, m.
    repeat split; try assumption.
    apply missing_keys_In. split; [|assumption].
    destruct (in_dec str_eq_dec k (Dict.keys (GapAnalyzer.index jd_skills)))
      as [H|H]; [assumption|].
    apply get_None in H. congruence.
  - intros Hnan. unfold missing, report, analyze. rewrite analyze_missing.
    apply sorted_desc_Sorted. apply Forall_forall. intros g Hg.
    apply in_flat_map in Hg. destruct Hg as (k & _ & Hg).
    unfold gap_step in Hg.
    destruct (Dict.get k (GapAnalyzer.index jd_skills)) as [m|] eqn:E;
      [|destruct Hg].
    destruct Hg as [<-|[]]. cbn [SkillGap.impact_score].
    apply Hnan. apply (index_get _ _ E).
  - intros example. unfold example, analyze.
    rewrite analyze_missing, analyze_overall, analyze_matched, analyze_weak.
    set (rk := Dict.keys (GapAnalyzer.index (match_of "Python" 1.0%float))).
    set (jk := Dict.keys (GapAnalyzer.index (match_of "Python" 1.0%float
                                             ++ match_of "Docker" 1.0%float))).
    assert (E1 : GapAnalyzer.diff jk rk = [txt "docker"])
      by (vm_compute; reflexivity).
    assert (E2 : GapAnalyzer.inter rk jk = [txt "python"])
      by (vm_compute; reflexivity).
    rewrite E1, E2.
    rewrite (Permutation_length_1_inv (Permutation_sym (Hperm [txt "docker"]))).
    rewrite (Permutation_length_1_inv (Permutation_sym (Hperm [txt "python"]))).
    repeat split; vm_compute; reflexivity.
Qed.

Lemma missing_skills_scored_witness :
  let report :=
    GapAnalyzer.analyze (fun l => l) (fun l => l) (fun xs => fold_left PrimFloat.add xs 0%float)
      (match_of "Python" 1.0%float)
      (match_of "Python" 1.0%float ++ match_of "Docker" 1.0%float
       ++ match_of "Go" 1.0%float) in
  (forall l : list str, Permutation l l)
  /\ (forall m, In m (match_of "Python" 1.0%float ++ match_of "Docker" 1.0%float
                      ++ match_of "Go" 1.0%float) ->
                PrimFloat.is_nan (GapAnalyzer._compute_impact m) = false)
  /\ Sorted by_impact_desc (GapAnalysisReport.missing_skills report).
Proof.
  intros report.
  assert (Hnan : forall m, In m (match_of "Python" 1.0%float
                                 ++ match_of "Docker" 1.0%float
                                 ++ match_of "Go" 1.0%float) ->
                  PrimFloat.is_nan (GapAnalyzer._compute_impact m) = false).
  { intros m Hm. vm_compute in Hm.
    destruct Hm as [<-|[<-|[<-|[]]]]; vm_compute; reflexivity. }
  split; [intros l; apply Permutation_refl|]. split; [exact Hnan|].
  apply (missing_skills_scored (fun l => l) (fun l => l)
           (fun xs => fold_left PrimFloat.add xs 0%float)
           (match_of "Python" 1.0%float)
           (match_of "Python" 1.0%float ++ match_of "Docker" 1.0%float
            ++ match_of "Go" 1.0%float)
           (fun l => Permutation_refl l)).
  exact Hnan.
Defined.

Lemma weak_step_below (resume_skills : list SkillMatch) (k : str) :
  (forall m, In m resume_skills -> PrimFloat.is_nan (confidence m) = false) ->
  weak_step (GapAnalyzer.index resume_skills) k
  = match Dict.get k (GapAnalyzer.index resume_skills) with
    | Some m => if PrimFloat.ltb (confidence m) 0.9 then [m] else []
    | None => []
    end.
Proof.
  intros Hnan. unfold weak_step.
  destruct (Dict.get k (GapAnalyzer.index resume_skills)) as [m|] eqn:E;
    [|reflexivity].
  assert (Hm : PrimFloat.is_nan (confidence m) = false)
    by (apply Hnan; apply (index_get _ _ E)).
  assert (H9 : PrimFloat.is_nan 0.9 = false) by reflexivity.
  destruct (PrimFloat.leb 0.9 (confidence m)) eqn:L.
  - destruct (PrimFloat.ltb (confidence m) 0.9) eqn:L'; [|reflexivity].
    apply ltb_not_leb in L'. congruence.
  - rewrite (not_leb_ltb H9 Hm L). reflexivity.
Qed.

(** C5: the overall score is (strong + 0.5 * weak) / |JD keys|, where the
    strong matches are the resume's matches for the keys it shares with
    the job description whose confidence is at least 0.9 and the weak ones
    those whose confidence is below 0.9; the report lists exactly these;
    and for an empty job description the report is the empty report with
    overall score 0.0. *)
Theorem overall_score_formula
        (iter_keys : list str -> list str)
        (iter_categories : list SkillCategory -> list SkillCategory)
        (sum : list float -> float)
        (resume_skills jd_skills : list SkillMatch) :
  (forall l, Permutation (iter_keys l) l) ->
  (forall l, Permutation (iter_categories l) l) ->
  (forall m, In m resume_skills -> PrimFloat.is_nan (confidence m) = false) ->
  let report :=
    GapAnalyzer.analyze iter_keys iter_categories sum resume_skills jd_skills in
  let resume_map := GapAnalyzer.index resume_skills in
  let jd_keys := Dict.keys (GapAnalyzer.index jd_skills) in
  let matched_keys := GapAnalyzer.inter (Dict.keys resume_map) jd_keys in
  let strong := strong_of resume_map matched_keys in
  let weak := weak_of resume_map matched_keys in
  GapAnalysisReport.overall_score report
  = match jd_keys with
    | [] => 0.0
    | _ => (Py.float_of_nat (length strong) + 0.5 * Py.float_of_nat (length weak))
           / Py.float_of_nat (length jd_keys)
    end%float
  /\ Permutation (GapAnalysisReport.matched_skills report) strong
  /\ Permutation (GapAnalysisReport.weak_matches report) weak
  /\ (jd_skills = [] ->
      report = GapAnalysisReport.mk 0.0%float 0.0%float [] [] [] [] []).
Proof.
  intros Hk Hc Hnan report resume_map jd_keys matched_keys strong weak.
  assert (Ps : Permutation (GapAnalysisReport.matched_skills report) strong).
  { unfold report. rewrite analyze_matched. unfold strong, strong_of.
    apply Permutation_flat_map. apply Hk. }
  assert (Pw : Permutation (GapAnalysisReport.weak_matches report) weak).
  { unfold report. rewrite analyze_weak. unfold weak, weak_of.
    rewrite (flat_map_ext _ _ (fun k => @weak_step_below resume_skills k Hnan)).
    apply Permutation_flat_map. apply Hk. }
  split; [|split; [exact Ps|split; [exact Pw|]]].
  - unfold report. rewrite analyze_overall.
    unfold GapAnalyzer._compute_overall_score. fold report. fold jd_keys.
    rewrite (Permutation_length Ps), (Permutation_length Pw). reflexivity.
  - intros ->. unfold report, GapAnalyzer.analyze.
    rewrite classify_eq, missing_eq.
    change (GapAnalyzer.index []) with (@nil (str * SkillMatch)).
    change (Dict.keys (@nil (str * SkillMatch))) with (@nil str).
    rewrite inter_nil. change (GapAnalyzer.diff [] _) with (@nil str).
    rewrite (Permutation_nil (Permutation_sym (Hk []))).
    cbn [flat_map Py.sorted_desc].
    unfold GapAnalyzer._analyze_categories.
    cbn [app map GapAnalyzer.set_of].
    rewrite (Permutation_nil (Permutation_sym (Hc []))).
    reflexivity.
Qed.

Lemma overall_score_formula_witness :
  let resume := match_of "Python" 1.0%float ++ match_of "Go" 0.5%float in
  let jd := match_of "Python" 1.0%float ++ match_of "Go" 1.0%float
            ++ match_of "Docker" 1.0%float in
  (forall l : list str, Permutation l l)
  /\ (forall l : list SkillCategory, Permutation l l)
  /\ (forall m, In m resume -> PrimFloat.is_nan (confidence m) = false)
  /\ GapAnalysisReport.overall_score
       (GapAnalyzer.analyze (fun l => l) (fun l => l)
          (fun xs => fold_left PrimFloat.add xs 0%float) resume jd)
     = 0.5%float.
Proof.
  intros resume jd.
  assert (Hnan : forall m, In m resume ->
                           PrimFloat.is_nan (confidence m) = false).
  { intros m Hm. vm_compute in Hm.
    destruct Hm as [<-|[<-|[]]]; reflexivity. }
  split; [intros l; apply Permutation_refl|].
  split; [intros l; apply Permutation_refl|].
  split; [exact Hnan|].
  rewrite (proj1 (overall_score_formula (fun l => l) (fun l => l)
                    (fun xs => fold_left PrimFloat.add xs 0%float) resume jd
                    (fun l => Permutation_refl l) (fun l => Permutation_refl l)
                    Hnan)).
  vm_compute. reflexivity.
Defined.

(* ================================================================== *)
(** * The similarity engine *)

(** C9: [compute_similarity] raises [ValueError] exactly when one of the
    two texts is empty or the vectorization leaves no vocabulary (the
    vectorizer finds no term, or a row of the matrix is all zero); on all
    other inputs it returns a [SimilarityResult], whose overall score is
    the cosine of the two rows. *)
Theorem compute_similarity_fails_iff
        (fit_transform : str -> str -> SimilarityEngine.vectorized)
        (cosine_similarity : list float -> list float -> float)
        (argsort : list float -> list nat)
        (resume_text jd_text : str) :
  let r := SimilarityEngine.compute_similarity fit_transform cosine_similarity
             argsort resume_text jd_text in
  let invalid := resume_text = [] \/ jd_text = []
                 \/ zero_vocabulary (fit_transform resume_text jd_text) in
  ((exists msg, r = Raise (ValueError msg)) <-> invalid)
  /\ ((exists res, r = Ok res) <-> ~ invalid)
  /\ (forall res, r = Ok res ->
        exists resume_vec jd_vec names,
          fit_transform resume_text jd_text
          = SimilarityEngine.Rows resume_vec jd_vec names
          /\ SimilarityResult.overall_score res
             = cosine_similarity resume_vec jd_vec).
Proof.
  intros r invalid. unfold r, invalid, SimilarityEngine.compute_similarity.
  destruct resume_text as [|a rt].
  { repeat split; try (intros; eauto; fail).
    - intros [res H]; discriminate.
    - intros H; exfalso; apply H; auto.
    - intros res H; discriminate. }
  destruct jd_text as [|b jt].
  { repeat split; try (intros; eauto; fail).
    - intros [res H]; discriminate.
    - intros H; exfalso; apply H; auto.
    - intros res H; discriminate. }
  destruct (fit_transform (a :: rt) (b :: jt)) as [msg|rv jv names]; simpl.
  { repeat split; try (intros; eauto; fail).
    - intros [res H]; discriminate.
    - intros H; exfalso; apply H; auto.
    - intros res H; discriminate. }
  destruct (SimilarityEngine.nnz rv) as [|n1] eqn:N1;
    [|destruct (SimilarityEngine.nnz jv) as [|n2] eqn:N2]; simpl.
  - repeat split; try (intros; eauto; fail).
    + intros [res H]; discriminate.
    + intros H; exfalso; apply H; auto.
    + intros res H; discriminate.
  - repeat split; try (intros; eauto; fail).
    + intros [res H]; discriminate.
    + intros H; exfalso; apply H; auto.
    + intros res H; discriminate.
  - repeat split.
    + intros [msg H]; discriminate.
    + intros [H|[H|[H|H]]]; discriminate.
    + intros _ [H|[H|[H|H]]]; discriminate.
    + intros _. eexists; reflexivity.
    + intros res [= <-]. exists rv, jv, names. split; reflexivity.
Qed.

Lemma compute_similarity_fails_iff_witness :
  exists msg,
    SimilarityEngine.compute_similarity
      (fun _ _ => SimilarityEngine.Rows [1.0%float; 0.0%float]
                                        [0.0%float; 0.0%float] [txt "a"; txt "b"])
      (fun _ _ => 0.0%float) (fun _ => [0; 1]) (txt "a") (txt "the")
    = Raise (ValueError msg).
Proof.
  apply (proj1 (compute_similarity_fails_iff
                  (fun _ _ => SimilarityEngine.Rows [1.0%float; 0.0%float]
                                [0.0%float; 0.0%float] [txt "a"; txt "b"])
                  (fun _ _ => 0.0%float) (fun _ => [0; 1]) (txt "a") (txt "the"))).
  right; right; right. reflexivity.
Defined.

(* ================================================================== *)
(** * Substitution *)

Section SubFacts.

Variable m : Re.matcher.
Variable repl : str.

Lemma sub_from_Forall (P : ascii -> Prop) (t : str) :
  Forall P repl -> Forall P t ->
  forall prev skip, Forall P (Re.sub_from m repl prev t skip).
Proof.
  intros Hr Ht. induction Ht as [|c t Hc Ht IH]; intros prev skip; simpl.
  - constructor.
  - destruct skip as [|s]; [|apply IH].
    destruct (m prev (c :: t)) as [[|k]|].
    + constructor; [assumption | apply IH].
    + apply Forall_app. split; [assumption | apply IH].
    + constructor; [assumption | apply IH].
Qed.

(** Where every match is a copy of the replacement, substitution changes
    nothing. *)
Lemma sub_from_id (Q : str -> Prop) :
  (forall c t, Q (c :: t) -> Q t) ->
  (forall prev t k, Q t -> m prev t = Some (S k) ->
                    firstn (S k) t = repl /\ S k <= length t) ->
  forall t prev skip,
    Q t -> skip <= length t -> Re.sub_from m repl prev t skip = skipn skip t.
Proof.
  intros Htail Hm. induction t as [|c t IH]; intros prev skip HQ Hs; simpl.
  - destruct skip; reflexivity.
  - destruct skip as [|s].
    + destruct (m prev (c :: t)) as [[|k]|] eqn:E; simpl.
      * f_equal. apply (IH (Some c) 0); [eapply Htail; eassumption | lia].
      * destruct (Hm _ _ _ HQ E) as [Hf Hl]. simpl in Hl.
        rewrite (IH (Some c) k); [|eapply Htail; eassumption | lia].
        rewrite <- Hf. apply (firstn_skipn (S k) (c :: t)).
      * f_equal. apply (IH (Some c) 0); [eapply Htail; eassumption | lia].
    + simpl in Hs. apply IH; [eapply Htail; eassumption | lia].
Qed.

Lemma sub_id (Q : str -> Prop) (t : str) :
  (forall c t, Q (c :: t) -> Q t) ->
  (forall prev t k, Q t -> m prev t = Some (S k) ->
                    firstn (S k) t = repl /\ S k <= length t) ->
  Q t -> Re.sub m repl t = t.
Proof.
  intros Htail Hm HQ. unfold Re.sub.
  rewrite (sub_from_id Q Htail Hm); [reflexivity | assumption | lia].
Qed.

(** A pattern without [\b] that matches nowhere. *)
Hypothesis m_ignores_prev : forall p p' t, m p t = m p' t.

Lemma search_from_prev (p p' : option ascii) (t : str) :
  Re.search_from m p t = Re.search_from m p' t.
Proof.
  destruct t as [|c t]; simpl; rewrite (m_ignores_prev p p'); reflexivity.
Qed.

Lemma sub_no_match (t : str) :
  Re.search m t = false -> Re.sub m repl t = t.
Proof.
  intros H.
  apply (@sub_id (fun t => Re.search_from m None t = false) t); [| |exact H].
  - intros c t' Hs. simpl in Hs.
    destruct (m None (c :: t')); [discriminate|].
    rewrite (search_from_prev None (Some c)). exact Hs.
  - intros prev t' k Hs E. rewrite (m_ignores_prev prev None) in E.
    destruct t'; simpl in Hs; rewrite E in Hs; discriminate.
Qed.

End SubFacts.

(* ================================================================== *)
(** * Characters *)

Ltac each_char c :=
  destruct c as [[] [] [] [] [] [] [] []]; vm_compute; try reflexivity;
  try discriminate.

Section CharFacts.

Lemma nfkd_is_ascii (c : ascii) :
  forallb (fun d => code d <? 128) (TextPreprocessor.nfkd_ascii c) = true.
Proof. each_char c. Qed.

Lemma lower_char_ascii (c : ascii) :
  (code c <? 128) = true ->
  (code (lower_char c) <? 128) && negb (is_upper (lower_char c)) = true.
Proof. each_char c. Qed.

Lemma lower_char_idem (c : ascii) : lower_char (lower_char c) = lower_char c.
Proof. each_char c. Qed.

Lemma keep_or_space (c : ascii) :
  (code c <? 128) && negb (is_upper c) = true ->
  let d := if TextPreprocessor.keep c then c else " "%char in
  (code d <? 128) && negb (is_upper d) && TextPreprocessor.keep d = true.
Proof. each_char c. Qed.

Lemma clean_not_space (c : ascii) :
  (code c <? 128) && negb (is_upper c) && TextPreprocessor.keep c = true ->
  is_space c = false -> clean_char c = true.
Proof. each_char c. Qed.

Lemma clean_space (c : ascii) :
  clean_char c = true -> is_space c = true -> c = " "%char.
Proof. each_char c. Qed.

Lemma clean_facts (c : ascii) :
  clean_char c = true ->
  (code c <? 128) = true /\ is_upper c = false
  /\ TextPreprocessor.keep c = true /\ is_code 64 c = false.
Proof. each_char c; repeat split. Qed.

End CharFacts.

(* ================================================================== *)
(** * The normalizer *)

Section StripFacts.

Lemma lstrip_suffix (t : str) : exists s, t = s ++ lstrip t.
Proof.
  induction t as [|c t [s IH]]; simpl.
  - exists []. reflexivity.
  - destruct (is_space c).
    + exists (c :: s). simpl. f_equal. exact IH.
    + exists []. reflexivity.
Qed.

Lemma lstrip_head (t : str) :
  match lstrip t with
  | [] => True
  | c :: _ => is_space c = false
  end.
Proof.
  induction t as [|c t IH]; simpl; [exact I|].
  destruct (is_space c) eqn:E; [exact IH | exact E].
Qed.

Lemma lstrip_fixed (c : ascii) (t : str) :
  is_space c = false -> lstrip (c :: t) = c :: t.
Proof. intros H. simpl. rewrite H. reflexivity. Qed.

Lemma rstrip_snoc (t : str) (c : ascii) :
  rstrip (t ++ [c]) = if is_space c then rstrip t else t ++ [c].
Proof.
  unfold rstrip. rewrite rev_app_distr. simpl.
  destruct (is_space c); [reflexivity|].
  simpl. rewrite rev_involutive. reflexivity.
Qed.

Lemma rstrip_prefix (t : str) : exists s, t = rstrip t ++ s.
Proof.
  induction t as [|c t [s IH]] using rev_ind.
  - exists []. reflexivity.
  - rewrite rstrip_snoc. destruct (is_space c).
    + exists (s ++ [c]). rewrite app_assoc, <- IH. reflexivity.
    + exists []. rewrite app_nil_r. reflexivity.
Qed.

Lemma rstrip_keeps_head (c : ascii) (t : str) :
  is_space c = false -> exists t', rstrip (c :: t) = c :: t'.
Proof.
  intros Hc. induction t as [|d t [t' IH]] using rev_ind.
  - exists []. change [c] with ([] ++ [c]). rewrite rstrip_snoc, Hc. reflexivity.
  - rewrite app_comm_cons, rstrip_snoc. destruct (is_space d).
    + exists t'. exact IH.
    + exists (t ++ [d]). reflexivity.
Qed.

Lemma rstrip_idem (t : str) : rstrip (rstrip t) = rstrip t.
Proof.
  unfold rstrip. rewrite rev_involutive. f_equal.
  pose proof (lstrip_head (rev t)) as H.
  destruct (lstrip (rev t)) as [|c u]; [reflexivity|].
  apply lstrip_fixed. exact H.
Qed.

Lemma strip_idem (t : str) : strip (strip t) = strip t.
Proof.
  unfold strip. pose proof (lstrip_head t) as H.
  destruct (lstrip t) as [|c u].
  - reflexivity.
  - destruct (@rstrip_keeps_head c u H) as [t' E]. rewrite E.
    rewrite (@lstrip_fixed c t' H). rewrite <- E. apply rstrip_idem.
Qed.

Lemma no_double_app_r (a b : str) : no_double (a ++ b) -> no_double b.
Proof.
  induction a as [|c a IH]; [auto|]. intros H. apply IH.
  simpl in H. destruct (a ++ b); [exact I | apply H].
Qed.

Lemma no_double_app_l (a b : str) : no_double (a ++ b) -> no_double a.
Proof.
  induction a as [|c a IH]; [intros; exact I|]. intros H.
  destruct a as [|d a]; [exact I|].
  simpl in H. destruct H as [H1 H2]. split; [exact H1|].
  apply IH. exact H2.
Qed.

Lemma strip_Forall (P : ascii -> Prop) (t : str) :
  Forall P t -> Forall P (strip t).
Proof.
  intros H. unfold strip.
  destruct (lstrip_suffix t) as [s Es].
  destruct (rstrip_prefix (lstrip t)) as [s' Es'].
  rewrite Es in H. apply Forall_app in H. destruct H as [_ H].
  rewrite Es' in H. apply Forall_app in H. apply H.
Qed.

Lemma strip_no_double (t : str) : no_double t -> no_double (strip t).
Proof.
  intros H. unfold strip.
  destruct (lstrip_suffix t) as [s Es].
  destruct (rstrip_prefix (lstrip t)) as [s' Es'].
  rewrite Es in H. apply no_double_app_r in H.
  rewrite Es' in H. apply no_double_app_l in H. exact H.
Qed.

End StripFacts.

Section SqueezeFacts.

Lemma sub_spaces_squeeze (t : str) :
  (forall p, Re.sub_from TextPreprocessor.spaces (txt " ") p t 0
             = squeeze false t)
  /\ (forall p, Re.sub_from TextPreprocessor.spaces (txt " ") p t
                            (run_len is_space t)
                = squeeze true t).
Proof.
  induction t as [|c t [IH0 IH1]]; [split; reflexivity|].
  assert (H0 : forall p, Re.sub_from TextPreprocessor.spaces (txt " ") p
                                     (c :: t) 0 = squeeze false (c :: t)).
  { intros p. cbn [Re.sub_from squeeze]. unfold TextPreprocessor.spaces.
    cbn [run_len]. destruct (is_space c).
    - rewrite IH1. reflexivity.
    - rewrite IH0. reflexivity. }
  split; [exact H0|].
  intros p. cbn [run_len]. destruct (is_space c) eqn:E.
  - cbn [Re.sub_from squeeze]. rewrite E. apply IH1.
  - rewrite H0. cbn [squeeze]. rewrite E. reflexivity.
Qed.

Lemma squeeze_true_head (t : str) :
  match squeeze true t with
  | [] => True
  | c :: _ => is_space c = false
  end.
Proof.
  induction t as [|c t IH]; simpl; [exact I|].
  destruct (is_space c) eqn:E; [exact IH | exact E].
Qed.

Lemma squeeze_no_double (t : str) (b : bool) : no_double (squeeze b t).
Proof.
  revert b. induction t as [|c t IH]; intros b; simpl; [exact I|].
  destruct (is_space c) eqn:E.
  - destruct b; [apply IH|].
    pose proof (squeeze_true_head t) as Hh. pose proof (IH true) as Hn.
    destruct (squeeze true t) as [|d u]; [exact I|].
    split; [rewrite Hh; apply andb_false_r | exact Hn].
  - pose proof (IH false) as Hn.
    destruct (squeeze false t) as [|d u]; [exact I|].
    split; [rewrite E; reflexivity | exact Hn].
Qed.

Lemma squeeze_clean (t : str) (b : bool) :
  Forall (fun c => (code c <? 128) && negb (is_upper c)
                   && TextPreprocessor.keep c = true) t ->
  Forall (fun c => clean_char c = true) (squeeze b t).
Proof.
  intros H. revert b. induction H as [|c t Hc Ht IH]; intros b; simpl.
  - constructor.
  - destruct (is_space c) eqn:E.
    + destruct b; [apply IH|]. constructor; [reflexivity | apply IH].
    + constructor; [apply clean_not_space; assumption | apply IH].
Qed.

End SqueezeFacts.

Section CleanFacts.

Lemma Forall_firstn_skipn (P : ascii -> Prop) (t : str) (a b : nat) :
  Forall P t -> Forall P (firstn a (skipn b t)).
Proof.
  intros H. rewrite <- (firstn_skipn b t) in H.
  apply Forall_app in H. destruct H as [_ H].
  rewrite <- (firstn_skipn a (skipn b t)) in H.
  apply Forall_app in H. apply H.
Qed.

Lemma existsb_none (P : ascii -> bool) (t : str) :
  Forall (fun c => P c = false) t -> existsb P t = false.
Proof.
  induction 1 as [|c t Hc Ht IH]; simpl; [reflexivity|].
  rewrite Hc, IH. reflexivity.
Qed.

Lemma clean_tail (c : ascii) (t : str) :
  Forall (fun c => clean_char c = true) (c :: t) ->
  Forall (fun c => clean_char c = true) t.
Proof. intros H. inversion H; assumption. Qed.

Lemma clean_lower (t : str) :
  Forall (fun c => clean_char c = true) t -> lower t = t.
Proof.
  induction 1 as [|c t Hc Ht IH]; simpl; [reflexivity|].
  fold (lower t). rewrite IH. f_equal.
  apply clean_facts in Hc. destruct Hc as (_ & Hu & _).
  unfold lower_char. rewrite Hu. reflexivity.
Qed.

Lemma clean_nfkd (t : str) :
  Forall (fun c => clean_char c = true) t ->
  flat_map TextPreprocessor.nfkd_ascii t = t.
Proof.
  induction 1 as [|c t Hc Ht IH]; simpl; [reflexivity|].
  rewrite IH. apply clean_facts in Hc. destruct Hc as (Ha & _).
  unfold TextPreprocessor.nfkd_ascii. rewrite Ha. reflexivity.
Qed.

Lemma clean_email (t : str) :
  Forall (fun c => clean_char c = true) t ->
  Re.sub TextPreprocessor.email (txt " ") t = t.
Proof.
  intros H.
  apply (@sub_id TextPreprocessor.email (txt " ")
                 (fun t => Forall (fun c => clean_char c = true) t) t);
    [apply clean_tail | | exact H].
  intros prev u k Hu E. exfalso.
  unfold TextPreprocessor.email in E.
  rewrite existsb_none in E; [discriminate|].
  apply Forall_firstn_skipn.
  eapply Forall_impl; [|exact Hu].
  intros c Hc. apply (clean_facts c Hc).
Qed.

Lemma sub_symbol_map (t : str) (p : option ascii) :
  Re.sub_from TextPreprocessor.symbol (txt " ") p t 0
  = map (fun c => if TextPreprocessor.keep c then c else " "%char) t.
Proof.
  revert p. induction t as [|c t IH]; intros p; [reflexivity|].
  cbn [Re.sub_from map]. unfold TextPreprocessor.symbol.
  destruct (TextPreprocessor.keep c); rewrite IH; reflexivity.
Qed.

Lemma clean_symbol (t : str) :
  Forall (fun c => clean_char c = true) t ->
  Re.sub TextPreprocessor.symbol (txt " ") t = t.
Proof.
  intros H. unfold Re.sub. rewrite sub_symbol_map.
  induction H as [|c t Hc Ht IH]; simpl; [reflexivity|].
  rewrite IH. apply clean_facts in Hc. destruct Hc as (_ & _ & Hk & _).
  rewrite Hk. reflexivity.
Qed.

Lemma clean_spaces (t : str) :
  Forall (fun c => clean_char c = true) t -> no_double t ->
  Re.sub TextPreprocessor.spaces (txt " ") t = t.
Proof.
  intros Hc Hn.
  apply (@sub_id TextPreprocessor.spaces (txt " ")
                 (fun t => Forall (fun c => clean_char c = true) t
                           /\ no_double t) t); [| |split; assumption].
  - intros c u [H1 H2]. split; [eapply clean_tail; eassumption|].
    destruct u; [exact I | apply H2].
  - intros prev u k [H1 H2] E. unfold TextPreprocessor.spaces in E.
    destruct u as [|c u]; [discriminate|]. cbn [run_len] in E.
    destruct (is_space c) eqn:Es; [|discriminate].
    injection E as E.
    inversion H1 as [|? ? Hcc Hcu]; subst.
    assert (c = " "%char) by (apply clean_space; assumption). subst c.
    assert (Hr : run_len is_space u = 0).
    { destruct u as [|d u]; [reflexivity|]. cbn [run_len].
      destruct H2 as [H2 _]. rewrite Es in H2. simpl in H2.
      rewrite H2. reflexivity. }
    rewrite Hr. split; [reflexivity | simpl; lia].
Qed.

Lemma starts_with_firstn (p t : str) :
  starts_with p t = true -> firstn (length p) t = p /\ length p <= length t.
Proof.
  revert t. induction p as [|a p IH]; intros t H.
  - split; [reflexivity | simpl; lia].
  - destruct t as [|b t]; [discriminate|]. simpl in H.
    apply andb_true_iff in H. destruct H as [E H].
    apply Ascii.eqb_eq in E. subst b.
    destruct (IH _ H) as [F L]. simpl. rewrite F. split; [reflexivity | lia].
Qed.

Lemma lower_idem (t : str) : lower (lower t) = lower t.
Proof.
  unfold lower. rewrite map_map. apply map_ext. apply lower_char_idem.
Qed.

Lemma clean_word_literal_ci (m t : str) :
  Forall (fun c => clean_char c = true) t ->
  Re.sub (Re.word_literal_ci (lower m)) (lower m) t = t.
Proof.
  intros H.
  apply (@sub_id (Re.word_literal_ci (lower m)) (lower m)
                 (fun t => Forall (fun c => clean_char c = true) t) t);
    [apply clean_tail | | exact H].
  intros prev u k Hu E. unfold Re.word_literal_ci in E.
  destruct (Re.boundary prev (hd_error u)
            && starts_with (lower (lower m)) (lower u)
            && Re.boundary (Re.char_before prev u (length (lower m)))
                           (nth_error u (length (lower m)))) eqn:B;
    [|discriminate].
  injection E as E.
  apply andb_true_iff in B. destruct B as [B _].
  apply andb_true_iff in B. destruct B as [_ B].
  rewrite lower_idem, (clean_lower Hu) in B.
  apply starts_with_firstn in B. rewrite E in B. exact B.
Qed.

Lemma clean_reinforce (t pattern : str) :
  Forall (fun c => clean_char c = true) t ->
  TextPreprocessor.reinforce t pattern = t.
Proof.
  intros H. unfold TextPreprocessor.reinforce.
  induction (Re.findall (Re.word_literal_ci pattern) t) as [|m ms IH];
    [reflexivity|].
  cbn [fold_left]. rewrite (clean_word_literal_ci m H). exact IH.
Qed.

Lemma clean_patterns (t : str) (patterns : list str) :
  Forall (fun c => clean_char c = true) t ->
  fold_left TextPreprocessor.reinforce patterns t = t.
Proof.
  intros H. induction patterns as [|p ps IH]; [reflexivity|].
  cbn [fold_left]. rewrite (clean_reinforce p H). exact IH.
Qed.

End CleanFacts.

Section ProcessFacts.

Let base (c : ascii) : Prop := (code c <? 128) && negb (is_upper c) = true.

Lemma nfkd_Forall (t : str) :
  Forall (fun c => (code c <? 128) = true)
         (flat_map TextPreprocessor.nfkd_ascii t).
Proof.
  induction t as [|c t IH]; simpl; [constructor|].
  apply Forall_app. split; [|exact IH].
  apply Forall_forall. intros d Hd.
  pose proof (nfkd_is_ascii c) as H. rewrite forallb_forall in H.
  apply H. exact Hd.
Qed.

Lemma lower_Forall (t : str) :
  Forall (fun c => (code c <? 128) = true) t -> Forall base (lower t).
Proof.
  induction 1 as [|c t Hc Ht IH]; simpl; [constructor|].
  constructor; [apply lower_char_ascii; exact Hc | exact IH].
Qed.

Lemma symbol_Forall (t : str) :
  Forall base t ->
  Forall (fun c => (code c <? 128) && negb (is_upper c)
                   && TextPreprocessor.keep c = true)
         (Re.sub TextPreprocessor.symbol (txt " ") t).
Proof.
  intros H. unfold Re.sub. rewrite sub_symbol_map.
  induction H as [|c t Hc Ht IH]; simpl; [constructor|].
  constructor; [apply keep_or_space; exact Hc | exact IH].
Qed.

(** Every output of [process] is normalized. *)
Lemma process_normalized (text : str) :
  normalized (TextPreprocessor.process text).
Proof.
  destruct text as [|c0 text].
  { repeat split; constructor. }
  unfold TextPreprocessor.process.
  set (t1 := flat_map TextPreprocessor.nfkd_ascii (c0 :: text)).
  set (t2 := Re.sub TextPreprocessor.phone (txt " ")
               (Re.sub TextPreprocessor.email (txt " ")
                  (Re.sub TextPreprocessor.url (txt " ") t1))).
  assert (H2 : Forall (fun c => (code c <? 128) = true) t2).
  { unfold t2, Re.sub.
    repeat (apply sub_from_Forall; [repeat constructor|]).
    apply nfkd_Forall. }
  set (t3 := Re.sub TextPreprocessor.symbol (txt " ") (lower t2)).
  assert (H3 : Forall (fun c => (code c <? 128) && negb (is_upper c)
                                && TextPreprocessor.keep c = true) t3)
    by (apply symbol_Forall, lower_Forall, H2).
  set (t4 := strip (Re.sub TextPreprocessor.spaces (txt " ") t3)).
  assert (H4 : normalized t4).
  { unfold t4, Re.sub. rewrite (proj1 (sub_spaces_squeeze t3)).
    split; [|split].
    - apply strip_Forall, squeeze_clean, H3.
    - apply strip_no_double, squeeze_no_double.
    - apply strip_idem. }
  rewrite (clean_patterns _ (proj1 H4)). exact H4.
Qed.

(** A normalized text on which neither the URL pattern nor the phone
    pattern matches is left as it is. *)
Lemma process_fixed (t : str) :
  normalized t ->
  Re.search TextPreprocessor.url t = false ->
  Re.search TextPreprocessor.phone t = false ->
  TextPreprocessor.process t = t.
Proof.
  intros (Hc & Hn & Hs) Hu Hp.
  destruct t as [|c0 t]; [reflexivity|].
  unfold TextPreprocessor.process.
  rewrite (clean_nfkd Hc).
  rewrite (@sub_no_match TextPreprocessor.url (txt " ")
             (fun _ _ _ => eq_refl) _ Hu).
  rewrite (clean_email Hc).
  rewrite (@sub_no_match TextPreprocessor.phone (txt " ")
             (fun _ _ _ => eq_refl) _ Hp).
  rewrite (clean_lower Hc), (clean_symbol Hc), (clean_spaces Hc Hn), Hs.
  apply clean_patterns. exact Hc.
Qed.

End ProcessFacts.

(** C7 (as the code has it): a second pass of [process] changes nothing
    when the first pass's output holds no match of the URL pattern or of
    the phone pattern. *)
Theorem process_idempotent (x : str) :
  Re.search TextPreprocessor.url (TextPreprocessor.process x) = false ->
  Re.search TextPreprocessor.phone (TextPreprocessor.process x) = false ->
  TextPreprocessor.process (TextPreprocessor.process x)
  = TextPreprocessor.process x.
Proof.
  intros Hu Hp. apply process_fixed; [apply process_normalized | | ]; assumption.
Qed.

Lemma process_idempotent_witness :
  let x := txt "  I know C++ and C#, Node.JS; mail a.b@c.com, (555) 123-4567 " in
  TextPreprocessor.process x = txt "i know c++ and c# node.js mail"
  /\ TextPreprocessor.process (TextPreprocessor.process x)
     = TextPreprocessor.process x.
Proof.
  intros x. split; [vm_compute; reflexivity|].
  apply (process_idempotent x); vm_compute; reflexivity.
Defined.

(** C7 (as stated) fails: the URL pattern is applied before lowercasing
    and the phone pattern before punctuation is blanked, so the first pass
    can produce what the second pass removes. *)
Lemma process_not_idempotent :
  TextPreprocessor.process (txt "HTTPS") = txt "https"
  /\ TextPreprocessor.process (TextPreprocessor.process (txt "HTTPS")) = []
  /\ TextPreprocessor.process (TextPreprocessor.process (txt "HTTPS"))
     <> TextPreprocessor.process (txt "HTTPS")
  /\ TextPreprocessor.process (txt "123,456,7890") = txt "123 456 7890"
  /\ TextPreprocessor.process (TextPreprocessor.process (txt "123,456,7890"))
     <> TextPreprocessor.process (txt "123,456,7890").
Proof.
  repeat split; try (vm_compute; reflexivity); vm_compute; discriminate.
Qed.

(* ================================================================== *)
(** * Further properties: the taxonomy *)

Section LastWins.

Lemma find_app_first (A : Type) (p : A -> bool) (l1 l2 : list A) :
  List.find p (l1 ++ l2)
  = match List.find p l1 with
    | Some x => Some x
    | None => List.find p l2
    end.
Proof.
  induction l1 as [|a l1 IH]; simpl; [reflexivity|].
  destruct (p a); [reflexivity | exact IH].
Qed.

Lemma last_with_cons (A : Type) (p : A -> bool) (a : A) (l : list A) :
  last_with p (a :: l)
  = match last_with p l with
    | Some x => Some x
    | None => if p a then Some a else None
    end.
Proof.
  unfold last_with. simpl. rewrite find_app_first. simpl.
  destruct (List.find p (rev l)); [reflexivity|].
  destruct (p a); reflexivity.
Qed.

Lemma get_set (V : Type) (d : Dict.t V) (k k' : str) (v : V) :
  Dict.get k' (Dict.set k v d)
  = if Str.eqb k k' then Some v else Dict.get k' d.
Proof.
  destruct (Str.eqb k k') eqn:E.
  - apply eqb_eq in E. subst. apply get_set_same.
  - apply get_set_other. apply eqb_neq. exact E.
Qed.

(** A dictionary filled by assignments in list order answers with the
    last assignment to the key. *)
Lemma fold_set_last (A V : Type) (kf : A -> str) (vf : A -> V)
      (l : list A) (d : Dict.t V) (k : str) :
  Dict.get k (fold_left (fun d a => Dict.set (kf a) (vf a) d) l d)
  = match last_with (fun a => Str.eqb (kf a) k) l with
    | Some a => Some (vf a)
    | None => Dict.get k d
    end.
Proof.
  revert d. induction l as [|a l IH]; intros d; [reflexivity|].
  cbn [fold_left]. rewrite IH, last_with_cons, get_set.
  destruct (last_with (fun a0 => Str.eqb (kf a0) k) l); [reflexivity|].
  destruct (Str.eqb (kf a) k); reflexivity.
Qed.

Lemma variant_index_fold (l : list Skill) (self : SkillTaxonomy) (v : str) :
  Dict.get v (_variant_index (fold_left _register l self))
  = match last_with (fun sk => mem v (variants sk)) l with
    | Some sk => Some sk
    | None => Dict.get v (_variant_index self)
    end.
Proof.
  revert self. induction l as [|a l IH]; intros self; [reflexivity|].
  cbn [fold_left]. rewrite IH, last_with_cons.
  destruct (last_with (fun sk => mem v (variants sk)) l); [reflexivity|].
  unfold _register; cbn [_variant_index]. rewrite fold_set_get.
  destruct (mem v (variants a)); reflexivity.
Qed.

Lemma skills_fold (l : list Skill) (self : SkillTaxonomy) :
  _skills (fold_left _register l self)
  = fold_left (fun d sk => Dict.set (lower (name sk)) sk d) l (_skills self).
Proof.
  revert self. induction l as [|a l IH]; intros self; [reflexivity|].
  cbn [fold_left]. rewrite IH. reflexivity.
Qed.

End LastWins.

(** X1: after registering any list of skills, [get_by_variant] is case
    insensitive and answers with the skill registered last among those
    that list the lowercased input as a variant; it answers [None] exactly
    when no registered skill lists it. *)
Theorem get_by_variant_last_wins (l : list Skill) (variant : str) :
  let taxonomy := fold_left _register l (mkTaxonomy [] []) in
  get_by_variant taxonomy variant
  = last_with (fun sk => mem (lower variant) (variants sk)) l
  /\ get_by_variant taxonomy (lower variant) = get_by_variant taxonomy variant
  /\ (get_by_variant taxonomy variant = None <->
      forall sk, In sk l -> ~ In (lower variant) (variants sk)).
Proof.
  intros taxonomy.
  assert (E : forall v, get_by_variant taxonomy v
                        = last_with (fun sk => mem (lower v) (variants sk)) l).
  { intros v. unfold get_by_variant, taxonomy. rewrite variant_index_fold.
    destruct (last_with _ l); reflexivity. }
  split; [apply E|]. split; [rewrite !E, lower_idem; reflexivity|].
  rewrite E. unfold last_with. split.
  - intros H sk Hin Hv.
    apply in_rev in Hin. pose proof (find_none _ _ H sk Hin) as N.
    cbv beta in N. apply mem_In in Hv. congruence.
  - intros H. destruct (List.find _ (rev l)) as [sk|] eqn:F; [|reflexivity].
    apply find_some in F. destruct F as [Hin Hm].
    apply in_rev in Hin. apply mem_In in Hm. destruct (H sk Hin Hm).
Qed.

(** X2: after registering any list of skills, the skills of the taxonomy
    have pairwise distinct lowercased names, and under each lowercased
    name stands the skill registered last with it; the variant index is
    not pruned on such a replacement, so a variant can resolve to a skill
    that is no longer among the skills of the taxonomy. *)
Theorem taxonomy_skills_last_wins (l : list Skill) (k : str) :
  let taxonomy := fold_left _register l (mkTaxonomy [] []) in
  NoDup (map (fun sk => lower (name sk)) (get_all_skills taxonomy))
  /\ Dict.get k (_skills taxonomy)
     = last_with (fun sk => Str.eqb (lower (name sk)) k) l
  /\ (forall sk, In sk (get_all_skills taxonomy) -> In sk l)
  /\ exists (l' : list Skill) (v : str) (old : Skill),
      let replaced := fold_left _register l' (mkTaxonomy [] []) in
      get_by_variant replaced v = Some old
      /\ ~ In old (get_all_skills replaced).
Proof.
  intros taxonomy.
  assert (W : skills_wf (_skills taxonomy))
    by (apply load_wf; split; constructor).
  split; [|split; [|split]].
  - unfold get_all_skills. rewrite (wf_keys W). apply W.
  - unfold taxonomy. rewrite skills_fold.
    rewrite (fold_set_last (fun sk => lower (name sk)) (fun sk => sk)).
    destruct (last_with _ l); reflexivity.
  - intros sk Hin. unfold get_all_skills, Dict.values in Hin.
    apply in_map_iff in Hin. destruct Hin as ([k' sk'] & <- & Hin).
    cbn [snd]. destruct W as [Hnd _].
    pose proof (In_get _ _ _ Hnd Hin) as G.
    unfold taxonomy in G. rewrite skills_fold in G.
    rewrite (fold_set_last (fun sk => lower (name sk)) (fun sk => sk)) in G.
    unfold last_with in G.
    destruct (List.find _ (rev l)) as [s|] eqn:F; [|discriminate].
    injection G as <-. apply find_some in F. apply in_rev, F.
  - exists [new_Skill "Java" LANGUAGES 1.2%float ["jdk"]%string false;
            new_Skill "java" LANGUAGES 1.0%float ["jvm"]%string false].
    exists (txt "jdk").
    exists (new_Skill "Java" LANGUAGES 1.2%float ["jdk"]%string false).
    split; [vm_compute; reflexivity|].
    vm_compute. intros [H|[]]. discriminate H.
Qed.

(* ================================================================== *)
(** * Further properties: the matchers *)

Section ContextFacts.

Lemma lstrip_length (t : str) : length (lstrip t) <= length t.
Proof.
  destruct (lstrip_suffix t) as [s E]. rewrite E at 2.
  rewrite length_app. lia.
Qed.

Lemma rstrip_length (t : str) : length (rstrip t) <= length t.
Proof.
  destruct (rstrip_prefix t) as [s E]. rewrite E at 2.
  rewrite length_app. lia.
Qed.

Lemma strip_length (t : str) : length (strip t) <= length t.
Proof.
  unfold strip. pose proof (rstrip_length (lstrip t)).
  pose proof (lstrip_length t). lia.
Qed.

Lemma slice_length (t : str) (start stop : nat) :
  length (slice t start stop) <= stop - start.
Proof. unfold slice. rewrite length_firstn. lia. Qed.

Lemma find_contains (p t : str) :
  contains p t = true <-> exists i, Str.find p t = Some i.
Proof.
  induction t as [|c t IH]; simpl.
  - destruct (starts_with p []); simpl; split; eauto; try discriminate.
    intros [i H]; discriminate.
  - destruct (starts_with p (c :: t)); simpl; [split; eauto|].
    rewrite IH. split.
    + intros [i ->]. eexists; reflexivity.
    + intros [i H]. destruct (Str.find p t); [eauto | discriminate].
Qed.

Lemma find_bound (p t : str) (i : nat) :
  Str.find p t = Some i -> i <= length t.
Proof.
  revert i. induction t as [|c t IH]; intros i; simpl.
  - destruct (starts_with p []); [intros [= <-]; lia | discriminate].
  - destruct (starts_with p (c :: t)); [intros [= <-]; lia|].
    destruct (Str.find p t) as [j|]; [|discriminate].
    intros [= <-]. specialize (IH j eq_refl). lia.
Qed.

End ContextFacts.

(** X3: [_extract_context] is empty when the term does not occur in the
    text (case-insensitively); it is never longer than the term plus the
    two windows of 50 characters and the two ellipses; and for a text that
    has, like its lowercased form, at most 50 characters and contains the
    term, it is the stripped text, without ellipsis.  The index is searched
    in the lowercased text and used in the text itself, so the bound on the
    lowercased form is what keeps the start of the window at 0. *)
Theorem extract_context_bounds (text term : str) :
  (contains (lower term) (lower text) = false ->
   ExactMatcher._extract_context text term = [])
  /\ length (ExactMatcher._extract_context text term) <= length term + 106
  /\ (length text <= 50 -> length (lower text) <= 50 ->
      contains (lower term) (lower text) = true ->
      ExactMatcher._extract_context text term = strip text).
Proof.
  unfold ExactMatcher._extract_context.
  destruct (Str.find (lower term) (lower text)) as [idx|] eqn:F.
  - assert (Hc : contains (lower term) (lower text) = true)
      by (apply find_contains; eauto).
    split; [rewrite Hc; discriminate|]. split.
    + set (start := idx - 50).
      set (stop := Nat.min (length text) (idx + length term + 50)).
      pose proof (strip_length (slice text start stop)) as H1.
      pose proof (slice_length text start stop) as H2.
      assert (H3 : stop - start <= length term + 100) by (unfold start, stop; lia).
      destruct (0 <? start), (stop <? length text);
        rewrite ?length_app; cbn [length txt list_ascii_of_string]; lia.
    + intros Hl Hll _. apply find_bound in F.
      replace (idx - 50) with 0 by lia.
      replace (Nat.min (length text) (idx + length term + 50))
        with (length text) by lia.
      rewrite !Nat.ltb_irrefl.
      unfold slice. rewrite Nat.sub_0_r. cbn [skipn].
      rewrite firstn_all. reflexivity.
  - split; [reflexivity|]. split; [simpl; lia|].
    intros _ _ Hc. apply find_contains in Hc. destruct Hc as [i Hi]. congruence.
Qed.

Lemma extract_context_bounds_witness :
  ExactMatcher._extract_context (txt " I use Go and Py ") (txt "GO")
  = txt "I use Go and Py".
Proof.
  apply (proj2 (proj2 (extract_context_bounds (txt " I use Go and Py ") (txt "GO"))));
    vm_compute; [lia | lia | reflexivity].
Defined.

Section TokenFacts.

Lemma findall_from_In (m : Re.matcher) (t : str) :
  forall prev skip x,
    In x (Re.findall_from m prev t skip) ->
    exists prev' t' k, m prev' t' = Some (S k) /\ x = firstn (S k) t'.
Proof.
  induction t as [|c t IH]; intros prev skip x H; simpl in H; [destruct H|].
  destruct skip as [|s]; [|apply (IH _ _ _ H)].
  destruct (m prev (c :: t)) as [[|k]|] eqn:E.
  - apply (IH _ _ _ H).
  - destruct H as [<-|H]; [eauto | apply (IH _ _ _ H)].
  - apply (IH _ _ _ H).
Qed.

Lemma longest_end_bound (prev : option ascii) (t : str) (n j : nat) :
  FuzzyMatcher.longest_end prev t n = Some j -> 4 <= j <= n.
Proof.
  induction n as [|n IH]; [discriminate|].
  cbn [FuzzyMatcher.longest_end].
  destruct ((4 <=? S n)
            && Re.boundary (Re.char_before prev t (S n)) (nth_error t (S n)))
           eqn:E.
  - intros [= <-]. apply andb_true_iff in E. destruct E as [E _].
    apply Nat.leb_le in E. lia.
  - intros H. specialize (IH H). lia.
Qed.

Lemma run_firstn (P : ascii -> bool) (t : str) (j : nat) :
  j <= run_len P t ->
  length (firstn j t) = j /\ Forall (fun c => P c = true) (firstn j t).
Proof.
  revert j. induction t as [|c t IH]; intros j H; simpl in H.
  - assert (j = 0) by lia. subst. split; [reflexivity | constructor].
  - destruct j as [|j]; [split; [reflexivity | constructor]|].
    destruct (P c) eqn:E; [|lia].
    destruct (IH j) as [L F]; [lia|]. simpl. rewrite L.
    split; [reflexivity | constructor; assumption].
Qed.

End TokenFacts.

(** X4: every token the fuzzy matcher compares has at least four
    characters, all of them word characters, [+], [#] or [.]. *)
Theorem fuzzy_tokens_shape (text tok : str) :
  In tok (Re.findall FuzzyMatcher.token text) ->
  4 <= length tok
  /\ Forall (fun c => FuzzyMatcher.is_token_char c = true) tok.
Proof.
  intros H. apply findall_from_In in H.
  destruct H as (prev & t & k & E & ->).
  unfold FuzzyMatcher.token in E.
  destruct (Re.boundary prev (hd_error t)); [|discriminate].
  apply longest_end_bound in E.
  destruct (@run_firstn FuzzyMatcher.is_token_char t (S k)) as [L F]; [lia|].
  rewrite L. split; [lia | exact F].
Qed.

Lemma fuzzy_tokens_shape_witness :
  In (txt "node.js") (Re.findall FuzzyMatcher.token (txt "i use node.js. and c++"))
  /\ 4 <= length (txt "node.js").
Proof.
  assert (H : In (txt "node.js")
                 (Re.findall FuzzyMatcher.token (txt "i use node.js. and c++")))
    by (vm_compute; left; reflexivity).
  split; [exact H|].
  apply (fuzzy_tokens_shape (txt "i use node.js. and c++") (txt "node.js") H).
Defined.

Section PureCascade.

Variable f : Skill -> option SkillMatch.
Hypothesis f_skill : forall sk m, f sk = Some m -> skill m = sk.

Lemma picks_fresh (k : str) (seen : list str) (skills : list Skill) :
  ~ In k (map (fun s => lower (name s)) skills) ->
  picks f (k :: seen) skills = picks f seen skills.
Proof.
  induction skills as [|sk rest IH]; intros H; [reflexivity|].
  unfold picks in *. cbn [flat_map]. rewrite IH.
  - f_equal. cbn [mem existsb]. fold (mem (lower (name sk)) seen).
    replace (Str.eqb (lower (name sk)) k) with false; [reflexivity|].
    symmetry. apply eqb_neq. intros E. apply H. left. exact E.
  - intros Hin. apply H. right. exact Hin.
Qed.

Lemma cascade_pure (skills : list Skill) :
  NoDup (map (fun s => lower (name s)) skills) ->
  forall acc seen,
    cascade (fun sk => Ok (f sk)) skills acc seen
    = Ok (acc ++ picks f seen skills,
          rev (map key_of (picks f seen skills)) ++ seen).
Proof.
  induction skills as [|sk rest IH]; intros Hnd acc seen.
  - simpl. rewrite app_nil_r. reflexivity.
  - inversion Hnd as [|? ? Hfresh Hnd']; subst.
    rewrite cascade_cons. unfold picks at 1 2. cbn [flat_map].
    fold (picks f seen rest).
    destruct (mem (lower (name sk)) seen) eqn:Hs; [apply (IH Hnd')|].
    cbn [bind]. destruct (f sk) as [m|] eqn:Hf; [|apply (IH Hnd')].
    rewrite (IH Hnd'), (@picks_fresh (lower (name sk)) seen rest Hfresh).
    cbn [app map rev]. rewrite <- !app_assoc. cbn [app].
    unfold key_of at 3. rewrite (f_skill Hf). reflexivity.
Qed.

End PureCascade.

(** X5: with any taxonomy built by registration, the exact and the
    variant matcher return, in the order of the taxonomy, one match for
    each skill that is not in [seen] and that they find in the text, and
    return [seen] extended by the keys of exactly those skills. *)
Theorem exact_and_variant_matches (l : list Skill) (text : str) (seen : list str) :
  let taxonomy := fold_left _register l (mkTaxonomy [] []) in
  let exact :=
    picks (fun sk =>
             if ExactMatcher.found (lower text) sk
             then Some (mkSkillMatch sk "exact" 1.0%float
                          (ExactMatcher._extract_context text (name sk)))
             else None) seen (get_all_skills taxonomy) in
  let variant :=
    picks (fun sk =>
             match VariantMatcher.first_found (lower text) sk with
             | Some v => Some (mkSkillMatch sk "variant" 0.98%float
                                 (ExactMatcher._extract_context text v))
             | None => None
             end) seen (get_all_skills taxonomy) in
  ExactMatcher.find_matches text taxonomy seen
  = Ok (exact, rev (map key_of exact) ++ seen)
  /\ VariantMatcher.find_matches text taxonomy seen
     = Ok (variant, rev (map key_of variant) ++ seen).
Proof.
  intros taxonomy exact variant.
  assert (Hnd : NoDup (map (fun s => lower (name s)) (get_all_skills taxonomy))).
  { assert (W : skills_wf (_skills taxonomy))
      by (apply load_wf; split; constructor).
    unfold get_all_skills. rewrite (wf_keys W). apply W. }
  split.
  - unfold ExactMatcher.find_matches. rewrite exact_loop_cascade.
    unfold exact_attempt. rewrite cascade_pure; [reflexivity | | exact Hnd].
    intros sk m. destruct (ExactMatcher.found (lower text) sk);
      [intros [= <-]; reflexivity | discriminate].
  - unfold VariantMatcher.find_matches. rewrite variant_loop_cascade.
    unfold variant_attempt. rewrite cascade_pure; [reflexivity | | exact Hnd].
    intros sk m. destruct (VariantMatcher.first_found (lower text) sk);
      [intros [= <-]; reflexivity | discriminate].
Qed.

Section FuzzyInversion.

Variable fuzz : str -> str -> result float.
Variable th : float.

Lemma first_token_inv (cand : str) (tokens : list str) (tok : str) (sim : float) :
  FuzzyMatcher.first_token fuzz th cand tokens = Ok (Some (tok, sim)) ->
  In tok tokens /\ fuzz tok cand = Ok sim /\ Py.geb sim th = true.
Proof.
  induction tokens as [|t rest IH]; [discriminate|].
  cbn [FuzzyMatcher.first_token].
  destruct (fuzz t cand) as [x|e] eqn:E; cbn [bind]; [|discriminate].
  destruct (Py.geb x th) eqn:G.
  - intros [= <- <-]. repeat split; [left; reflexivity | exact E | exact G].
  - intros H. destruct (IH H) as (H1 & H2 & H3). repeat split; auto.
    right; exact H1.
Qed.

Lemma first_candidate_inv (cands tokens : list str) (tok : str) (sim : float) :
  FuzzyMatcher.first_candidate fuzz th cands tokens = Ok (Some (tok, sim)) ->
  exists cand, In cand cands /\ In tok tokens
               /\ fuzz tok cand = Ok sim /\ Py.geb sim th = true.
Proof.
  induction cands as [|c rest IH]; [discriminate|].
  cbn [FuzzyMatcher.first_candidate].
  destruct (FuzzyMatcher.first_token fuzz th c tokens) as [[[t s]|]|e] eqn:E;
    cbn [bind]; [| |discriminate].
  - intros [= <- <-]. apply first_token_inv in E.
    exists c. split; [left; reflexivity | exact E].
  - intros H. destruct (IH H) as (cand & Hc & Hrest).
    exists cand. split; [right; exact Hc | exact Hrest].
Qed.

End FuzzyInversion.

(** X6: whatever [fuzz.ratio] computes, every match the fuzzy matcher
    returns is for a taxonomy skill that is not strict and was not in
    [seen], is tagged fuzzy, and has as confidence a hundredth of a ratio,
    at least the threshold, between a token of the lowercased text and the
    skill's lowercased name or one of its variants; no skill is matched
    twice, and the returned [seen] is the given one extended by the keys
    of the matches. *)
Theorem fuzzy_matches_sound (fuzz : str -> str -> result float) (th : float)
        (l : list Skill) (text : str) (seen : list str)
        (ms : list SkillMatch) (seen' : list str) :
  let taxonomy := fold_left _register l (mkTaxonomy [] []) in
  FuzzyMatcher.find_matches fuzz th text taxonomy seen = Ok (ms, seen') ->
  (forall m, In m ms ->
     In (skill m) (get_all_skills taxonomy)
     /\ strict_match (skill m) = false
     /\ ~ In (key_of m) seen
     /\ match_type m = "fuzzy"%string
     /\ exists tok cand sim,
         In tok (Re.findall FuzzyMatcher.token (lower text))
         /\ In cand (lower (name (skill m)) :: variants (skill m))
         /\ fuzz tok cand = Ok sim
         /\ Py.geb sim th = true
         /\ confidence m = (sim / 100)%float
         /\ context m = ExactMatcher._extract_context text tok)
  /\ NoDup (map key_of ms)
  /\ (forall k, In k seen' <-> In k seen \/ In k (map key_of ms)).
Proof.
  intros taxonomy H.
  assert (Hnd : NoDup (map (fun s => lower (name s)) (get_all_skills taxonomy))).
  { assert (W : skills_wf (_skills taxonomy))
      by (apply load_wf; split; constructor).
    unfold get_all_skills. rewrite (wf_keys W). apply W. }
  unfold FuzzyMatcher.find_matches in H. rewrite fuzzy_loop_cascade in H.
  destruct (@cascade_spec _
              (fun sk m Ha => proj1 (@fuzzy_attempt_inv fuzz th text _ sk m Ha))
              _ Hnd _ _ _ _ H)
    as (new & N & S & D & Sound & _).
  cbn [app] in N. subst new.
  split; [|split; [exact D | exact S]].
  intros m Hm. destruct (Sound m Hm) as (Hin & Hns & Ha).
  split; [exact Hin|].
  unfold fuzzy_attempt in Ha.
  destruct (strict_match (skill m)) eqn:St; [discriminate|].
  destruct (FuzzyMatcher.first_candidate fuzz th
              (lower (name (skill m)) :: variants (skill m))
              (Re.findall FuzzyMatcher.token (lower text)))
    as [[[tok sim]|]|e] eqn:F; cbn [bind] in Ha; try discriminate.
  injection Ha as Ha.
  apply first_candidate_inv in F. destruct F as (cand & Hc & Ht & Hf & Hg).
  split; [reflexivity|]. split; [exact Hns|].
  split; [rewrite <- Ha; reflexivity|].
  exists tok, cand, sim. rewrite <- Ha. repeat split; assumption.
Qed.

Lemma fuzzy_matches_sound_witness :
  exists ms seen',
    FuzzyMatcher.find_matches (fun _ _ => Ok 90%float) 88%float (txt "pythn")
      new_SkillTaxonomy [] = Ok (ms, seen')
    /\ length ms = 31
    /\ NoDup (map key_of ms).
Proof.
  destruct (FuzzyMatcher.find_matches (fun _ _ => Ok 90%float) 88%float
              (txt "pythn") new_SkillTaxonomy []) as [[ms seen']|e] eqn:E.
  - exists ms, seen'. split; [reflexivity|]. split.
    + vm_compute in E. injection E as <- _. reflexivity.
    + exact (proj1 (proj2 (@fuzzy_matches_sound (fun _ _ => Ok 90%float)
                             88%float skills_data (txt "pythn") [] ms seen' E))).
  - vm_compute in E. discriminate E.
Defined.

Lemma extract_sorted_form (fuzz : str -> str -> result float)
      (taxonomy : SkillTaxonomy) (text : str) (ms : list SkillMatch) :
  SkillExtractor.extract_skills_in fuzz taxonomy text = Ok ms ->
  exists raw, ms = Py.sorted_desc confidence raw.
Proof.
  unfold SkillExtractor.extract_skills_in. destruct text as [|c text].
  - intros [= <-]. exists []. reflexivity.
  - destruct (SkillExtractor.run _ _ _ _ _) as [raw|e]; cbn [bind];
      [|discriminate].
    intros [= <-]. exists raw. reflexivity.
Qed.

(** X7: the list [extract_skills] returns is sorted by confidence,
    descending, whenever its confidences are numbers (not NaN); so exact
    matches precede variant matches. *)
Theorem extract_skills_sorted (fuzz : str -> str -> result float)
        (taxonomy : SkillTaxonomy) (text : str) (ms : list SkillMatch) :
  SkillExtractor.extract_skills_in fuzz taxonomy text = Ok ms ->
  (forall m, In m ms -> PrimFloat.is_nan (confidence m) = false) ->
  Sorted by_confidence_desc ms.
Proof.
  intros H Hnan. destruct (extract_sorted_form _ _ _ H) as [raw ->].
  apply sorted_desc_Sorted. apply Forall_forall. intros m Hm.
  apply Hnan. apply sorted_desc_In. exact Hm.
Qed.

Lemma extract_skills_sorted_witness :
  exists ms,
    SkillExtractor.extract_skills (txt "py go") = Ok ms
    /\ map (fun m => name (skill m)) ms = [txt "Go"; txt "Python"]
    /\ Sorted by_confidence_desc ms.
Proof.
  eexists. split; [vm_compute; reflexivity|]. split; [vm_compute; reflexivity|].
  apply (extract_skills_sorted SkillExtractor.fuzz_ratio new_SkillTaxonomy
                               (txt "py go")).
  - vm_compute; reflexivity.
  - intros m Hm. vm_compute in Hm. destruct Hm as [<-|[<-|[]]]; reflexivity.
Defined.

(* ================================================================== *)
(** * Further properties: the gap analyzer *)

Section SetFacts.

Variable A : Type.
Variable inb : A -> list A -> bool.
Hypothesis inb_In : forall x l, inb x l = true <-> In x l.

Lemma filter_partition_length (f : A -> bool) (l : list A) :
  length (filter f l) + length (filter (fun x => negb (f x)) l) = length l.
Proof.
  induction l as [|x l IH]; simpl; [reflexivity|].
  destruct (f x); simpl; lia.
Qed.

Lemma inter_length_sym (a b : list A) :
  NoDup a -> NoDup b ->
  length (filter (fun x => inb x b) a) = length (filter (fun x => inb x a) b).
Proof.
  intros Ha Hb. apply Permutation_length.
  apply NoDup_Permutation; try (apply NoDup_filter; assumption).
  intros x. rewrite !filter_In, !inb_In. tauto.
Qed.

End SetFacts.

Section CountFacts.

Lemma steps_length (resume_map : Dict.t SkillMatch) (l : list str) :
  Forall (fun k => In k (Dict.keys resume_map)) l ->
  length (flat_map (strong_step resume_map) l)
  + length (flat_map (weak_step resume_map) l) = length l.
Proof.
  induction 1 as [|k l Hk Hl IH]; [reflexivity|].
  cbn [flat_map]. rewrite !length_app. unfold strong_step at 1, weak_step at 1.
  destruct (get_keys _ _ Hk) as [m ->].
  destruct (PrimFloat.leb 0.9 (confidence m)); simpl; lia.
Qed.

Lemma gaps_length (jd_map : Dict.t SkillMatch) (l : list str) :
  Forall (fun k => In k (Dict.keys jd_map)) l ->
  length (flat_map (gap_step jd_map) l) = length l.
Proof.
  induction 1 as [|k l Hk Hl IH]; [reflexivity|].
  cbn [flat_map]. rewrite length_app. unfold gap_step at 1.
  destruct (get_keys _ _ Hk) as [m ->]. simpl. lia.
Qed.

End CountFacts.

(** X8: every key of the job description is accounted for exactly once:
    the numbers of strong matches, weak matches and gaps of the report add
    up to the number of distinct skills of the job description; the
    strong and weak matches are matches of the resume, the gaps are
    matches of the job description. *)
Theorem analyze_partitions_jd
        (iter_keys : list str -> list str)
        (iter_categories : list SkillCategory -> list SkillCategory)
        (sum : list float -> float)
        (resume_skills jd_skills : list SkillMatch) :
  (forall l, Permutation (iter_keys l) l) ->
  let report :=
    GapAnalyzer.analyze iter_keys iter_categories sum resume_skills jd_skills in
  length (GapAnalysisReport.matched_skills report)
  + length (GapAnalysisReport.weak_matches report)
  + length (GapAnalysisReport.missing_skills report)
  = length (Dict.keys (GapAnalyzer.index jd_skills))
  /\ (forall m, In m (GapAnalysisReport.matched_skills report
                      ++ GapAnalysisReport.weak_matches report) ->
                In m resume_skills)
  /\ (forall g, In g (GapAnalysisReport.missing_skills report) ->
                In (SkillGap.skill_match g) jd_skills).
Proof.
  intros Hperm report. unfold report.
  rewrite analyze_matched, analyze_weak, analyze_missing.
  set (rm := GapAnalyzer.index resume_skills).
  set (jm := GapAnalyzer.index jd_skills).
  set (mk := GapAnalyzer.inter (Dict.keys rm) (Dict.keys jm)).
  set (gk := GapAnalyzer.diff (Dict.keys jm) (Dict.keys rm)).
  split; [|split].
  - rewrite steps_length.
    + rewrite (Permutation_length (sorted_desc_perm _ _)).
      rewrite gaps_length.
      * rewrite !(Permutation_length (Hperm _)).
        unfold mk, gk, GapAnalyzer.inter, GapAnalyzer.diff.
        rewrite (inter_length_sym mem mem_In).
        -- apply filter_partition_length.
        -- apply (index_wf resume_skills).
        -- apply (index_wf jd_skills).
      * apply Forall_forall. intros k Hk.
        apply (Permutation_in _ (Hperm _)) in Hk.
        unfold gk, GapAnalyzer.diff in Hk. apply filter_In in Hk. apply Hk.
    + apply Forall_forall. intros k Hk.
      apply (Permutation_in _ (Hperm _)) in Hk.
      unfold mk, GapAnalyzer.inter in Hk. apply filter_In in Hk. apply Hk.
  - intros m Hm. apply in_app_or in Hm.
    destruct Hm as [Hm|Hm]; apply in_flat_map in Hm;
      destruct Hm as (k & _ & Hm).
    + unfold strong_step in Hm. destruct (Dict.get k rm) as [m'|] eqn:E;
        [|destruct Hm].
      destruct (PrimFloat.leb 0.9 (confidence m')); [|destruct Hm].
      destruct Hm as [<-|[]]. apply (index_get _ _ E).
    + unfold weak_step in Hm. destruct (Dict.get k rm) as [m'|] eqn:E;
        [|destruct Hm].
      destruct (PrimFloat.leb 0.9 (confidence m')); [destruct Hm|].
      destruct Hm as [<-|[]]. apply (index_get _ _ E).
  - intros g Hg. apply sorted_desc_In, in_flat_map in Hg.
    destruct Hg as (k & _ & Hg). unfold gap_step in Hg.
    destruct (Dict.get k jm) as [m|] eqn:E; [|destruct Hg].
    destruct Hg as [<-|[]]. apply (index_get _ _ E).
Qed.

Lemma analyze_partitions_jd_witness :
  let report :=
    GapAnalyzer.analyze (fun l => l) (fun l => l)
      (fun xs => fold_left PrimFloat.add xs 0%float)
      (match_of "Python" 1.0%float ++ match_of "Go" 0.5%float)
      (match_of "Go" 1.0%float ++ match_of "Docker" 1.0%float
       ++ match_of "Go" 0.98%float) in
  length (GapAnalysisReport.matched_skills report)
  + length (GapAnalysisReport.weak_matches report)
  + length (GapAnalysisReport.missing_skills report) = 2.
Proof.
  intros report. unfold report.
  rewrite (proj1 (analyze_partitions_jd (fun l => l) (fun l => l)
                    (fun xs => fold_left PrimFloat.add xs 0%float)
                    (match_of "Python" 1.0%float ++ match_of "Go" 0.5%float)
                    (match_of "Go" 1.0%float ++ match_of "Docker" 1.0%float
                     ++ match_of "Go" 0.98%float)
                    (fun l => Permutation_refl l))).
  vm_compute. reflexivity.
Defined.

(** X9: the map built from a list of matches keeps, for each lowercased
    skill name, the last match of the list with that name (so of two
    matches for one skill the earlier is ignored by the analysis), and
    its keys are pairwise distinct. *)
Theorem index_last_wins (skills : list SkillMatch) (k : str) :
  Dict.get k (GapAnalyzer.index skills)
  = last_with (fun m => Str.eqb (key_of m) k) skills
  /\ NoDup (Dict.keys (GapAnalyzer.index skills)).
Proof.
  split; [|apply index_wf].
  unfold GapAnalyzer.index.
  rewrite (fold_set_last (fun m => lower (name (skill m))) (fun m => m)).
  destruct (last_with _ skills); reflexivity.
Qed.

(** X10: an impact score that is a number is at most 1.0. *)
Theorem impact_at_most_one (m : SkillMatch) :
  PrimFloat.is_nan (GapAnalyzer._compute_impact m) = false ->
  PrimFloat.leb (GapAnalyzer._compute_impact m) 1.0 = true.
Proof.
  unfold GapAnalyzer._compute_impact, Py.min.
  set (x := (weight (skill m)
             * weights_get CATEGORY_WEIGHTS (category (skill m)) 1.0 / 1.5)%float).
  destruct (PrimFloat.ltb 1.0 x) eqn:E; intros Hnan.
  - reflexivity.
  - apply not_ltb_leb; [reflexivity | exact Hnan | exact E].
Qed.

Lemma impact_at_most_one_witness :
  Forall (fun m => PrimFloat.leb (GapAnalyzer._compute_impact m) 1.0 = true)
         (match_of "Python" 1.0%float).
Proof.
  apply Forall_forall. intros m Hm. apply impact_at_most_one.
  vm_compute in Hm. destruct Hm as [<-|[]]. reflexivity.
Defined.

Section EnumFacts.

Lemma category_eqb_eq (a b : SkillCategory) : category_eqb a b = true <-> a = b.
Proof. destruct a, b; simpl; split; congruence. Qed.

Lemma priority_eqb_eq (a b : Priority) : priority_eqb a b = true <-> a = b.
Proof. destruct a, b; simpl; split; congruence. Qed.

Lemma set_of_In (l : list SkillCategory) (c : SkillCategory) :
  In c (GapAnalyzer.set_of l) <-> In c l.
Proof.
  induction l as [|x l IH]; simpl; [tauto|].
  destruct (existsb (category_eqb x) l) eqn:E.
  - rewrite IH. split; [auto|]. intros [<-|H]; [|exact H].
    apply existsb_exists in E. destruct E as (y & Hy & Exy).
    apply category_eqb_eq in Exy. subst. exact Hy.
  - simpl. rewrite IH. tauto.
Qed.

Lemma set_of_NoDup (l : list SkillCategory) : NoDup (GapAnalyzer.set_of l).
Proof.
  induction l as [|x l IH]; simpl; [constructor|].
  destruct (existsb (category_eqb x) l) eqn:E; [exact IH|].
  constructor; [|exact IH]. rewrite set_of_In. intros Hin.
  assert (existsb (category_eqb x) l = true); [|congruence].
  apply existsb_exists. exists x. split; [exact Hin|].
  apply category_eqb_eq. reflexivity.
Qed.

Lemma filter_nil (A : Type) (f : A -> bool) (l : list A) :
  filter f l = [] <-> forall x, In x l -> f x = false.
Proof.
  induction l as [|a l IH]; simpl; [tauto|].
  destruct (f a) eqn:E.
  - split; [discriminate|]. intros H. specialize (H a (or_introl eq_refl)).
    congruence.
  - rewrite IH. split; [intros H x [<-|Hx]; auto | auto].
Qed.

Lemma list_sum_perm (l l' : list nat) :
  Permutation l l' -> list_sum l = list_sum l'.
Proof. induction 1; simpl; lia. Qed.

Lemma list_sum_map_add (A : Type) (f g : A -> nat) (l : list A) :
  list_sum (map (fun x => f x + g x) l)
  = list_sum (map f l) + list_sum (map g l).
Proof. induction l as [|a l IH]; simpl; lia. Qed.

Lemma one_hot (c : SkillCategory) (cs : list SkillCategory) :
  NoDup cs -> In c cs ->
  list_sum (map (fun c' => if category_eqb c c' then 1 else 0) cs) = 1.
Proof.
  induction 1 as [|x cs Hx Hnd IH]; intros Hin; [destruct Hin|].
  simpl. destruct (category_eqb c x) eqn:E.
  - apply category_eqb_eq in E. subst x.
    assert (Z : list_sum (map (fun c' => if category_eqb c c' then 1 else 0) cs) = 0).
    { clear IH Hin Hnd. induction cs as [|y cs IH]; [reflexivity|].
      simpl. destruct (category_eqb c y) eqn:E.
      - apply category_eqb_eq in E. subst. exfalso. apply Hx. left; reflexivity.
      - apply IH. intros H. apply Hx. right; exact H. }
    lia.
  - destruct Hin as [->|Hin].
    + assert (category_eqb c c = true) by (apply category_eqb_eq; reflexivity).
      congruence.
    + rewrite (IH Hin). reflexivity.
Qed.

Lemma count_by_category (B : Type) (catf : B -> SkillCategory) (l : list B)
      (cs : list SkillCategory) :
  NoDup cs -> (forall x, In x l -> In (catf x) cs) ->
  list_sum (map (fun c => length (filter (fun x => category_eqb (catf x) c) l)) cs)
  = length l.
Proof.
  intros Hnd. induction l as [|x l IH]; intros Hin.
  - clear. induction cs as [|c cs IH]; [reflexivity | exact IH].
  - rewrite (map_ext _ (fun c => (if category_eqb (catf x) c then 1 else 0)
                                 + length (filter (fun y => category_eqb (catf y) c) l))).
    + rewrite list_sum_map_add, IH, one_hot.
      * reflexivity.
      * exact Hnd.
      * apply Hin. left; reflexivity.
      * intros y Hy. apply Hin. right; exact Hy.
    + intros c. simpl. destruct (category_eqb (catf x) c); reflexivity.
Qed.

End EnumFacts.

(** X11: the category analysis has one entry for each category that
    occurs among the matched, weak and missing skills and for no other;
    no category occurs twice; every entry counts at least one skill (so
    its coverage is a quotient by a positive number); and over all entries
    the matched, weak and missing counts add up to the numbers of matched,
    weak and missing skills. *)
Theorem categories_cover
        (iter_categories : list SkillCategory -> list SkillCategory)
        (matched weak : list SkillMatch) (missing : list SkillGap.t) :
  (forall l, Permutation (iter_categories l) l) ->
  let cats := GapAnalyzer._analyze_categories iter_categories matched weak missing in
  let occurring := map (fun m => category (skill m)) (matched ++ weak)
                   ++ map SkillGap.category missing in
  NoDup (map fst cats)
  /\ (forall c, In c (map fst cats) <-> In c occurring)
  /\ (forall c a, In (c, a) cats ->
        CategoryAnalysis.category a = c
        /\ 0 < CategoryAnalysis.matched_count a + CategoryAnalysis.weak_count a
               + CategoryAnalysis.missing_count a)
  /\ list_sum (map (fun ca => CategoryAnalysis.matched_count (snd ca)) cats)
     = length matched
  /\ list_sum (map (fun ca => CategoryAnalysis.weak_count (snd ca)) cats)
     = length weak
  /\ list_sum (map (fun ca => CategoryAnalysis.missing_count (snd ca)) cats)
     = length missing.
Proof.
  intros Hperm cats occurring.
  set (all := GapAnalyzer.set_of occurring).
  assert (Hfst : map fst cats = iter_categories all).
  { unfold cats, GapAnalyzer._analyze_categories. rewrite map_map. cbn [fst].
    apply map_id. }
  assert (Hnd : NoDup (iter_categories all)).
  { apply (Permutation_NoDup (Permutation_sym (Hperm all))), set_of_NoDup. }
  assert (Hin : forall c, In c (iter_categories all) <-> In c occurring).
  { intros c. split; intros H.
    - apply set_of_In. apply (Permutation_in _ (Hperm all)). exact H.
    - apply (Permutation_in _ (Permutation_sym (Hperm all))).
      apply set_of_In. exact H. }
  split; [rewrite Hfst; exact Hnd|]. split; [rewrite Hfst; exact Hin|].
  split; [|split; [|split]].
  - intros c a H. unfold cats, GapAnalyzer._analyze_categories in H.
    apply in_map_iff in H. destruct H as (cat & E & Hcat).
    injection E as <- <-. cbn [CategoryAnalysis.category
      CategoryAnalysis.matched_count CategoryAnalysis.weak_count
      CategoryAnalysis.missing_count]. split; [reflexivity|].
    apply Hin in Hcat. unfold occurring in Hcat.
    rewrite map_app, !in_app_iff, !in_map_iff in Hcat.
    assert (P : forall (B : Type) (f : B -> SkillCategory) (l : list B) (x : B),
               In x l -> f x = cat ->
               0 < length (filter (fun y => category_eqb (f y) cat) l)).
    { intros B f l x Hx Ex.
      assert (Hf : In x (filter (fun y => category_eqb (f y) cat) l))
        by (apply filter_In; split; [exact Hx | apply category_eqb_eq; exact Ex]).
      destruct (filter _ l); [destruct Hf | simpl; lia]. }
    destruct Hcat as [[(m & Em & Hm)|(m & Em & Hm)]|(g & Eg & Hg)].
    + pose proof (P _ (fun m => category (skill m)) _ _ Hm Em). lia.
    + pose proof (P _ (fun m => category (skill m)) _ _ Hm Em). lia.
    + pose proof (P _ SkillGap.category _ _ Hg Eg). lia.
  - unfold cats, GapAnalyzer._analyze_categories. rewrite map_map.
    cbn [snd CategoryAnalysis.matched_count].
    apply (count_by_category (fun m => category (skill m)) matched Hnd).
    intros m Hm. apply Hin. unfold occurring.
    apply in_or_app. left. apply (in_map (fun m => category (skill m))).
    apply in_or_app. left. exact Hm.
  - unfold cats, GapAnalyzer._analyze_categories. rewrite map_map.
    cbn [snd CategoryAnalysis.weak_count].
    apply (count_by_category (fun m => category (skill m)) weak Hnd).
    intros m Hm. apply Hin. unfold occurring.
    apply in_or_app. left. apply (in_map (fun m => category (skill m))).
    apply in_or_app. right. exact Hm.
  - unfold cats, GapAnalyzer._analyze_categories. rewrite map_map.
    cbn [snd CategoryAnalysis.missing_count].
    apply (count_by_category SkillGap.category missing Hnd).
    intros g Hg. apply Hin. unfold occurring.
    apply in_or_app. right. apply in_map. exact Hg.
Qed.

Lemma categories_cover_witness :
  let cats :=
    GapAnalyzer._analyze_categories (fun l => l)
      (match_of "Python" 1.0%float ++ match_of "Docker" 1.0%float)
      (match_of "Go" 0.5%float) [] in
  map fst cats = [DEVOPS; LANGUAGES]
  /\ list_sum (map (fun ca => CategoryAnalysis.matched_count (snd ca)) cats) = 2.
Proof.
  intros cats. split; [vm_compute; reflexivity|].
  apply (categories_cover (fun l => l)
           (match_of "Python" 1.0%float ++ match_of "Docker" 1.0%float)
           (match_of "Go" 0.5%float) [] (fun l => Permutation_refl l)).
Defined.

(** X12: at most four recommendations are generated, so the cap of five
    never cuts one off; and none is generated exactly when no gap is
    Critical or High, no match is weak and no category has a coverage
    below 0.5. *)
Theorem recommendations_bounded (missing : list SkillGap.t)
        (weak : list SkillMatch)
        (categories : list (SkillCategory * CategoryAnalysis.t)) :
  let recs := GapAnalyzer._generate_recommendations missing weak categories in
  length recs <= 4
  /\ (recs = [] <->
      (forall g, In g missing ->
                 SkillGap.priority g <> CRITICAL /\ SkillGap.priority g <> HIGH)
      /\ weak = []
      /\ (forall ca, In ca categories ->
                     PrimFloat.ltb (CategoryAnalysis.coverage (snd ca)) 0.5 = false)).
Proof.
  intros recs. unfold recs, GapAnalyzer._generate_recommendations.
  set (critical := filter (fun g => priority_eqb (SkillGap.priority g) CRITICAL)
                          missing).
  set (high := filter (fun g => priority_eqb (SkillGap.priority g) HIGH) missing).
  set (low := filter (fun c => PrimFloat.ltb (CategoryAnalysis.coverage c) 0.5)
                     (map snd categories)).
  assert (Hc : critical = [] <->
               forall g, In g missing -> SkillGap.priority g <> CRITICAL).
  { unfold critical. rewrite filter_nil. split; intros H g Hg.
    - intros E. specialize (H g Hg). apply priority_eqb_eq in E. congruence.
    - destruct (priority_eqb (SkillGap.priority g) CRITICAL) eqn:E;
        [|reflexivity].
      apply priority_eqb_eq in E. destruct (H g Hg E). }
  assert (Hh : high = [] <->
               forall g, In g missing -> SkillGap.priority g <> HIGH).
  { unfold high. rewrite filter_nil. split; intros H g Hg.
    - intros E. specialize (H g Hg). apply priority_eqb_eq in E. congruence.
    - destruct (priority_eqb (SkillGap.priority g) HIGH) eqn:E; [|reflexivity].
      apply priority_eqb_eq in E. destruct (H g Hg E). }
  assert (Hl : low = [] <->
               forall ca, In ca categories ->
                 PrimFloat.ltb (CategoryAnalysis.coverage (snd ca)) 0.5 = false).
  { unfold low. rewrite filter_nil. split; intros H.
    - intros ca Hca. apply H. apply in_map. exact Hca.
    - intros c Hin. apply in_map_iff in Hin. destruct Hin as (ca & <- & Hca).
      apply H. exact Hca. }
  destruct critical as [|g1 cs], high as [|g2 hs], weak as [|w ws],
           low as [|c ls]; cbn [app firstn length]; (split; [lia|]); split.
  all: try (intros R; discriminate R).
  all: match goal with
       | |- _ = [] -> _ =>
         intros _; split; [|split];
         [ intros g Hg; split;
           [apply (proj1 Hc eq_refl) | apply (proj1 Hh eq_refl)]; exact Hg
         | reflexivity
         | apply (proj1 Hl eq_refl) ]
       | |- _ -> _ = [] =>
         intros (H1 & H3 & H4);
         first
           [ reflexivity
           | exfalso;
             first
               [ assert (X : g1 :: cs = [])
                   by (apply Hc; intros g Hg; apply (H1 g Hg)); discriminate X
               | assert (X : g2 :: hs = [])
                   by (apply Hh; intros g Hg; apply (H1 g Hg)); discriminate X
               | discriminate H3
               | assert (X : c :: ls = []) by (apply Hl; exact H4);
                 discriminate X ] ]
       end.
Qed.

Lemma recommendations_bounded_witness :
  GapAnalyzer._generate_recommendations [] [] [] = [].
Proof.
  apply (recommendations_bounded [] [] []).
  split; [intros g []|]. split; [reflexivity | intros ca []].
Defined.

(* ================================================================== *)
(** * Further properties: the normalizer *)

Section BlankFacts.

Lemma clean_output (c : ascii) : clean_char c = true -> output_char c = true.
Proof. each_char c. Qed.

Lemma nfkd_space (c : ascii) :
  is_space c = true -> forallb is_space (TextPreprocessor.nfkd_ascii c) = true.
Proof. each_char c. Qed.

Lemma lower_space (c : ascii) :
  is_space c = true -> is_space (lower_char c) = true.
Proof. each_char c. Qed.

Lemma lstrip_blank (t : str) :
  Forall (fun c => is_space c = true) t -> lstrip t = [].
Proof.
  induction 1 as [|c t Hc Ht IH]; simpl; [reflexivity|].
  rewrite Hc. exact IH.
Qed.

End BlankFacts.

(** X13: every output of [process] consists of lowercase ASCII letters,
    digits, [_], [+], [#], [.], [-] and single spaces only: it has no
    whitespace at either end and no two neighbouring spaces, and
    lowercasing or stripping it again changes nothing. *)
Theorem process_output_shape (text : str) :
  let out := TextPreprocessor.process text in
  Forall (fun c => output_char c = true) out
  /\ no_double out
  /\ strip out = out
  /\ lower out = out.
Proof.
  intros out. destruct (process_normalized text) as (Hc & Hn & Hs).
  fold out in Hc, Hn, Hs. split; [|split; [exact Hn|split; [exact Hs|]]].
  - eapply Forall_impl; [|exact Hc]. intros c. apply clean_output.
  - apply clean_lower. exact Hc.
Qed.

(** X14: a text made of whitespace only is normalized to the empty
    string. *)
Theorem process_blank (text : str) :
  Forall (fun c => is_space c = true) text ->
  TextPreprocessor.process text = [].
Proof.
  intros H. destruct text as [|c0 text]; [reflexivity|].
  unfold TextPreprocessor.process.
  set (t1 := flat_map TextPreprocessor.nfkd_ascii (c0 :: text)).
  assert (H1 : Forall (fun c => is_space c = true) t1).
  { unfold t1. induction H as [|c t Hc Ht IH]; simpl; [constructor|].
    apply Forall_app. split; [|exact IH].
    apply Forall_forall. intros d Hd.
    pose proof (nfkd_space c Hc) as Hs. rewrite forallb_forall in Hs.
    apply Hs. exact Hd. }
  set (t2 := Re.sub TextPreprocessor.phone (txt " ")
               (Re.sub TextPreprocessor.email (txt " ")
                  (Re.sub TextPreprocessor.url (txt " ") t1))).
  assert (H2 : Forall (fun c => is_space c = true) (lower t2)).
  { assert (H2 : Forall (fun c => is_space c = true) t2).
    { unfold t2, Re.sub.
      repeat (apply sub_from_Forall; [repeat constructor|]). exact H1. }
    induction H2 as [|c t Hc Ht IH]; simpl; [constructor|].
    constructor; [apply lower_space; exact Hc | exact IH]. }
  assert (H3 : Forall (fun c => is_space c = true)
                      (Re.sub TextPreprocessor.spaces (txt " ")
                         (Re.sub TextPreprocessor.symbol (txt " ") (lower t2)))).
  { unfold Re.sub.
    repeat (apply sub_from_Forall; [repeat constructor|]). exact H2. }
  unfold strip. rewrite (lstrip_blank H3). reflexivity.
Qed.

Lemma process_blank_witness :
  TextPreprocessor.process
    [" "%char; ascii_of_nat 9; ascii_of_nat 10; ascii_of_nat 160;
     ascii_of_nat 133] = [].
Proof.
  apply process_blank. repeat constructor.
Defined.

(* ================================================================== *)
(** * Further properties: the similarity engine *)

Section IndexSetFacts.

Lemma where_from_bound (test : nat -> float -> bool) (v : list float) :
  forall i j, In j (SimilarityEngine.where_from test i v) -> i <= j.
Proof.
  induction v as [|x v IH]; intros i j H; simpl in H; [destruct H|].
  destruct (test i x).
  - destruct H as [<-|H]; [lia|]. specialize (IH _ _ H). lia.
  - specialize (IH _ _ H). lia.
Qed.

Lemma where_from_NoDup (test : nat -> float -> bool) (v : list float) :
  forall i, NoDup (SimilarityEngine.where_from test i v).
Proof.
  induction v as [|x v IH]; intros i; simpl; [constructor|].
  destruct (test i x); [|apply IH].
  constructor; [|apply IH]. intros H. apply where_from_bound in H. lia.
Qed.

Lemma where_from_length (test : nat -> float -> bool) (v : list float) (i : nat) :
  length (SimilarityEngine.where_from test i v) <= length v.
Proof.
  revert i. induction v as [|x v IH]; intros i; simpl; [lia|].
  destruct (test i x); simpl; specialize (IH (S i)); lia.
Qed.

Lemma nat_inb (x : nat) (l : list nat) :
  existsb (Nat.eqb x) l = true <-> In x l.
Proof.
  rewrite existsb_exists. split.
  - intros (y & Hy & E). apply Nat.eqb_eq in E. subst. exact Hy.
  - intros H. exists x. split; [exact H | apply Nat.eqb_refl].
Qed.

Lemma match_length (A : Type) (l : list A) (a b : float) :
  match l with [] => a | _ => b end = if length l =? 0 then a else b.
Proof. destruct l; reflexivity. Qed.

End IndexSetFacts.

(** X15: the Jaccard overlap does not depend on the order of the two
    vectors. *)
Theorem jaccard_symmetric (vec1 vec2 : list float) :
  SimilarityEngine._jaccard_overlap vec1 vec2
  = SimilarityEngine._jaccard_overlap vec2 vec1.
Proof.
  unfold SimilarityEngine._jaccard_overlap.
  set (s1 := SimilarityEngine.positive_indices vec1).
  set (s2 := SimilarityEngine.positive_indices vec2).
  assert (N1 : NoDup s1) by apply where_from_NoDup.
  assert (N2 : NoDup s2) by apply where_from_NoDup.
  pose proof (inter_length_sym (fun x l => existsb (Nat.eqb x) l) nat_inb N1 N2)
    as Hb.
  pose proof (filter_partition_length (fun i => existsb (Nat.eqb i) s1) s2) as P2.
  pose proof (filter_partition_length (fun i => existsb (Nat.eqb i) s2) s1) as P1.
  rewrite !match_length, !length_app.
  cbv beta in Hb. rewrite Hb.
  replace (length s2 + length (filter (fun i => negb (existsb (Nat.eqb i) s2)) s1))
    with (length s1 + length (filter (fun i => negb (existsb (Nat.eqb i) s1)) s2))
    by lia.
  reflexivity.
Qed.

(** X16: whatever order [argsort] returns, at most ten top matching terms
    and at most ten unique terms are listed, and every listed top term has
    a positive overlap score. *)
Theorem top_terms_bounded (argsort : list float -> list nat)
        (resume_vec jd_vec : list float) (features : list str) :
  let top := SimilarityEngine._top_matching_terms argsort resume_vec jd_vec
               features in
  length top <= 10
  /\ (forall term score, In (term, score) top -> PrimFloat.ltb 0 score = true)
  /\ length (SimilarityEngine._unique_terms argsort resume_vec jd_vec features)
     <= 10.
Proof.
  intros top. split; [|split].
  - unfold top, SimilarityEngine._top_matching_terms.
    rewrite length_map.
    eapply Nat.le_trans; [apply filter_length_le|].
    rewrite length_rev. unfold SimilarityEngine.last_n.
    rewrite length_skipn. lia.
  - intros term score H. unfold top, SimilarityEngine._top_matching_terms in H.
    apply in_map_iff in H. destruct H as (i & E & Hi).
    injection E as _ <-. apply filter_In in Hi. apply Hi.
  - unfold SimilarityEngine._unique_terms.
    destruct (SimilarityEngine.where_from _ 0 resume_vec); [simpl; lia|].
    rewrite length_map. apply firstn_le_length.
Qed.

(* ================================================================== *)
(** * Further properties: skills and what the matchers find *)

Section FoundFacts.

Lemma search_word_contains (lit : str) (t : str) (prev : option ascii) :
  Re.search_from (Re.word_literal lit) prev t = true -> contains lit t = true.
Proof.
  revert prev. induction t as [|c t IH]; intros prev; simpl.
  - unfold Re.word_literal.
    destruct (Re.boundary prev (hd_error [])); simpl; [|discriminate].
    destruct (starts_with lit []); simpl; [reflexivity | discriminate].
  - unfold Re.word_literal at 1.
    destruct (starts_with lit (c :: t)) eqn:E; [reflexivity|].
    rewrite andb_false_r. simpl. apply IH.
Qed.

Lemma lower_fixed_Forall (t : str) :
  lower t = t <-> Forall (fun c => lower_char c = c) t.
Proof.
  induction t as [|c t IH]; simpl.
  - split; [constructor | reflexivity].
  - split.
    + intros [= E1 E2]. constructor; [exact E1 | apply IH; exact E2].
    + intros H. inversion H as [|? ? H1 H2]; subst.
      fold (lower t). rewrite H1, (proj2 IH H2). reflexivity.
Qed.

End FoundFacts.

(** X17: the variants of a skill built by the constructor are lowercase
    and stripped, whatever was passed in. *)
Theorem skill_variants_normalized (n : string) (c : SkillCategory) (w : float)
        (vs : list string) (strict : bool) (v : str) :
  In v (variants (new_Skill n c w vs strict)) ->
  lower v = v /\ strip v = v.
Proof.
  unfold new_Skill. cbn [variants]. intros H.
  apply in_map_iff in H. destruct H as (x & <- & _). split.
  - apply lower_fixed_Forall. apply strip_Forall.
    apply lower_fixed_Forall. apply lower_idem.
  - apply strip_idem.
Qed.

Lemma skill_variants_normalized_witness :
  lower (txt "c programming") = txt "c programming".
Proof.
  apply (skill_variants_normalized "C" LANGUAGES 1.0%float
           ["  C Programming "]%string true (txt "c programming")).
  vm_compute. left. reflexivity.
Defined.

(** X18: word-boundary matching is never more permissive than substring
    matching: a skill the exact matcher finds has its lowercased name in
    the text, so the search for the context snippet does not miss; and a
    variant the variant matcher finds occurs in the text. The converse
    fails for strict skills: "golang" contains "go" but Go is not found. *)
Theorem found_occurs (text : str) (sk : Skill) (variant : str) :
  (ExactMatcher.found (lower text) sk = true ->
   exists idx, Str.find (lower (name sk)) (lower text) = Some idx)
  /\ (VariantMatcher.found (lower text) sk variant = true ->
      contains variant (lower text) = true)
  /\ exists go,
      In go (get_all_skills new_SkillTaxonomy)
      /\ contains (lower (name go)) (txt "golang") = true
      /\ ExactMatcher.found (txt "golang") go = false.
Proof.
  split; [|split].
  - unfold ExactMatcher.found. intros H. apply find_contains.
    destruct (strict_match sk); [|exact H].
    apply (search_word_contains _ _ _ H).
  - unfold VariantMatcher.found. intros H.
    destruct (strict_match sk); [|exact H].
    apply (search_word_contains _ _ _ H).
  - exists (new_Skill "Go" LANGUAGES 1.0%float ["golang"]%string true).
    split; [vm_compute; do 7 right; left; reflexivity|].
    split; vm_compute; reflexivity.
Qed.

Lemma found_occurs_witness :
  exists idx, Str.find (txt "c") (txt "i use c and go") = Some idx.
Proof.
  apply (proj1 (found_occurs (txt "I use C and Go")
                  (new_Skill "C" LANGUAGES 1.0%float ["c programming"]%string true)
                  [])).
  vm_compute. reflexivity.
Defined.
